(** * dataset.py: the dataset-assembly pipeline, shallowly embedded

    The script enumerates the images of [image_dir], shuffles them, splits
    them 80/20, and for each image proposes regions with OpenCV, exports a
    crop per region, copies the image and writes a YOLO annotation file,
    numbering regions with a global counter recorded in [class_map]; it
    ends by writing the manifest [dataset.yaml].

    Python integers are [Z]; a Python [float] (IEEE binary64) is modelled by
    the rational it denotes, every float operation being the exact rational
    operation followed by [rnd], rounding to nearest, ties to even, with a
    53-bit significand.  Globals and the file system are threaded through a
    state monad that also carries raised exceptions.

    Two more scripts of the repository follow the pipeline: the loop of
    detect.py over the same directory (module [Detect]), and from
    youtube.py the choice of a channel category, the authorization URL
    and the channel analytics (module [YouTube]). *)

From Stdlib Require Import QArith Qround Qabs Qpower Lqa Ascii Sorted.
From stdpp Require Import gmap strings list fin_maps pretty.

Local Open Scope Z_scope.

(** ** Binary64 arithmetic on rationals *)

Module Float.

(** [2^e] as a rational, for any integer exponent. *)
Definition pow2 (e : Z) : Q := (2 ^ e)%Q.

(** Round a rational to the nearest integer, ties to the even one. *)
Definition round_ne (t : Q) : Z :=
  let f := Qfloor t in
  match Qcompare (t - inject_Z f) (1 # 2) with
  | Lt => f
  | Gt => f + 1
  | Eq => if Z.even f then f else f + 1
  end.

(** [floor (log2 q)] for a positive rational [n/d]: the difference of the
    bit lengths of [n] and [d], corrected downwards by one when [2^l]
    overshoots. *)
Definition ilog2 (q : Q) : Z :=
  let n := Qnum q in
  let d := Zpos (Qden q) in
  let l := Z.log2 n - Z.log2 d in
  if Qle_bool (pow2 l) q then l else l - 1.

(** Exponent of the unit in the last place of a binary64 number of the
    magnitude of [q]: 53 significant bits, subnormals below [2^-1022]. *)
Definition fexp (q : Q) : Z := Z.max (ilog2 (Qabs q) - 52) (-1074).

(** The binary64 number nearest to [q], were the exponent unbounded
    above: the values the pipeline rounds are far smaller than [2^1024],
    and where a value can be that large the result is tested against
    it. *)
Definition rnd (q : Q) : Q :=
  if Qeq_bool q 0 then 0%Q
  else Qred (inject_Z (round_ne (q / pow2 (fexp q))) * pow2 (fexp q)).

End Float.

(** ** Python values and built-ins used by the script *)

Inductive Exn :=
| Cv2Error            (* cv2.error *)
| TypeError           (* subscripting None *)
| AttributeError      (* None.shape *)
| ZeroDivisionError
| SameFileError       (* shutil.copy onto the source itself *)
| FileNotFoundError.

Inductive Res (A : Type) :=
| Ok (a : A)
| Raise (e : Exn).
Arguments Ok {A} a.
Arguments Raise {A} e.

Module Py.
Import Float.

(** [float(n)], the conversion Python applies to an [int] operand of a
    mixed arithmetic operation. *)
Definition float_of_int (n : Z) : Q := rnd (inject_Z n).

(** [a / b] on two [int]s: the correctly rounded quotient. *)
Definition int_truediv (a b : Z) : Res Q :=
  if b =? 0 then Raise ZeroDivisionError
  else Ok (rnd (inject_Z a / inject_Z b)).

(** [a + b], [a * b] and [a / b] on [float]s. *)
Definition float_add (a b : Q) : Q := rnd (a + b).
Definition float_mul (a b : Q) : Q := rnd (a * b).
Definition float_truediv (a b : Q) : Res Q :=
  if Qeq_bool b 0 then Raise ZeroDivisionError else Ok (rnd (a / b)).

(** [int(x)] on a [float]: truncation towards zero. *)
Definition int_of_float (x : Q) : Z := Z.quot (Qnum x) (Zpos (Qden x)).

(** Slice bounds are clipped to the sequence, negative ones counted from
    its end. *)
Definition norm_index (len i : Z) : Z :=
  if i <? 0 then Z.max (i + len) 0 else Z.min i len.

(** [l[start:stop]] *)
Definition slice {A} (l : list A) (start stop : Z) : list A :=
  let n := Z.of_nat (length l) in
  let a := norm_index n start in
  let b := norm_index n stop in
  take (Z.to_nat (b - a)) (drop (Z.to_nat a) l).

(** [l[:stop]] and [l[start:]] *)
Definition slice_to {A} (l : list A) (stop : Z) : list A := slice l 0 stop.
Definition slice_from {A} (l : list A) (start : Z) : list A :=
  slice l start (Z.of_nat (length l)).

(** [s.endswith(suffix)]: [suffix] is [s] itself or ends the tail of [s]. *)
Fixpoint endswith (s suffix : string) : bool :=
  String.eqb s suffix ||
  match s with
  | EmptyString => false
  | String _ s' => endswith s' suffix
  end.

(** [s.endswith(tuple)] *)
Definition endswith_any (s : string) (suffixes : list string) : bool :=
  existsb (endswith s) suffixes.

(** [s.rfind(c)]: index of the last occurrence of [c], or [-1]. *)
Fixpoint rfind_from (c : Ascii.ascii) (s : string) (i last : Z) : Z :=
  match s with
  | EmptyString => last
  | String a s' => rfind_from c s' (i + 1) (if Ascii.eqb a c then i else last)
  end.
Definition rfind (c : Ascii.ascii) (s : string) : Z := rfind_from c s 0 (-1).

Fixpoint all_dots (s : string) : bool :=
  match s with
  | EmptyString => true
  | String a s' => Ascii.eqb a "."%char && all_dots s'
  end.

(** [os.path.splitext(p)]: split at the last dot of the last path
    component, unless that component has only dots before it. *)
Definition splitext (p : string) : string * string :=
  let sepIndex := rfind "/"%char p in
  let dotIndex := rfind "."%char p in
  if (sepIndex <? dotIndex) &&
     negb (all_dots (String.substring (Z.to_nat (sepIndex + 1))
                               (Z.to_nat (dotIndex - (sepIndex + 1))) p))
  then (String.substring 0 (Z.to_nat dotIndex) p,
        String.substring (Z.to_nat dotIndex) (String.length p - Z.to_nat dotIndex) p)
  else (p, EmptyString).

(** [os.path.join(dir, name)] for a directory path without a trailing
    slash and a relative name, the only way the script calls it. *)
Definition path_join (dir name : string) : string := dir +:+ "/" +:+ name.

(** [os.path.basename(p)] *)
Definition basename (p : string) : string :=
  let i := Z.to_nat (rfind "/"%char p + 1) in
  String.substring i (String.length p - i) p.

End Py.

(** ** Images, files and the program state *)

(** A decoded colour image: rows of BGR pixels, as the [numpy] array
    [cv2.imread] returns. *)
Definition Pixel : Type := Z * Z * Z.
Definition Mat : Type := list (list Pixel).

(** A bounding rectangle [(x, y, w, h)]. *)
Definition Rect : Type := Z * Z * Z * Z.

(** One line [f"{class_id} {x_center} {y_center} {box_width} {box_height}\n"]
    of an annotation file, kept as its five fields. *)
Record AnnLine := {
  class_id : Z;
  x_center : Q;
  y_center : Q;
  box_width : Q;
  box_height : Q
}.

(** What a file holds: an encoded image (given by the pixels it decodes
    to), the lines of an annotation file, or anything else. *)
Inductive Content :=
| ImageFile (m : Mat)
| LabelFile (lines : list AnnLine)
| OtherFile.

(** Output operations, in the order the script calls them. *)
Inductive Event :=
| Imwrite (path : string) (img : Mat)        (* cv2.imwrite(path, img) *)
| Copy (src dst : string)                    (* shutil.copy(src, dir) *)
| OpenW (path : string)                      (* open(path, "w") *)
| FWrite (path : string) (line : AnnLine).   (* f.write(line) *)

(** The globals [class_counter] and [class_map], the file system, and the
    history of output operations. *)
Record State := {
  fs : gmap string Content;
  class_counter : Z;
  class_map : gmap string Z;
  trace : list Event
}.

Definition initial_state (files : gmap string Content) : State :=
  {| fs := files; class_counter := 0; class_map := ∅; trace := [] |}.

(** Statements run on the state and either complete or raise; the state
    reached is kept in both cases. *)
Definition M (A : Type) : Type := State -> Res A * State.

Definition ret {A} (a : A) : M A := fun st => (Ok a, st).
Definition raise {A} (e : Exn) : M A := fun st => (Raise e, st).
Definition lift {A} (r : Res A) : M A := fun st => (r, st).
Definition res_bind {A B} (r : Res A) (k : A -> Res B) : Res B :=
  match r with
  | Ok a => k a
  | Raise e => Raise e
  end.
Definition bind {A B} (m : M A) (k : A -> M B) : M B :=
  fun st =>
    match m st with
    | (Ok a, st') => k a st'
    | (Raise e, st') => (Raise e, st')
    end.

Notation "'let*' x ':=' m 'in' k" := (bind m (fun x => k))
  (at level 10, x pattern, m at level 100, k at level 200).

Notation "'let?' x ':=' r 'in' k" := (res_bind r (fun x => k))
  (at level 10, x pattern, r at level 100, k at level 200).

(** *** Shape, slicing and the directories *)

Definition mat_height (m : Mat) : Z := Z.of_nat (length m).
Definition mat_width (m : Mat) : Z :=
  match m with
  | [] => 0
  | row :: _ => Z.of_nat (length row)
  end.
Definition mat_empty (m : Mat) : bool :=
  (mat_height m =? 0) || (mat_width m =? 0).

(** [image[y0:y1, x0:x1]] *)
Definition crop (image : Mat) (y0 y1 x0 x1 : Z) : Mat :=
  map (fun row => Py.slice row x0 x1) (Py.slice image y0 y1).

Definition image_dir : string := "/content/sample_data/images".
Definition dataset_dir : string := "/content/dataset".
Definition train_images_dir : string := Py.path_join dataset_dir "images/train".
Definition val_images_dir : string := Py.path_join dataset_dir "images/val".
Definition train_labels_dir : string := Py.path_join dataset_dir "labels/train".
Definition val_labels_dir : string := Py.path_join dataset_dir "labels/val".
Definition unknown_objects_dir : string :=
  Py.path_join dataset_dir "unknown_objects2".

(** Train-validation split ratio: the float literal [0.8]. *)
Definition split_ratio : Q := Eval vm_compute in Float.rnd (8 # 10).

(** *** File and OpenCV primitives *)

(** [cv2.imread]: the decoded image, or [None] when the file is missing,
    is not an image, or decodes to an empty array. *)
Definition imread (path : string) : M (option Mat) :=
  fun st =>
    (Ok match fs st !! path with
        | Some (ImageFile m) => if mat_empty m then None else Some m
        | _ => None
        end, st).

(** OpenCV, which the script only calls.  [find_contours image] stands
    for the contours returned by
    [cv2.findContours(cv2.Canny(cv2.cvtColor(image, COLOR_BGR2GRAY), 50, 150),
    RETR_EXTERNAL, CHAIN_APPROX_SIMPLE)], [boundingRect] for
    [cv2.boundingRect], and [imwrite_ok path img] for the value
    [cv2.imwrite(path, img)] returns: [False] when the file cannot be
    created, as with a name longer than the file system allows. *)
Class Cv2 := {
  Contour : Type;
  find_contours : Mat -> list Contour;
  boundingRect : Contour -> Rect;
  imwrite_ok : string -> Mat -> bool
}.

(** [cv2.imwrite]: the file is written when the call returns [True] and
    nothing is written when it returns [False]; the call is recorded in
    both cases.  An empty array, on which [cv2.imwrite] raises, is never
    passed: the rectangles cropped are bounding rectangles, more than 20
    pixels wide and high, of contours of the image itself. *)
Definition imwrite `{cv : Cv2} (path : string) (img : Mat) : M bool :=
  fun st =>
    let written := imwrite_ok path img in
    (Ok written,
     {| fs := if written then <[path := ImageFile img]> (fs st) else fs st;
        class_counter := class_counter st;
        class_map := class_map st;
        trace := trace st ++ [Imwrite path img] |}).

(** [shutil.copy(src, dst_dir)] into an existing directory. *)
Definition shutil_copy (src dst_dir : string) : M unit :=
  fun st =>
    let dst := Py.path_join dst_dir (Py.basename src) in
    match fs st !! src with
    | None => (Raise FileNotFoundError, st)
    | Some c =>
      if String.eqb src dst then (Raise SameFileError, st)
      else (Ok tt, {| fs := <[dst := c]> (fs st);
                      class_counter := class_counter st;
                      class_map := class_map st;
                      trace := trace st ++ [Copy src dst] |})
    end.

(** [open(path, "w")]: create or truncate. *)
Definition open_w (path : string) : M unit :=
  fun st =>
    (Ok tt, {| fs := <[path := LabelFile []]> (fs st);
               class_counter := class_counter st;
               class_map := class_map st;
               trace := trace st ++ [OpenW path] |}).

Definition append_line (line : AnnLine) (c : Content) : Content :=
  match c with
  | LabelFile lines => LabelFile (lines ++ [line])
  | _ => LabelFile [line]
  end.

(** [f.write(line)] on the file opened at [path]. *)
Definition f_write (path : string) (line : AnnLine) : M unit :=
  fun st =>
    (Ok tt, {| fs := alter (append_line line) path (fs st);
               class_counter := class_counter st;
               class_map := class_map st;
               trace := trace st ++ [FWrite path line] |}).

(** [class_id = class_counter; class_map[key] = class_id;
     class_counter += 1], yielding [class_id]. *)
Definition assign_class_id (key : string) : M Z :=
  fun st =>
    let class_id := class_counter st in
    (Ok class_id, {| fs := fs st;
                     class_counter := class_counter st + 1;
                     class_map := <[key := class_id]> (class_map st);
                     trace := trace st |}).

(** ** The script *)

Section Pipeline.
Context {cv : Cv2}.

(** The loop of [detect_objects] over the contours. *)
Fixpoint filter_contours (contours : list Contour)
    (detected_objects : list Rect) : list Rect :=
  match contours with
  | [] => detected_objects
  | contour :: rest =>
    let '(x, y, w, h) := boundingRect contour in
    if (20 <? w) && (20 <? h)
    then filter_contours rest (detected_objects ++ [(x, y, w, h)])
    else filter_contours rest detected_objects
  end.

Definition detect_objects (image_path : string) : M (list Rect) :=
  let* image := imread image_path in
  match image with
  | None => raise Cv2Error               (* cv2.cvtColor(None, ...) *)
  | Some image => ret (filter_contours (find_contours image) [])
  end.

Definition cropped_name (image_id : string) (idx : Z) : string :=
  image_id +:+ "_object_" +:+ pretty (idx + 1) +:+ ".png".

(** The loop of [save_cropped_objects] over
    [enumerate(detected_objects)], from index [idx] on. *)
Fixpoint crop_loop (image : option Mat) (image_id : string)
    (detected_objects : list Rect) (idx : Z) (cropped_paths : list string)
    : M (list string) :=
  match detected_objects with
  | [] => ret cropped_paths
  | (x, y, w, h) :: rest =>
    match image with
    | None => raise TypeError            (* None[y:y+h, x:x+w] *)
    | Some img =>
      let cropped := crop img y (y + h) x (x + w) in
      let cropped_filename := cropped_name image_id idx in
      let cropped_path := Py.path_join unknown_objects_dir cropped_filename in
      let* _ := imwrite cropped_path cropped in
      crop_loop image image_id rest (idx + 1)
                (cropped_paths ++ [cropped_filename])
    end
  end.

Definition save_cropped_objects (image_path : string)
    (detected_objects : list Rect) (image_id : string) : M (list string) :=
  let* image := imread image_path in
  crop_loop image image_id detected_objects 0 [].

(** Lines 92-95: normalized centre and extent of one rectangle. *)
Definition yolo_box (width height : Z) (obj : Rect) : Res (Q * Q * Q * Q) :=
  let '(x, y, w, h) := obj in
  let? half_w := Py.int_truediv w 2 in
  let? x_center :=
    Py.float_truediv (Py.float_add (Py.float_of_int x) half_w)
                     (Py.float_of_int width) in
  let? half_h := Py.int_truediv h 2 in
  let? y_center :=
    Py.float_truediv (Py.float_add (Py.float_of_int y) half_h)
                     (Py.float_of_int height) in
  let? box_width := Py.int_truediv w width in
  let? box_height := Py.int_truediv h height in
  Ok (x_center, y_center, box_width, box_height).

Definition class_key (image_id : string) (idx : Z) : string :=
  image_id +:+ "_object_" +:+ pretty (idx + 1).

(** The annotation loop of [process_images] over
    [enumerate(detected_objects)], from index [idx] on. *)
Fixpoint annotate_loop (image_id annotation_file : string) (width height : Z)
    (detected_objects : list Rect) (idx : Z) : M unit :=
  match detected_objects with
  | [] => ret tt
  | obj :: rest =>
    let* (xc, yc, bw, bh) := lift (yolo_box width height obj) in
    let* class_id := assign_class_id (class_key image_id idx) in
    let* _ := f_write annotation_file
                {| class_id := class_id; x_center := xc; y_center := yc;
                   box_width := bw; box_height := bh |} in
    annotate_loop image_id annotation_file width height rest (idx + 1)
  end.

(** The body of the loop of [process_images] for one file. *)
Definition process_image (images_dir labels_dir image_file : string)
    : M unit :=
  let image_path := Py.path_join image_dir image_file in
  let image_id := fst (Py.splitext image_file) in
  let* detected_objects := detect_objects image_path in
  match detected_objects with
  | [] => ret tt                          (* continue *)
  | _ :: _ =>
    let* cropped_paths :=
      save_cropped_objects image_path detected_objects image_id in
    let* _ := shutil_copy image_path images_dir in
    let* image := imread image_path in
    match image with
    | None => raise AttributeError        (* None.shape *)
    | Some image =>
      let height := mat_height image in
      let width := mat_width image in
      let annotation_file := Py.path_join labels_dir (image_id +:+ ".txt") in
      let* _ := open_w annotation_file in
      annotate_loop image_id annotation_file width height detected_objects 0
    end
  end.

Fixpoint process_images (files : list string) (images_dir labels_dir : string)
    : M unit :=
  match files with
  | [] => ret tt
  | image_file :: rest =>
    let* _ := process_image images_dir labels_dir image_file in
    process_images rest images_dir labels_dir
  end.

(** Line 105, on the names [os.listdir(image_dir)] returned. *)
Definition image_files (listing : list string) : list string :=
  List.filter (fun f => Py.endswith_any f [".png"; ".jpg"; ".jpeg"]) listing.

(** Lines 109-111, on the shuffled list. *)
Definition split_index (image_files : list string) : Z :=
  Py.int_of_float
    (Py.float_mul (Py.float_of_int (Z.of_nat (length image_files)))
                  split_ratio).
Definition train_files (image_files : list string) : list string :=
  Py.slice_to image_files (split_index image_files).
Definition val_files (image_files : list string) : list string :=
  Py.slice_from image_files (split_index image_files).

(** Lines 105-115.  [shuffle] is the permutation [random.shuffle] happens
    to apply.  The manifest written afterwards (lines 117-125) lists
    [class_map] and changes nothing above. *)
Definition main (listing : list string)
    (shuffle : list string -> list string) : M unit :=
  let image_files := shuffle (image_files listing) in
  let* _ := process_images (train_files image_files)
                           train_images_dir train_labels_dir in
  process_images (val_files image_files) val_images_dir val_labels_dir.

End Pipeline.

(** *** The manifest (lines 117-125) *)

Definition yaml_file : string := Py.path_join dataset_dir "dataset.yaml".

(** The line feed character, as a string. *)
Definition newline : string := String (Ascii.ascii_of_nat 10) EmptyString.

(** [f"  {class_id}: {obj_id}\n"] for one entry of [class_map.items()]. *)
Definition names_line (entry : string * Z) : string :=
  let '(obj_id, class_id) := entry in
  "  " +:+ pretty class_id +:+ ": " +:+ obj_id +:+ newline.

(** The strings written to [dataset.yaml], in order.  [dataset_dir] is
    absolute and normalized, so [os.path.abspath] returns it as it is. *)
Definition dataset_yaml (items : list (string * Z)) : list string :=
  ["path: " +:+ dataset_dir +:+ newline;
   "train: images/train" +:+ newline;
   "val: images/val" +:+ newline;
   newline +:+ "names:" +:+ newline]
  ++ map names_line items.

(** Lines 117-125.  [items] stands for [dict.items]: the entries of the
    dictionary in the order it yields them.  The file system records that
    the manifest exists; the text written is the value yielded. *)
Definition write_manifest (items : gmap string Z -> list (string * Z))
    : M (list string) :=
  fun st =>
    (Ok (dataset_yaml (items (class_map st))),
     {| fs := <[yaml_file := OtherFile]> (fs st);
        class_counter := class_counter st;
        class_map := class_map st;
        trace := trace st |}).

(** The whole script, from line 105 on. *)
Definition script `{cv : Cv2} (listing : list string)
    (shuffle : list string -> list string)
    (items : gmap string Z -> list (string * Z)) : M (list string) :=
  let* _ := main listing shuffle in
  write_manifest items.

(** ** Reading the history *)

(** The crops handed to [cv2.imwrite] with their paths, the annotation
    lines written, and the placeholder ids of those lines, in order. *)
Definition crops_of (evs : list Event) : list (string * Mat) :=
  omap (fun e => match e with Imwrite p m => Some (p, m) | _ => None end) evs.
Definition lines_of (evs : list Event) : list (string * AnnLine) :=
  omap (fun e => match e with FWrite p l => Some (p, l) | _ => None end) evs.
Definition copies_of (evs : list Event) : list (string * string) :=
  omap (fun e => match e with Copy s d => Some (s, d) | _ => None end) evs.
Definition ids_of (evs : list Event) : list Z :=
  map (fun pl => class_id (snd pl)) (lines_of evs).

(** The operations performed between two states of one run. *)
Definition new_events (st st' : State) : list Event :=
  drop (length (trace st)) (trace st').

(** ** Vocabulary of the properties *)

(** A statement keeps a relation between the state it starts in and the
    state it leaves, whether it completes or raises. *)
Definition preserves {A} (R : State -> State -> Prop) (m : M A) : Prop :=
  forall st, R st (snd (m st)).

(** The operations added to the history carry consecutive placeholder ids
    starting at the counter, which advances by their number. *)
Definition numbered (st st' : State) : Prop :=
  exists evs,
    trace st' = trace st ++ evs /\
    ids_of evs = seqZ (class_counter st) (Z.of_nat (length (ids_of evs))) /\
    class_counter st' = class_counter st + Z.of_nat (length (ids_of evs)).

(** The files of [image_dir] are as they were. *)
Definition input_kept (st st' : State) : Prop :=
  forall f, fs st' !! Py.path_join image_dir f = fs st !! Py.path_join image_dir f.

(** Every crop added to the history went to [unknown_objects_dir]. *)
Definition crops_in_review_dir (st st' : State) : Prop :=
  exists evs,
    trace st' = trace st ++ evs /\
    forall p m, (p, m) ∈ crops_of evs ->
      exists name, p = Py.path_join unknown_objects_dir name.

(** The directory pairs of the two calls of [process_images]. *)
Definition out_dirs : list (string * string) :=
  [(train_images_dir, train_labels_dir); (val_images_dir, val_labels_dir)].

Definition in_unit (q : Q) : Prop := (0 <= q /\ q <= 1)%Q.
Definition line_in_unit (l : AnnLine) : Prop :=
  in_unit (x_center l) /\ in_unit (y_center l) /\
  in_unit (box_width l) /\ in_unit (box_height l).

(** The rectangle lies within an image of the given dimensions. *)
Definition inside (width height : Z) (r : Rect) : Prop :=
  let '(x, y, w, h) := r in
  0 <= x /\ 0 <= y /\ x + w <= width /\ y + h <= height.

(** The pixels cropped for a rectangle, [image[y:y+h, x:x+w]]. *)
Definition crop_of_rect (image : Mat) (r : Rect) : Mat :=
  let '(x, y, w, h) := r in crop image y (y + h) x (x + w).

(** The path of the crop file of the region at 0-based position [i]. *)
Definition crop_path (image_id : string) (i : nat) : string :=
  Py.path_join unknown_objects_dir
    (image_id +:+ "_object_" +:+ pretty (Z.of_nat i + 1) +:+ ".png").

(** *** Keys of the label map *)

(** An ASCII decimal digit, and strings of digits only. *)
Definition is_digit (c : Ascii.ascii) : bool :=
  (48 <=? N_of_ascii c)%N && (N_of_ascii c <=? 57)%N.
Fixpoint all_digits (s : string) : bool :=
  match s with
  | EmptyString => true
  | String a s' => is_digit a && all_digits s'
  end.
(** [s] without the digits it ends with. *)
Fixpoint strip_digits (s : string) : string :=
  match s with
  | EmptyString => EmptyString
  | String a s' => if all_digits s then EmptyString else String a (strip_digits s')
  end.

(** Entries of [class_map] minus ids handed out. *)
Definition tally (st : State) : Z :=
  Z.of_nat (size (class_map st)) - class_counter st.

(** The two globals are as they were. *)
Definition same_labels (st st' : State) : Prop :=
  class_map st' = class_map st /\ class_counter st' = class_counter st.

(** [class_map] gained no more entries than ids were handed out. *)
Definition no_excess (st st' : State) : Prop := tally st' <= tally st.

(** Every key of [class_map] was built from one of the image ids [ids]. *)
Definition keys_from (ids : list string) (st : State) : Prop :=
  forall key, is_Some (class_map st !! key) ->
    exists id i, id ∈ ids /\ 0 <= i /\ key = class_key id i.

(** Where no key of [image_id] is taken yet, [class_map] gains one entry
    per id handed out, each under a key of [image_id]. *)
Definition labels_step (image_id : string) (st st' : State) : Prop :=
  (forall j, 0 <= j -> class_map st !! class_key image_id j = None) ->
  tally st' = tally st /\
  forall key, is_Some (class_map st' !! key) ->
    is_Some (class_map st !! key) \/
    exists j, 0 <= j /\ key = class_key image_id j.

(** At most [n] images were copied by the operations added. *)
Definition copies_le (n : nat) (st st' : State) : Prop :=
  exists evs,
    trace st' = trace st ++ evs /\ (length (copies_of evs) <= n)%nat.

(** *** Outcome, footprint and content of a run *)

(** The five directories the script writes into. *)
Definition output_dirs : list string :=
  [train_images_dir; val_images_dir; train_labels_dir; val_labels_dir;
   unknown_objects_dir].

(** No file was removed, and a file that is not as it was lies in one of
    the directories [dirs]. *)
Definition writes_within (dirs : list string) (st st' : State) : Prop :=
  forall p,
    fs st' !! p = fs st !! p \/
    (is_Some (fs st' !! p) /\
     exists d name, d ∈ dirs /\ p = Py.path_join d name).

(** [cv2.imread] decodes the file [image_file] of [image_dir]. *)
Definition decodes (st : State) (image_file : string) : bool :=
  match fs st !! Py.path_join image_dir image_file with
  | Some (ImageFile m) => negb (mat_empty m)
  | _ => false
  end.

(** The ids recorded in [class_map] are ids handed out, each under one
    key only. *)
Definition ids_apart (st : State) : Prop :=
  0 <= class_counter st /\
  (forall key v, class_map st !! key = Some v -> 0 <= v < class_counter st) /\
  (forall k1 k2 v,
     class_map st !! k1 = Some v -> class_map st !! k2 = Some v -> k1 = k2).

(** The operations [process_image] performs for [image_file], each
    keeping the relation [R]. *)
Definition primitives_keep `{cv : Cv2} (R : State -> State -> Prop)
    (images_dir labels_dir image_file : string) : Prop :=
  let image_id := fst (Py.splitext image_file) in
  let file := Py.path_join labels_dir (image_id +:+ ".txt") in
  (forall j img, 0 <= j ->
     preserves R (imwrite (Py.path_join unknown_objects_dir
                                        (cropped_name image_id j)) img)) /\
  preserves R (shutil_copy (Py.path_join image_dir image_file) images_dir) /\
  preserves R (open_w file) /\
  (forall line, preserves R (f_write file line)) /\
  (forall j, 0 <= j -> preserves R (assign_class_id (class_key image_id j))).

(** [ids_apart] is kept from one state to the next. *)
Definition keeps_ids_apart (st st' : State) : Prop :=
  ids_apart st -> ids_apart st'.

(** The character [c] occurs in [s]. *)
Fixpoint occurs (c : Ascii.ascii) (s : string) : bool :=
  match s with
  | EmptyString => false
  | String a s' => Ascii.eqb a c || occurs c s'
  end.

(** The file at [p], or the entry of [class_map] under [key], is as it
    was. *)
Definition file_kept (p : string) (st st' : State) : Prop :=
  fs st' !! p = fs st !! p.


(** The extensions the enumerator accepts. *)
Definition extensions : list string := [".png"; ".jpg"; ".jpeg"].

(** Every row of the array has the width of the first, as in a [numpy]
    array. *)
Definition rectangular (image : Mat) : Prop :=
  Forall (fun row => Z.of_nat (length row) = mat_width image) image.

(** [image[i][j]] for indices within the array. *)
Definition pixel_at (image : Mat) (i j : nat) : option Pixel :=
  image !! i ≫= fun row => row !! j.

(** The regions [detect_objects] finds in the file [image_file] of
    [image_dir]; none when the file does not decode. *)
Definition regions `{cv : Cv2} (st : State) (image_file : string)
    : list Rect :=
  match fs st !! Py.path_join image_dir image_file with
  | Some (ImageFile m) =>
    if mat_empty m then [] else filter_contours (find_contours m) []
  | _ => []
  end.

(** [p] is none of the files [process_image] writes for [image_file]. *)
Definition outside (p images_dir labels_dir image_file : string) : Prop :=
  (forall j, 0 <= j ->
     p <> Py.path_join unknown_objects_dir
            (cropped_name (fst (Py.splitext image_file)) j)) /\
  p <> Py.path_join images_dir
         (Py.basename (Py.path_join image_dir image_file)) /\
  p <> Py.path_join labels_dir (fst (Py.splitext image_file) +:+ ".txt").





(** ** A small corpus to run the script on *)

(** An image filled with one pixel value. *)
Definition blank (h w : nat) (p : Pixel) : Mat := replicate h (replicate w p).

(** A stand-in for OpenCV on such images: the top-left pixel [(n, w, h)]
    yields [n] contours, each bounded by [(0, 0, w, h)]; a file is written
    when its name has at most 255 bytes. *)
Definition toy_cv : Cv2 := {|
  Contour := Rect;
  find_contours := fun img =>
    match img with
    | ((n, w, h) :: _) :: _ => replicate (Z.to_nat n) (0, 0, w, h)
    | _ => []
    end;
  boundingRect := fun c => c;
  imwrite_ok := fun path _ => (String.length (Py.basename path) <=? 255)%nat
|}.

Definition img_regions (n : Z) : Mat := blank 32 32 (n, 30, 30).
Definition img_small : Mat := blank 32 32 (1, 15, 15).

Definition in_image_dir (files : list (string * Content))
    : gmap string Content :=
  list_to_map (map (fun nc => (Py.path_join image_dir (fst nc), snd nc)) files).

(** Two images that differ only in their extension, one region each. *)
Definition same_stem_dir : gmap string Content :=
  in_image_dir [("a.png", ImageFile (img_regions 1));
                ("a.jpg", ImageFile (img_regions 1))].

(** Two images with distinct names, two regions and one region. *)
Definition two_images_dir : gmap string Content :=
  in_image_dir [("a.png", ImageFile (img_regions 2));
                ("b.png", ImageFile (img_regions 1))].

(** An image whose only contour is 15 by 15, and a file that is no image. *)
Definition odd_dir : gmap string Content :=
  in_image_dir [("s.png", ImageFile img_small); ("t.png", OtherFile)].


(** Three images of which the first two, both in the training part,
    differ only in their extension: two regions and one region. *)
Definition shared_stem_dir : gmap string Content :=
  in_image_dir [("a.png", ImageFile (img_regions 2));
                ("a.jpg", ImageFile (img_regions 1));
                ("b.png", ImageFile (img_regions 1))].

(** An image with one region whose name is 249 bytes long, so that the
    name of its crop has 258. *)
Definition long_name : string := Nat.iter 245 (String "n"%char) ".png".
Definition long_name_dir : gmap string Content :=
  in_image_dir [(long_name, ImageFile (img_regions 1))].

(** ** detect.py: the first image on which the trained model detects *)

Module Detect.

(** [c.lower()] and [s.lower()] on ASCII letters; other bytes are kept.
    The script only tests the result against ASCII suffixes. *)
Definition lower_char (c : Ascii.ascii) : Ascii.ascii :=
  let n := N_of_ascii c in
  if (65 <=? n)%N && (n <=? 90)%N then ascii_of_N (n + 32) else c.
Fixpoint lower (s : string) : string :=
  match s with
  | EmptyString => EmptyString
  | String c s' => String (lower_char c) (lower s')
  end.

(** [os.path.join(a, b)] *)
Definition os_path_join (a b : string) : string :=
  if String.prefix "/" b then b
  else if String.eqb a EmptyString || Py.endswith a "/" then a +:+ b
  else a +:+ "/" +:+ b.

Definition images_path : string := "/content/sample_data/images/".

Definition suffixes : list string :=
  [".png"; ".jpg"; ".jpeg"; ".bmp"; ".tiff"; ".gif"].

(** The trained model, which the script only calls: [predict path] stands
    for [model.predict(source=path, save=False, conf=0.25)], a list of
    results, or [None] when the call raises; [boxes r] for
    [len(r.boxes)]. *)
Class Yolo := {
  Results : Type;
  predict : string -> option (list Results);
  boxes : Results -> nat
}.

Inductive Printed `{Yolo} :=
| Text (s : string)                        (* print(s) *)
| Shown (results : list Results).          (* print(results) *)

Inductive Failure :=
| PredictError                             (* raised by model.predict *)
| IndexError.                              (* results[0] on an empty list *)

(** What a run did: the paths given to the model, in order, what it
    printed, and the exception that ended it, if any. *)
Record Run `{Yolo} := {
  calls : list string;
  printed : list Printed;
  failure : option Failure
}.

Section Script.
Context {yolo : Yolo}.

(** The [for ... else] loop over [os.listdir(images_path)], with the
    calls made so far. *)
Fixpoint scan (listing : list string) (called : list string) : Run :=
  match listing with
  | [] =>
    {| calls := called;
       printed := [Text "No icons detected in any of the images."];
       failure := None |}
  | image_file :: rest =>
    let image_path := os_path_join images_path image_file in
    if negb (Py.endswith_any (lower image_file) suffixes)
    then scan rest called                                    (* continue *)
    else
      match predict image_path with
      | None =>
        {| calls := called ++ [image_path]; printed := [];
           failure := Some PredictError |}
      | Some results =>
        match results with
        | [] =>
          {| calls := called ++ [image_path]; printed := [];
             failure := Some IndexError |}
        | first :: _ =>
          if (0 <? boxes first)%nat
          then {| calls := called ++ [image_path];
                  printed := [Text ("Detection found in: " +:+ image_file);
                              Shown results];
                  failure := None |}                          (* break *)
          else scan rest (called ++ [image_path])
        end
      end
  end.

Definition detect (listing : list string) : Run := scan listing [].

(** The names the loop does not skip. *)
Definition candidates (listing : list string) : list string :=
  List.filter (fun f => Py.endswith_any (lower f) suffixes) listing.

(** The model finds nothing in the image: the loop goes on. *)
Definition misses (image_file : string) : bool :=
  match predict (os_path_join images_path image_file) with
  | Some (first :: _) => negb (0 <? boxes first)%nat
  | _ => false
  end.

(** What ends the loop at an image that is not a miss: what is printed
    and the exception raised. *)
Definition ending (image_file : string)
    : list Printed * option Failure :=
  match predict (os_path_join images_path image_file) with
  | None => ([], Some PredictError)
  | Some [] => ([], Some IndexError)
  | Some results =>
    ([Text ("Detection found in: " +:+ image_file); Shown results], None)
  end.

End Script.
End Detect.

(** A stand-in for the trained model: it finds two boxes in [b.png], one
    in [C.JPG], and none elsewhere. *)
Definition toy_yolo : Detect.Yolo := {|
  Detect.Results := nat;
  Detect.predict := fun path =>
    if String.eqb path "/content/sample_data/images/b.png" then Some [2%nat]
    else if String.eqb path "/content/sample_data/images/C.JPG"
         then Some [1%nat]
         else Some [0%nat];
  Detect.boxes := fun r => r
|}.

(** ** youtube.py: channel category and channel analytics *)

Module YouTube.

(** A value decoded from JSON.  A Python [str] is modelled by its UTF-8
    bytes. *)
#[warnings="-register-all"] Inductive Json :=
| JNull
| JBool (b : bool)
| JNum (x : Q)
| JStr (s : string)
| JList (l : list Json)
| JObj (fields : gmap string Json).

Inductive Error :=
| KeyError            (* d[key], key missing *)
| TypeError           (* subscripting what is no dict with a string *)
| AttributeError      (* a method the value does not have *)
| IndexError          (* l[0] on an empty sequence *)
| ZeroDivisionError
| OverflowError       (* int / int beyond the range of float *)
| ValueError.         (* raised by the service itself *)

Inductive Result (A : Type) :=
| Return (a : A)
| Raises (e : Error).
Arguments Return {A} a.
Arguments Raises {A} e.

Definition and_then {A B} (r : Result A) (k : A -> Result B) : Result B :=
  match r with
  | Return a => k a
  | Raises e => Raises e
  end.

Notation "'let!' x ':=' r 'in' k" := (and_then r (fun x => k))
  (at level 10, x pattern, r at level 100, k at level 200).

(** [obj[key]] for a string [key] *)
Definition subscript (obj : Json) (key : string) : Result Json :=
  match obj with
  | JObj fields =>
    match fields !! key with
    | Some v => Return v
    | None => Raises KeyError
    end
  | _ => Raises TypeError
  end.

(** [obj.get(key, default)] *)
Definition get (obj : Json) (key : string) (default : Json) : Result Json :=
  match obj with
  | JObj fields =>
    match fields !! key with
    | Some v => Return v
    | None => Return default
    end
  | _ => Raises AttributeError
  end.

(** [str.lower], which follows the Unicode tables. *)
Class Unicode := { str_lower : string -> string }.

(** [value.lower()] *)
Definition lower `{Unicode} (value : Json) : Result string :=
  match value with
  | JStr s => Return (str_lower s)
  | _ => Raises AttributeError
  end.

(** [sub in s] on strings *)
Fixpoint contains (s sub : string) : bool :=
  String.prefix sub s ||
  match s with
  | EmptyString => false
  | String _ s' => contains s' sub
  end.

(** The members of [InfluencerCategory] the service uses. *)
Inductive InfluencerCategory :=
| BEAUTY | FASHION | FITNESS | FOOD | GAMING | TRAVEL | TECH | EDUCATION
| ENTERTAINMENT | BUSINESS | LIFESTYLE.

(** The dictionary [category_keywords], in the order it is written,
    which is the order [items()] yields it in. *)
Definition category_keywords : list (InfluencerCategory * list string) :=
  [(BEAUTY, ["beauty"; "makeup"; "skincare"; "cosmetics"]);
   (FASHION, ["fashion"; "style"; "clothing"; "outfit"]);
   (FITNESS, ["fitness"; "workout"; "gym"; "exercise"; "health"]);
   (FOOD, ["food"; "cooking"; "recipe"; "chef"; "cuisine"]);
   (GAMING, ["gaming"; "game"; "playthrough"; "streamer"]);
   (TRAVEL, ["travel"; "adventure"; "destination"; "tourism"]);
   (TECH, ["tech"; "technology"; "gadget"; "review"; "unboxing"]);
   (EDUCATION, ["education"; "tutorial"; "learn"; "course"]);
   (ENTERTAINMENT, ["entertainment"; "comedy"; "funny"; "prank"]);
   (BUSINESS, ["business"; "entrepreneur"; "startup"; "finance"])].

(** [sum(1 for keyword in keywords if keyword in all_text)] *)
Definition count_matches (keywords : list string) (all_text : string) : nat :=
  length (List.filter (fun keyword => contains all_text keyword) keywords).

(** The loop over [category_keywords.items()]. *)
Fixpoint best_of (table : list (InfluencerCategory * list string))
    (all_text : string) (best_category : InfluencerCategory)
    (max_matches : nat) : InfluencerCategory :=
  match table with
  | [] => best_category
  | (category, keywords) :: rest =>
    let matches := count_matches keywords all_text in
    if (max_matches <? matches)%nat
    then best_of rest all_text category matches
    else best_of rest all_text best_category max_matches
  end.

Definition determine_channel_category `{Unicode} (channel_data : Json)
    : Result InfluencerCategory :=
  let! snippet := subscript channel_data "snippet" in
  let! title_value := subscript snippet "title" in
  let! title := lower title_value in
  let! snippet := subscript channel_data "snippet" in
  let! description_value := get snippet "description" (JStr EmptyString) in
  let! description := lower description_value in
  let all_text := title +:+ " " +:+ description in
  Return (best_of category_keywords all_text LIFESTYLE 0).

(** *** The authorization URL *)

(** [s == v] for a string and a decoded value. *)
Definition str_eq (s : string) (v : Json) : bool :=
  match v with
  | JStr t => String.eqb s t
  | _ => false
  end.

(** [s in container] for a string [s] *)
Definition str_in (s : string) (container : Json) : Result bool :=
  match container with
  | JList l => Return (existsb (str_eq s) l)
  | JStr t => Return (contains t s)
  | JObj fields => Return (bool_decide (is_Some (fields !! s)))
  | _ => Raises TypeError
  end.

(** The number of bytes of the UTF-8 character that starts with [c]. *)
Definition utf8_width (c : Ascii.ascii) : nat :=
  let n := N_of_ascii c in
  if (n <? 128)%N then 1%nat
  else if (n <? 224)%N then 2%nat
  else if (n <? 240)%N then 3%nat
  else 4%nat.

(** [sequence[0]]: the first item of a list, the first character of a
    string; a dictionary decoded from JSON has no key [0]. *)
Definition first_item (sequence : Json) : Result Json :=
  match sequence with
  | JList [] => Raises IndexError
  | JList (v :: _) => Return v
  | JStr EmptyString => Raises IndexError
  | JStr (String c s) =>
    Return (JStr (String.substring 0 (utf8_width c) (String c s)))
  | JObj _ => Raises KeyError
  | _ => Raises TypeError
  end.

(** The OAuth library, which the service only calls:
    [authorization_url client_config redirect_uri] stands for the pair
    [flow.authorization_url(...)] returns for the flow made from
    [client_config] with [flow.redirect_uri = redirect_uri]. *)
Class OAuth := {
  authorization_url : Json -> Json -> Result (string * string)
}.

(** [redirect_uri] is [None] or a string; both [None] and the empty
    string count as false. *)
Definition truthy (redirect_uri : option string) : bool :=
  match redirect_uri with
  | Some (String _ _) => true
  | _ => false
  end.

Definition get_authorization_url `{OAuth} (config : Json)
    (redirect_uri : option string) : Result (string * string) :=
  let! client_config := subscript config "client_config" in
  let! _ :=
    if truthy redirect_uri
    then let! redirect_uris := subscript client_config "redirect_uris" in
         let! allowed := str_in (default EmptyString redirect_uri)
                                redirect_uris in
         if negb allowed then Raises ValueError else Return tt
    else Return tt in
  let! flow_redirect_uri :=
    if truthy redirect_uri
    then Return (JStr (default EmptyString redirect_uri))
    else let! redirect_uris := subscript client_config "redirect_uris" in
         first_item redirect_uris in
  authorization_url client_config flow_redirect_uri.

(** *** Channel analytics *)

(** A [float] that is no NaN: a binary64 number or an infinity. *)
Inductive Float64 :=
| Finite (x : Q)
| Infinity (negative : bool).

(** The binary64 number nearest to [q] would be [2^1024] or beyond: [q]
    is too large for a [float]. *)
Definition too_large (q : Q) : bool :=
  Qle_bool (Float.pow2 1024) (Qabs (Float.rnd q)).

(** [a / b] on two [int]s: the correctly rounded quotient, and an
    [OverflowError] when it is too large for a [float]. *)
Definition int_truediv (a b : Z) : Result Q :=
  if b =? 0 then Raises ZeroDivisionError
  else
    let q := (inject_Z a / inject_Z b)%Q in
    if too_large q then Raises OverflowError else Return (Float.rnd q).

(** [a * b] on two [float]s: a product too large is an infinity, not an
    exception. *)
Definition float_mul (a b : Q) : Float64 :=
  let q := (a * b)%Q in
  if too_large q then Infinity (negb (Qle_bool 0 q)) else Finite (Float.rnd q).

(** [sorted(l, key=..., reverse=True)], given the test [lt x y] that the
    key of [x] is less than the key of [y]: decreasing keys, elements
    with equal keys in the order they had. *)
Fixpoint insert_desc {A} (lt : A -> A -> bool) (x : A) (l : list A) : list A :=
  match l with
  | [] => [x]
  | y :: l' => if lt x y then y :: insert_desc lt x l' else x :: l
  end.
Definition sorted_desc {A} (lt : A -> A -> bool) (l : list A) : list A :=
  foldr (insert_desc lt) [] l.

(** The keys [sorted] computes before it compares any: one call of [key]
    per element, in the order of the list, the first exception ending
    the call. *)
Fixpoint with_keys {A} (key : A -> Result Q) (l : list A)
    : Result (list (A * Q)) :=
  match l with
  | [] => Return []
  | x :: l' =>
    let! k := key x in
    let! rest := with_keys key l' in
    Return ((x, k) :: rest)
  end.

(** [sorted(l, key=key, reverse=True)] for a key that is a [float] and
    may raise. *)
Definition key_lt {A} (a b : A * Q) : bool := negb (Qle_bool (snd b) (snd a)).
Definition sorted_by_key_desc {A} (key : A -> Result Q) (l : list A)
    : Result (list A) :=
  let! keyed := with_keys key l in
  Return (map fst (sorted_desc key_lt keyed)).

(** One entry of the list [get_recent_videos] returns. *)
Record Video := {
  video_id : string;
  title : string;
  description : string;
  published_at : string;
  thumbnail_url : string;
  view_count : Z;
  like_count : Z;
  comment_count : Z
}.

(** The members of [AccountStatus] the service tests. *)
Inductive AccountStatus := CONNECTED | DISCONNECTED | OTHER_STATUS.

(** The columns of [InfluencerSocialAccount] read here. *)
Record Account := {
  account_status : AccountStatus;
  followers_count : Z;
  platform_data : Json
}.

Record Analytics := {
  total_subscribers : Z;
  total_videos : Json;
  total_views : Json;
  videos_analyzed : nat;
  avg_views : Q;
  avg_likes : Q;
  avg_comments : Q;
  engagement_rate : Float64;
  top_videos_by_views : list Video;
  top_videos_by_engagement : list Video
}.

Definition sum_of (f : Video -> Z) (videos : list Video) : Z :=
  foldr Z.add 0 (map f videos).

(** [total / len(recent_videos) if recent_videos else 0] *)
Definition average (total : Z) (recent_videos : list Video) : Result Q :=
  match recent_videos with
  | [] => Return 0%Q
  | _ :: _ => int_truediv total (Z.of_nat (length recent_videos))
  end.

(** The key of [videos_by_engagement],
    [(x["like_count"] + x["comment_count"]) / max(x["view_count"], 1)]. *)
Definition engagement_key (x : Video) : Result Q :=
  int_truediv (like_count x + comment_count x) (Z.max (view_count x) 1).

(** [key(x) < key(y)] for the key of [videos_by_views]. *)
Definition views_lt (x y : Video) : bool := view_count x <? view_count y.

(** [get_channel_analytics], given the account the repository returns
    ([None] when there is none) and the outcome of [get_recent_videos]. *)
Definition get_channel_analytics (account : option Account)
    (get_recent_videos : Result (list Video)) : Result Analytics :=
  match account with
  | None => Raises ValueError
  | Some account =>
    match account_status account with
    | CONNECTED =>
      let! recent_videos := get_recent_videos in
      let total_views := sum_of view_count recent_videos in
      let total_likes := sum_of like_count recent_videos in
      let total_comments := sum_of comment_count recent_videos in
      let! avg_views := average total_views recent_videos in
      let! avg_likes := average total_likes recent_videos in
      let! avg_comments := average total_comments recent_videos in
      let! engagement_rate :=
        if 0 <? total_views
        then let! ratio := int_truediv (total_likes + total_comments)
                                       total_views in
             Return (float_mul ratio 100)          (* float(100) is 100 *)
        else Return (Finite 0) in
      let videos_by_views := sorted_desc views_lt recent_videos in
      let! videos_by_engagement :=
        sorted_by_key_desc engagement_key recent_videos in
      let! video_count := get (platform_data account) "video_count"
                              (JNum 0) in
      let! view_count := get (platform_data account) "view_count"
                             (JNum 0) in
      Return {| total_subscribers := followers_count account;
                total_videos := video_count;
                total_views := view_count;
                videos_analyzed := length recent_videos;
                avg_views := avg_views;
                avg_likes := avg_likes;
                avg_comments := avg_comments;
                engagement_rate := engagement_rate;
                top_videos_by_views := Py.slice_to videos_by_views 5;
                top_videos_by_engagement :=
                  Py.slice_to videos_by_engagement 5 |}
    | _ => Raises ValueError
    end
  end.

(** The counts of the videos add up, in absolute value, to less than
    [2^1000]; a [float] holds numbers up to about [2^1024]. *)
Definition counts_bounded (videos : list Video) : Prop :=
  sum_of (fun x => Z.abs (view_count x) + Z.abs (like_count x)
                   + Z.abs (comment_count x)) videos < 2 ^ 1000.

(** The engagement key of [x] is the number [q]. *)
Definition has_engagement (q : Q) (x : Video) : bool :=
  match engagement_key x with
  | Return k => Qeq_bool k q
  | Raises _ => false
  end.

End YouTube.

(** A stand-in for [str.lower]: the lower case of ASCII letters. *)
Definition ascii_unicode : YouTube.Unicode :=
  {| YouTube.str_lower := Detect.lower |}.

(** Three videos, the first and the last with as many views. *)
Definition video (id : string) (views likes comments : Z) : YouTube.Video :=
  {| YouTube.video_id := id; YouTube.title := id;
     YouTube.description := EmptyString;
     YouTube.published_at := EmptyString;
     YouTube.thumbnail_url := EmptyString;
     YouTube.view_count := views; YouTube.like_count := likes;
     YouTube.comment_count := comments |}.
Definition three_videos : list YouTube.Video :=
  [video "v1" 10 1 0; video "v2" 30 0 0; video "v3" 10 5 5].

Definition connected_account : YouTube.Account :=
  {| YouTube.account_status := YouTube.CONNECTED;
     YouTube.followers_count := 7;
     YouTube.platform_data := YouTube.JObj ∅ |}.

(** Channel data with a title and no description. *)
Definition cooking_snippet : gmap string YouTube.Json :=
  {["title" := YouTube.JStr "Game Recipes: COOKING"]}.
Definition cooking_channel : gmap string YouTube.Json :=
  {["snippet" := YouTube.JObj cooking_snippet]}.

(** A stand-in for the OAuth library: the URL names the redirect URI it
    was given. *)
Definition toy_oauth : YouTube.OAuth := {|
  YouTube.authorization_url := fun _ redirect_uri =>
    match redirect_uri with
    | YouTube.JStr uri =>
      YouTube.Return ("https://accounts.example/auth?redirect_uri=" +:+ uri,
                      "state")
    | _ => YouTube.Raises YouTube.ValueError
    end
|}.

Definition client_config : gmap string YouTube.Json :=
  {["redirect_uris" :=
      YouTube.JList [YouTube.JStr "https://app.example/callback";
                     YouTube.JStr "https://app.example/alt"]]}.
Definition service_config : YouTube.Json :=
  YouTube.JObj {["client_config" := YouTube.JObj client_config]}.

(** ** Checks of the model on concrete values *)

Example rnd_08 : Float.rnd (8 # 10) = (3602879701896397 # 4503599627370496)%Q.
Proof. vm_compute. reflexivity. Qed.

Example splitext_png : Py.splitext "cat.7.png" = ("cat.7", ".png").
Proof. reflexivity. Qed.
Example splitext_dots : Py.splitext "..png" = ("..png", EmptyString).
Proof. reflexivity. Qed.
Example splitext_dir : Py.splitext "a.b/c" = ("a.b/c", EmptyString).
Proof. reflexivity. Qed.
Example basename_ex : Py.basename "/content/x/a.png" = "a.png".
Proof. reflexivity. Qed.
Example endswith_ex : Py.endswith_any "a.jpeg" [".png"; ".jpg"; ".jpeg"] = true.
Proof. reflexivity. Qed.
Example slice_ex : Py.slice [1; 2; 3; 4; 5] 1 (-1) = [2; 3; 4].
Proof. reflexivity. Qed.

(** A quotient of integers beyond the largest [float], one below the
    smallest, and a channel with such a count. *)
Example int_truediv_too_large :
  YouTube.int_truediv (10 ^ 400) 1 = YouTube.Raises YouTube.OverflowError.
Proof. vm_compute. reflexivity. Qed.
Example int_truediv_largest :
  YouTube.int_truediv (2 ^ 1024 - 2 ^ 971) 1
  = YouTube.Return (inject_Z (2 ^ 1024 - 2 ^ 971)).
Proof. vm_compute. reflexivity. Qed.
Example int_truediv_tiny :
  YouTube.int_truediv 1 (10 ^ 400) = YouTube.Return 0%Q.
Proof. vm_compute. reflexivity. Qed.
Example float_mul_infinity :
  YouTube.float_mul (inject_Z (2 ^ 1020)) 100 = YouTube.Infinity false.
Proof. vm_compute. reflexivity. Qed.
Example analytics_too_large :
  YouTube.get_channel_analytics (Some connected_account)
    (YouTube.Return [video "v" (10 ^ 400) 0 0])
  = YouTube.Raises YouTube.OverflowError.
Proof. vm_compute. reflexivity. Qed.

(** ** Facts about binary64 rounding *)

Module FloatFacts.
Import Float.
Local Open Scope Q_scope.

Lemma pow2_pos e : 0 < pow2 e.
Proof. unfold pow2. apply Qpower_0_lt. reflexivity. Qed.

Lemma pow2_add a b : pow2 (a + b) == pow2 a * pow2 b.
Proof. unfold pow2. apply Qpower_plus. discriminate. Qed.

Lemma pow2_nonneg_Z e : (0 <= e)%Z -> pow2 e == inject_Z (2 ^ e).
Proof. intros He. unfold pow2. rewrite Zpower_Qpower by exact He. reflexivity. Qed.

Lemma pow2_le a b : (a <= b)%Z -> pow2 a <= pow2 b.
Proof.
  intros Hab. unfold pow2. apply Qpower_le_compat_l; [exact Hab | discriminate].
Qed.

Lemma pow2_lt_inv a b : pow2 a < pow2 b -> (a < b)%Z.
Proof.
  intros H. destruct (Z_lt_le_dec a b) as [Hlt | Hle]; [exact Hlt |].
  apply pow2_le in Hle. lra.
Qed.

Lemma round_ne_le t N : t <= inject_Z N -> (round_ne t <= N)%Z.
Proof.
  intros Ht. unfold round_ne.
  pose proof (Qfloor_le t) as Hfl.
  assert (Hf : (Qfloor t <= N)%Z).
  { rewrite <- (Qfloor_Z N). apply Qfloor_resp_le, Ht. }
  assert (Hup : inject_Z (Qfloor t) < t -> (Qfloor t + 1 <= N)%Z).
  { intros Hlt. assert (Hq : inject_Z (Qfloor t) < inject_Z N) by lra.
    rewrite <- Zlt_Qlt in Hq. lia. }
  destruct (Qcompare (t - inject_Z (Qfloor t)) (1 # 2)) eqn:Hc.
  - apply Qeq_alt in Hc. destruct (Z.even (Qfloor t)); [exact Hf |].
    apply Hup. lra.
  - exact Hf.
  - apply Qgt_alt in Hc. apply Hup. lra.
Qed.

Lemma round_ne_ge t N : inject_Z N <= t -> (N <= round_ne t)%Z.
Proof.
  intros Ht. unfold round_ne.
  assert (Hf : (N <= Qfloor t)%Z).
  { rewrite <- (Qfloor_Z N). apply Qfloor_resp_le, Ht. }
  destruct (Qcompare (t - inject_Z (Qfloor t)) (1 # 2));
    [destruct (Z.even (Qfloor t)) | |]; lia.
Qed.

Lemma ilog2_lower q : 0 < q -> pow2 (ilog2 q) <= q.
Proof.
  intros Hq. unfold ilog2.
  destruct (Qle_bool (pow2 (Z.log2 (Qnum q) - Z.log2 (Z.pos (Qden q)))) q)
    eqn:Hb.
  { apply Qle_bool_iff, Hb. }
  clear Hb. destruct q as [n d]. cbn [Qnum Qden].
  assert (Hn : (0 < n)%Z).
  { unfold Qlt in Hq. cbn in Hq. lia. }
  pose proof (Z.log2_spec n Hn) as [Ha _].
  pose proof (Z.log2_spec (Z.pos d) (Pos2Z.is_pos d)) as [_ Hd].
  pose proof (Z.log2_nonneg n) as Ha0.
  pose proof (Z.log2_nonneg (Z.pos d)) as Hb0.
  set (a := Z.log2 n) in *. set (b := Z.log2 (Z.pos d)) in *.
  replace (a - b - 1)%Z with (a + - (Z.succ b))%Z by lia.
  rewrite pow2_add. unfold pow2 at 2. rewrite Qpower_opp.
  fold (pow2 (Z.succ b)).
  rewrite !pow2_nonneg_Z by lia.
  rewrite (Qmake_Qdiv n d).
  assert (HA : inject_Z (2 ^ a) <= inject_Z n) by (rewrite <- Zle_Qle; exact Ha).
  assert (HD : inject_Z (Z.pos d) <= inject_Z (2 ^ Z.succ b))
    by (rewrite <- Zle_Qle; lia).
  assert (HA0 : 0 < inject_Z (2 ^ a)).
  { change 0 with (inject_Z 0). rewrite <- Zlt_Qlt. lia. }
  assert (HD0 : 0 < inject_Z (Z.pos d)).
  { change 0 with (inject_Z 0). rewrite <- Zlt_Qlt. lia. }
  set (A := inject_Z (2 ^ a)) in *. set (B := inject_Z (2 ^ Z.succ b)) in *.
  set (N := inject_Z n) in *. set (D := inject_Z (Z.pos d)) in *.
  apply Qle_shift_div_l; [exact HD0 |].
  assert (E : A * / B * D == A * D / B) by (field; lra).
  rewrite E.
  apply Qle_shift_div_r; [lra |].
  nra.
Qed.

Lemma fexp_le q K :
  ~ q == 0 -> Qabs q < pow2 K -> (fexp q <= Z.max (K - 53) (-1074))%Z.
Proof.
  intros Hq0 Hlt. unfold fexp.
  assert (Hpos : 0 < Qabs q).
  { pose proof (Qabs_nonneg q) as H0.
    destruct (Qlt_le_dec 0 (Qabs q)) as [H | H]; [exact H |].
    exfalso. apply Hq0.
    assert (Hz : Qabs q <= 0) by exact H.
    apply Qabs_Qle_condition in Hz. lra. }
  pose proof (ilog2_lower _ Hpos) as Hlow.
  assert (Hi : (ilog2 (Qabs q) < K)%Z) by (apply pow2_lt_inv; lra).
  lia.
Qed.

Lemma rnd_unfold q :
  ~ q == 0 ->
  rnd q == inject_Z (round_ne (q / pow2 (fexp q))) * pow2 (fexp q).
Proof.
  intros Hq. unfold rnd.
  destruct (Qeq_bool q 0) eqn:Hb.
  - apply Qeq_bool_iff in Hb. contradiction.
  - apply Qred_correct.
Qed.

Lemma rnd_zero q : q == 0 -> rnd q = 0.
Proof.
  intros Hq. unfold rnd. apply Qeq_bool_iff in Hq. rewrite Hq. reflexivity.
Qed.

(** A bound [B = k * 2^j] is a multiple of the unit in the last place of
    any [q] below [2^(j+53)]. *)
Lemma on_grid q k j :
  ~ q == 0 -> (-1074 <= j)%Z -> Qabs q < pow2 (j + 53) ->
  inject_Z k * pow2 j
  == inject_Z (k * 2 ^ (j - fexp q)) * pow2 (fexp q).
Proof.
  intros Hq Hj Hlt.
  pose proof (fexp_le q (j + 53) Hq Hlt) as Hfe.
  assert (Hd : (0 <= j - fexp q)%Z) by lia.
  rewrite inject_Z_mult, <- pow2_nonneg_Z by exact Hd.
  rewrite <- Qmult_assoc, <- pow2_add.
  replace (j - fexp q + fexp q)%Z with j by lia. reflexivity.
Qed.

Lemma rnd_le_grid q B k j :
  B == inject_Z k * pow2 j -> (-1074 <= j)%Z -> Qabs q < pow2 (j + 53) ->
  q <= B -> rnd q <= B.
Proof.
  intros HB Hj Hlt Hle.
  destruct (Qeq_dec q 0) as [Hz | Hnz].
  { rewrite (rnd_zero q Hz). lra. }
  rewrite (rnd_unfold q Hnz), HB, (on_grid q k j Hnz Hj Hlt).
  pose proof (pow2_pos (fexp q)) as Hu.
  apply Qmult_le_compat_r; [| lra].
  rewrite <- Zle_Qle. apply round_ne_le.
  apply Qle_shift_div_r; [exact Hu |].
  rewrite <- (on_grid q k j Hnz Hj Hlt), <- HB. exact Hle.
Qed.

Lemma rnd_ge_grid q B k j :
  B == inject_Z k * pow2 j -> (-1074 <= j)%Z -> Qabs q < pow2 (j + 53) ->
  B <= q -> B <= rnd q.
Proof.
  intros HB Hj Hlt Hle.
  destruct (Qeq_dec q 0) as [Hz | Hnz].
  { rewrite (rnd_zero q Hz). lra. }
  rewrite (rnd_unfold q Hnz), HB, (on_grid q k j Hnz Hj Hlt).
  pose proof (pow2_pos (fexp q)) as Hu.
  apply Qmult_le_compat_r; [| lra].
  rewrite <- Zle_Qle. apply round_ne_ge.
  apply Qle_shift_div_l; [exact Hu |].
  rewrite <- (on_grid q k j Hnz Hj Hlt), <- HB. exact Hle.
Qed.

(** Numbers with a 53-bit significand are left unchanged. *)
Lemma rnd_exact q k j :
  q == inject_Z k * pow2 j -> (-1074 <= j)%Z -> Qabs q < pow2 (j + 53) ->
  rnd q == q.
Proof.
  intros Hq Hj Hlt. apply Qle_antisym.
  - apply (rnd_le_grid q q k j); [exact Hq | exact Hj | exact Hlt | lra].
  - apply (rnd_ge_grid q q k j); [exact Hq | exact Hj | exact Hlt | lra].
Qed.

Lemma pow2_53 : pow2 53 == 9007199254740992.
Proof. reflexivity. Qed.

Lemma pow2_52 : pow2 52 == 4503599627370496.
Proof. reflexivity. Qed.

(** Integers below [2^53] are binary64 numbers. *)
Lemma rnd_int n :
  0 <= inject_Z n -> inject_Z n < 9007199254740992 ->
  rnd (inject_Z n) == inject_Z n.
Proof.
  intros H0 H1. apply (rnd_exact _ n 0); [| lia |].
  - change (pow2 0) with 1. lra.
  - rewrite Qabs_pos by exact H0. change (0 + 53)%Z with 53%Z.
    rewrite pow2_53. exact H1.
Qed.

(** So are the halves of such integers below [2^52]. *)
Lemma rnd_half q k :
  q == inject_Z k * (1 # 2) -> 0 <= q -> q < 4503599627370496 ->
  rnd q == q.
Proof.
  intros Hq H0 H1. apply (rnd_exact _ k (-1)); [| lia |].
  - change (pow2 (-1)) with (1 # 2). exact Hq.
  - rewrite Qabs_pos by exact H0. change (-1 + 53)%Z with 52%Z.
    rewrite pow2_52. exact H1.
Qed.

(** Rounding keeps a ratio inside the unit interval. *)
Lemma rnd_unit q : 0 <= q -> q <= 1 -> 0 <= rnd q /\ rnd q <= 1.
Proof.
  intros H0 H1. split.
  - apply (rnd_ge_grid q 0 0 0); [| lia | | exact H0].
    + rewrite Qmult_0_l. reflexivity.
    + rewrite Qabs_pos by exact H0.
      apply Qle_lt_trans with 1; [exact H1 |]. reflexivity.
  - apply (rnd_le_grid q 1 1 0); [| lia | | exact H1].
    + reflexivity.
    + rewrite Qabs_pos by exact H0.
      apply Qle_lt_trans with 1; [exact H1 |]. reflexivity.
Qed.

Lemma inject_Z_bounds a b : (a <= b)%Z -> inject_Z a <= inject_Z b.
Proof. intros H. rewrite <- Zle_Qle. exact H. Qed.

Lemma inject_Z_lt a b : (a < b)%Z -> inject_Z a < inject_Z b.
Proof. intros H. rewrite <- Zlt_Qlt. exact H. Qed.

(** [(x + w / 2) / width] stays in the unit interval when the span from
    [x] to [x + w] lies inside [0 .. width]. *)
Lemma center_unit x w width :
  (0 <= x)%Z -> (0 < w)%Z -> (x + w <= width)%Z ->
  (width < 4503599627370496)%Z ->
  exists hw c,
    Py.int_truediv w 2 = Ok hw /\
    Py.float_truediv (Py.float_add (Py.float_of_int x) hw)
                     (Py.float_of_int width) = Ok c /\
    0 <= c /\ c <= 1.
Proof.
  intros Hx Hw Hxw Hwd.
  apply inject_Z_bounds in Hx as HX. apply inject_Z_lt in Hw as HW.
  apply inject_Z_bounds in Hxw as HXW. apply inject_Z_lt in Hwd as HWD.
  rewrite inject_Z_plus in HXW.
  change (inject_Z 0) with 0 in *.
  change (inject_Z 4503599627370496) with 4503599627370496 in *.
  unfold Py.int_truediv. cbn [Z.eqb].
  eexists _, _. split; [reflexivity |].
  unfold Py.float_truediv, Py.float_add, Py.float_of_int.
  change (inject_Z 2) with 2.
  assert (EX : rnd (inject_Z x) == inject_Z x) by (apply rnd_int; lra).
  assert (ED : rnd (inject_Z width) == inject_Z width)
    by (apply rnd_int; lra).
  assert (HH : inject_Z w / 2 == inject_Z w * (1 # 2)) by field.
  assert (EH : rnd (inject_Z w / 2) == inject_Z w / 2).
  { apply (rnd_half _ w); [exact HH | |]; rewrite HH; lra. }
  assert (ES : rnd (rnd (inject_Z x) + rnd (inject_Z w / 2))
               == inject_Z x + inject_Z w / 2).
  { rewrite (rnd_half _ (2 * x + w)); rewrite EX, EH, HH.
    - reflexivity.
    - rewrite inject_Z_plus, inject_Z_mult. change (inject_Z 2) with 2. field.
    - lra.
    - lra. }
  destruct (Qeq_bool (rnd (inject_Z width)) 0) eqn:Hz.
  { apply Qeq_bool_iff in Hz. lra. }
  split; [reflexivity |].
  apply rnd_unit; rewrite ES, ED, HH.
  - apply Qle_shift_div_l; lra.
  - apply Qle_shift_div_r; lra.
Qed.

(** [w / width] stays in the unit interval when [0 < w <= width]. *)
Lemma extent_unit w width :
  (0 < w)%Z -> (w <= width)%Z ->
  exists c, Py.int_truediv w width = Ok c /\ 0 <= c /\ c <= 1.
Proof.
  intros Hw Hwd.
  apply inject_Z_lt in Hw as HW. apply inject_Z_bounds in Hwd as HWD.
  change (inject_Z 0) with 0 in *.
  unfold Py.int_truediv.
  destruct (Z.eqb_spec width 0) as [E | _]; [lia |].
  eexists. split; [reflexivity |].
  apply rnd_unit.
  - apply Qle_shift_div_l; lra.
  - apply Qle_shift_div_r; lra.
Qed.

(** [int(x)] is the floor of a non-negative [x]. *)
Lemma int_of_float_floor r k :
  (0 <= k)%Z -> inject_Z k <= r -> r < inject_Z (k + 1) ->
  Py.int_of_float r = k.
Proof.
  intros Hk Hlo Hhi. unfold Py.int_of_float.
  destruct r as [n d]. unfold Qle, Qlt in *. cbn in *.
  rewrite Z.quot_div_nonneg by lia.
  symmetry. apply Z.div_unique with (r := (n - Z.pos d * k)%Z); lia.
Qed.

(** The product [float(n) * 0.8], truncated, is [floor(4n/5)]: the double
    nearest to 0.8 exceeds it by [2^-52 / 5], too little to reach the next
    integer for any length a list can have. *)
Lemma int_mul_split_ratio n :
  (0 <= n)%Z -> (n < 2 ^ 50)%Z ->
  Py.int_of_float (Py.float_mul (Py.float_of_int n) split_ratio)
  = (4 * n / 5)%Z.
Proof.
  intros Hn0 Hn1.
  pose proof (Z.div_mod (4 * n) 5 ltac:(lia)) as Hdm.
  pose proof (Z.mod_pos_bound (4 * n) 5 ltac:(lia)) as Hr.
  set (k := (4 * n / 5)%Z) in *. set (r := ((4 * n) mod 5)%Z) in *.
  assert (Hk : (0 <= k)%Z) by (apply Z.div_pos; lia).
  assert (HN0 : 0 <= inject_Z n) by (apply (inject_Z_bounds 0); exact Hn0).
  assert (HN1 : inject_Z n < inject_Z (2 ^ 50)) by (apply inject_Z_lt; exact Hn1).
  change (inject_Z (2 ^ 50)) with 1125899906842624 in HN1.
  assert (HR0 : 0 <= inject_Z r) by (apply (inject_Z_bounds 0); lia).
  assert (HR1 : inject_Z r <= 4) by (apply (inject_Z_bounds r 4); lia).
  assert (HE : 4 * inject_Z n == 5 * inject_Z k + inject_Z r).
  { change 4 with (inject_Z 4). change 5 with (inject_Z 5).
    rewrite <- !inject_Z_mult, <- inject_Z_plus. rewrite <- Hdm. reflexivity. }
  unfold Py.float_mul, Py.float_of_int.
  assert (EX : rnd (inject_Z n) == inject_Z n) by (apply rnd_int; lra).
  unfold split_ratio.
  set (q := rnd (inject_Z n) * (3602879701896397 # 4503599627370496)).
  assert (Hq : q == inject_Z n * (3602879701896397 # 4503599627370496)).
  { unfold q. rewrite EX. reflexivity. }
  assert (Habs : Qabs q == q).
  { apply Qabs_pos. rewrite Hq. lra. }
  apply int_of_float_floor; [exact Hk | |].
  - apply (rnd_ge_grid q _ k 0); [| lia | |].
    + change (pow2 0) with 1. lra.
    + rewrite Habs, Hq. change (pow2 (0 + 53)) with 9007199254740992. lra.
    + rewrite Hq. lra.
  - apply Qle_lt_trans with (inject_Z (8 * k + 7) * (1 # 8)).
    + apply (rnd_le_grid q _ (8 * k + 7) (-3)); [| lia | |].
      * reflexivity.
      * rewrite Habs, Hq. change (pow2 (-3 + 53)) with 1125899906842624. lra.
      * rewrite Hq, inject_Z_plus, inject_Z_mult.
        change (inject_Z 8) with 8. change (inject_Z 7) with 7. lra.
    + rewrite !inject_Z_plus, inject_Z_mult.
      change (inject_Z 8) with 8. change (inject_Z 7) with 7.
      change (inject_Z 1) with 1. lra.
Qed.

Lemma floor_eight_tenths n : Qfloor ((8 # 10) * inject_Z n) = (4 * n / 5)%Z.
Proof.
  unfold Qfloor, Qmult, inject_Z. cbn [Qnum Qden].
  change (Z.pos (10 * 1)) with (2 * 5)%Z.
  replace (8 * n)%Z with (2 * (4 * n))%Z by lia.
  apply Z.div_mul_cancel_l; lia.
Qed.

Lemma ilog2_upper q : 0 < q -> q < pow2 (ilog2 q + 1).
Proof.
  intros Hq. unfold ilog2.
  destruct (Qle_bool (pow2 (Z.log2 (Qnum q) - Z.log2 (Z.pos (Qden q)))) q)
    eqn:Hb.
  2:{ replace (Z.log2 (Qnum q) - Z.log2 (Z.pos (Qden q)) - 1 + 1)%Z
        with (Z.log2 (Qnum q) - Z.log2 (Z.pos (Qden q)))%Z by lia.
      apply Qnot_le_lt. intros Hle. apply Qle_bool_iff in Hle. congruence. }
  clear Hb. destruct q as [n d]. cbn [Qnum Qden].
  assert (Hn : (0 < n)%Z).
  { unfold Qlt in Hq. cbn in Hq. lia. }
  pose proof (Z.log2_spec n Hn) as [_ Ha].
  pose proof (Z.log2_spec (Z.pos d) (Pos2Z.is_pos d)) as [Hd _].
  pose proof (Z.log2_nonneg n) as Ha0.
  pose proof (Z.log2_nonneg (Z.pos d)) as Hb0.
  set (a := Z.log2 n) in *. set (b := Z.log2 (Z.pos d)) in *.
  replace (a - b + 1)%Z with (Z.succ a + - b)%Z by lia.
  rewrite pow2_add. unfold pow2 at 2. rewrite Qpower_opp.
  fold (pow2 b).
  rewrite !pow2_nonneg_Z by lia.
  rewrite (Qmake_Qdiv n d).
  assert (HA : inject_Z n < inject_Z (2 ^ Z.succ a))
    by (rewrite <- Zlt_Qlt; exact Ha).
  assert (HD : inject_Z (2 ^ b) <= inject_Z (Z.pos d))
    by (rewrite <- Zle_Qle; exact Hd).
  assert (HB0 : 0 < inject_Z (2 ^ b)).
  { change 0 with (inject_Z 0). rewrite <- Zlt_Qlt. lia. }
  assert (HN0 : 0 < inject_Z n).
  { change 0 with (inject_Z 0). rewrite <- Zlt_Qlt. lia. }
  apply Qlt_shift_div_r; [lra |].
  assert (E : inject_Z (2 ^ Z.succ a) * / inject_Z (2 ^ b) * inject_Z (Z.pos d)
              == inject_Z (2 ^ Z.succ a) * inject_Z (Z.pos d) / inject_Z (2 ^ b))
    by (field; lra).
  rewrite E. apply Qlt_shift_div_l; [exact HB0 |].
  nra.
Qed.

Lemma round_ne_error t : Qabs (inject_Z (round_ne t) - t) <= 1 # 2.
Proof.
  unfold round_ne.
  pose proof (Qfloor_le t) as Hlo. pose proof (Qlt_floor t) as Hhi.
  rewrite inject_Z_plus in Hhi. change (inject_Z 1) with 1 in Hhi.
  apply Qabs_Qle_condition.
  destruct (Qcompare (t - inject_Z (Qfloor t)) (1 # 2)) eqn:Hc.
  - apply Qeq_alt in Hc. destruct (Z.even (Qfloor t)).
    + lra.
    + rewrite inject_Z_plus. change (inject_Z 1) with 1. lra.
  - apply Qlt_alt in Hc. lra.
  - apply Qgt_alt in Hc. rewrite inject_Z_plus. change (inject_Z 1) with 1. lra.
Qed.

(** [rnd q] is a multiple of the unit in the last place of [q], within
    half a unit of [q]. *)
Lemma rnd_nearest q :
  exists m, rnd q == inject_Z m * pow2 (fexp q) /\
            Qabs (rnd q - q) <= (1 # 2) * pow2 (fexp q).
Proof.
  pose proof (pow2_pos (fexp q)) as Hu.
  destruct (Qeq_dec q 0) as [Hz | Hnz].
  - exists 0%Z. rewrite (rnd_zero q Hz). change (inject_Z 0) with 0.
    split; [lra |]. apply Qabs_Qle_condition. lra.
  - exists (round_ne (q / pow2 (fexp q))). split; [apply rnd_unfold, Hnz |].
    rewrite (rnd_unfold q Hnz).
    pose proof (round_ne_error (q / pow2 (fexp q))) as He.
    apply Qabs_Qle_condition in He. apply Qabs_Qle_condition.
    assert (Hq : q == q / pow2 (fexp q) * pow2 (fexp q)) by (field; lra).
    revert He Hq. generalize (inject_Z (round_ne (q / pow2 (fexp q)))).
    generalize (q / pow2 (fexp q)).
    revert Hu. generalize (pow2 (fexp q)). intros u Hu t m [He1 He2] Hq.
    rewrite Hq. split.
    + apply Qle_trans with ((m - t) * u); [| ring_simplify; lra].
      assert (E : - ((1 # 2) * u) == (- (1 # 2)) * u) by ring.
      rewrite E. apply Qmult_le_compat_r; lra.
    + apply Qle_trans with ((m - t) * u); [ring_simplify; lra |].
      apply Qmult_le_compat_r; lra.
Qed.

(** Rounding never takes a number from 1 upwards to zero. *)
Lemma rnd_pos q : 1 <= q -> 0 < rnd q.
Proof.
  intros Hq.
  assert (Hnz : ~ q == 0) by lra.
  rewrite (rnd_unfold q Hnz).
  pose proof (pow2_pos (fexp q)) as Hu.
  assert (Hle : pow2 (fexp q) <= q).
  { unfold fexp.
    assert (Ha : Qabs q == q) by (apply Qabs_pos; lra).
    destruct (Z.max_spec (ilog2 (Qabs q) - 52) (-1074)) as [[_ ->] | [_ ->]].
    - apply Qle_trans with 1; [| exact Hq]. apply (pow2_le (-1074) 0). lia.
    - apply Qle_trans with (pow2 (ilog2 (Qabs q))); [apply pow2_le; lia |].
      rewrite <- Ha at 2. apply ilog2_lower. lra. }
  assert (H1 : (1 <= round_ne (q / pow2 (fexp q)))%Z).
  { apply round_ne_ge. apply Qle_shift_div_l; [exact Hu |].
    change (inject_Z 1) with 1. lra. }
  apply inject_Z_bounds in H1. change (inject_Z 1) with 1 in H1.
  nra.
Qed.

Lemma float_of_int_nonzero n :
  (1 <= n)%Z -> Qeq_bool (Py.float_of_int n) 0 = false.
Proof.
  intros Hn. apply inject_Z_bounds in Hn. change (inject_Z 1) with 1 in Hn.
  pose proof (rnd_pos _ Hn) as Hp. unfold Py.float_of_int.
  destruct (Qeq_bool (rnd (inject_Z n)) 0) eqn:E; [| reflexivity].
  apply Qeq_bool_iff in E. lra.
Qed.

(** With positive image dimensions the four divisions are defined. *)
Lemma yolo_box_ok W H obj :
  (1 <= W)%Z -> (1 <= H)%Z -> exists v, yolo_box W H obj = Ok v.
Proof.
  intros HW HH. destruct obj as [[[x y] w] h].
  unfold yolo_box, Py.int_truediv, Py.float_truediv. cbn [Z.eqb res_bind].
  rewrite !float_of_int_nonzero by assumption. cbn [res_bind].
  destruct (Z.eqb_spec W 0); [lia |]. destruct (Z.eqb_spec H 0); [lia |].
  cbn [res_bind]. eauto.
Qed.

End FloatFacts.

Import FloatFacts.

(** ** Facts about the script *)
Section MonadFacts.
Context {A B : Type}.

Lemma bind_ok (m : M A) (k : A -> M B) st a st1 :
  m st = (Ok a, st1) -> bind m k st = k a st1.
Proof. intros H. unfold bind. rewrite H. reflexivity. Qed.

Lemma bind_raise (m : M A) (k : A -> M B) st e st1 :
  m st = (Raise e, st1) -> bind m k st = (Raise e, st1).
Proof. intros H. unfold bind. rewrite H. reflexivity. Qed.

Lemma preserves_ret R (a : A) : Reflexive R -> preserves R (ret a).
Proof. intros HR st. apply HR. Qed.

Lemma preserves_raise R e : Reflexive R -> preserves R (@raise A e).
Proof. intros HR st. apply HR. Qed.

Lemma preserves_bind R (m : M A) (k : A -> M B) :
  Transitive R -> preserves R m -> (forall a, preserves R (k a)) ->
  preserves R (bind m k).
Proof.
  intros HT Hm Hk st. unfold bind. specialize (Hm st).
  destruct (m st) as [[a | e] st1]; cbn in *.
  - transitivity st1; [exact Hm | apply Hk].
  - exact Hm.
Qed.
End MonadFacts.

Lemma ids_of_app evs1 evs2 : ids_of (evs1 ++ evs2) = ids_of evs1 ++ ids_of evs2.
Proof. unfold ids_of, lines_of. rewrite omap_app, map_app. reflexivity. Qed.

Lemma crops_of_app evs1 evs2 :
  crops_of (evs1 ++ evs2) = crops_of evs1 ++ crops_of evs2.
Proof. unfold crops_of. apply omap_app. Qed.

Lemma lines_of_app evs1 evs2 :
  lines_of (evs1 ++ evs2) = lines_of evs1 ++ lines_of evs2.
Proof. unfold lines_of. apply omap_app. Qed.

Lemma new_events_app st st' evs :
  trace st' = trace st ++ evs -> new_events st st' = evs.
Proof. intros H. unfold new_events. rewrite H. apply drop_app_length. Qed.

Lemma numbered_refl : Reflexive numbered.
Proof.
  intros st. exists []. rewrite app_nil_r. cbn. split_and!; [done | done | lia].
Qed.

Lemma numbered_trans : Transitive numbered.
Proof.
  intros st1 st2 st3 (e1 & Ht1 & Hi1 & Hc1) (e2 & Ht2 & Hi2 & Hc2).
  exists (e1 ++ e2). rewrite Ht2, Ht1, <- app_assoc, ids_of_app, length_app.
  split_and!; [done | | lia].
  rewrite Nat2Z.inj_add, seqZ_app by lia.
  rewrite <- Hi1, <- Hc1, <- Hi2. reflexivity.
Qed.

Lemma crops_in_review_dir_refl : Reflexive crops_in_review_dir.
Proof.
  intros st. exists []. rewrite app_nil_r. split; [done |].
  intros p m Hin. cbn in Hin. by apply elem_of_nil in Hin.
Qed.

Lemma crops_in_review_dir_trans : Transitive crops_in_review_dir.
Proof.
  intros st1 st2 st3 (e1 & Ht1 & H1) (e2 & Ht2 & H2).
  exists (e1 ++ e2). rewrite Ht2, Ht1, <- app_assoc. split; [done |].
  intros p m Hin. rewrite crops_of_app in Hin.
  apply elem_of_app in Hin as [Hin | Hin]; eauto.
Qed.

Section LoopFacts.
Context {cv : Cv2}.

(** *** detect_objects *)

Lemma filter_contours_spec contours acc :
  filter_contours contours acc
  = acc ++ List.filter (fun '(x, y, w, h) => (20 <? w) && (20 <? h))
                       (map boundingRect contours).
Proof.
  revert acc. induction contours as [| c rest IH]; intros acc; cbn.
  - by rewrite app_nil_r.
  - destruct (boundingRect c) as [[[x y] w] h].
    destruct ((20 <? w) && (20 <? h)); rewrite IH; [| done].
    by rewrite <- app_assoc.
Qed.

Lemma imread_spec path st :
  imread path st
  = (Ok match fs st !! path with
        | Some (ImageFile m) => if mat_empty m then None else Some m
        | _ => None
        end, st).
Proof. reflexivity. Qed.

Lemma imread_some path st img :
  fs st !! path = Some (ImageFile img) -> mat_empty img = false ->
  imread path st = (Ok (Some img), st).
Proof. intros Hf He. unfold imread. by rewrite Hf, He. Qed.

Lemma detect_objects_some path st img :
  fs st !! path = Some (ImageFile img) -> mat_empty img = false ->
  detect_objects path st
  = (Ok (filter_contours (find_contours img) []), st).
Proof.
  intros Hf He. unfold detect_objects.
  rewrite (bind_ok _ _ _ _ _ (imread_some _ _ _ Hf He)). reflexivity.
Qed.

Lemma detect_objects_state path st : snd (detect_objects path st) = st.
Proof.
  unfold detect_objects, bind, imread.
  destruct (fs st !! path) as [[m | |] |]; try reflexivity.
  destruct (mat_empty m); reflexivity.
Qed.

(** *** The annotation loop *)

Lemma annotate_loop_cons_ok image_id file W H obj rest idx st xc yc bw bh :
  yolo_box W H obj = Ok (xc, yc, bw, bh) ->
  annotate_loop image_id file W H (obj :: rest) idx st
  = annotate_loop image_id file W H rest (idx + 1)
      {| fs := alter (append_line
                        {| class_id := class_counter st; x_center := xc;
                           y_center := yc; box_width := bw;
                           box_height := bh |}) file (fs st);
         class_counter := class_counter st + 1;
         class_map := <[class_key image_id idx := class_counter st]>
                        (class_map st);
         trace := trace st ++
                  [FWrite file {| class_id := class_counter st;
                                  x_center := xc; y_center := yc;
                                  box_width := bw; box_height := bh |}] |}.
Proof.
  intros Hy. cbn [annotate_loop]. unfold bind, lift. rewrite Hy. reflexivity.
Qed.

Lemma annotate_loop_cons_raise image_id file W H obj rest idx st e :
  yolo_box W H obj = Raise e ->
  annotate_loop image_id file W H (obj :: rest) idx st = (Raise e, st).
Proof.
  intros Hy. cbn [annotate_loop]. unfold bind, lift. rewrite Hy. reflexivity.
Qed.

Lemma annotate_loop_spec image_id file W H objs :
  forall idx st,
  exists lines,
    let res := annotate_loop image_id file W H objs idx st in
    trace (snd res) = trace st ++ map (FWrite file) lines /\
    class_counter (snd res) = class_counter st + Z.of_nat (length lines) /\
    (forall p, p <> file -> fs (snd res) !! p = fs st !! p) /\
    (forall i line, lines !! i = Some line ->
       exists obj xc yc bw bh,
         objs !! i = Some obj /\
         yolo_box W H obj = Ok (xc, yc, bw, bh) /\
         line = {| class_id := class_counter st + Z.of_nat i;
                   x_center := xc; y_center := yc;
                   box_width := bw; box_height := bh |}) /\
    (fst res = Ok tt /\ length lines = length objs \/
     exists e obj, fst res = Raise e /\ objs !! length lines = Some obj /\
                   yolo_box W H obj = Raise e).
Proof.
  induction objs as [| obj rest IH]; intros idx st.
  - exists []. cbn. rewrite app_nil_r. split_and!; [done | lia | done | | by left].
    intros i line Hl. by rewrite lookup_nil in Hl.
  - destruct (yolo_box W H obj) as [[[[xc yc] bw] bh] | e] eqn:Hy.
    + cbn zeta. rewrite (annotate_loop_cons_ok _ _ _ _ _ _ _ _ _ _ _ _ Hy).
      match goal with
      | |- context [annotate_loop _ _ _ _ rest (idx + 1) ?s] =>
          destruct (IH (idx + 1) s) as (lines & Ht & Hc & Hf & Hl & Hr)
      end.
      cbn zeta in Ht, Hc, Hf, Hr. cbn [trace class_counter fs] in Ht, Hc, Hf, Hl.
      eexists (_ :: lines). split_and!.
      * rewrite Ht, <- app_assoc. reflexivity.
      * rewrite Hc. cbn [length]. lia.
      * intros p Hp. rewrite Hf by exact Hp. by rewrite lookup_alter_ne.
      * intros [| i] l Hi; cbn in Hi.
        -- injection Hi as <-. exists obj, xc, yc, bw, bh.
           split_and!; [done | done |]. f_equal. lia.
        -- destruct (Hl i l Hi) as (o & a & b & c & d & Ho & Hyo & ->).
           exists o, a, b, c, d. split_and!; [done | done |]. f_equal. lia.
      * destruct Hr as [[Hok Hlen] | (e & o & He & Ho & Hyo)].
        -- left. split; [exact Hok | cbn; by rewrite Hlen].
        -- right. exists e, o. split_and!; done.
    + cbn zeta. rewrite (annotate_loop_cons_raise _ _ _ _ _ _ _ _ _ Hy).
      exists []. cbn. rewrite app_nil_r.
      split_and!; [done | lia | done | | ].
      * intros i line Hl. by rewrite lookup_nil in Hl.
      * right. exists e, obj. done.
Qed.

End LoopFacts.

Lemma review_dir_not_input a b :
  Py.path_join unknown_objects_dir a <> Py.path_join image_dir b.
Proof. intros H. vm_compute in H. discriminate H. Qed.

Lemma out_dirs_not_input images_dir labels_dir a b :
  (images_dir, labels_dir) ∈ out_dirs ->
  Py.path_join images_dir a <> Py.path_join image_dir b /\
  Py.path_join labels_dir a <> Py.path_join image_dir b.
Proof.
  unfold out_dirs. intros Hin.
  apply elem_of_cons in Hin as [[= -> ->] | Hin];
    [| apply list_elem_of_singleton in Hin as [= -> ->]];
    split; intros H; vm_compute in H; discriminate H.
Qed.

Section CropFacts.
Context {cv : Cv2}.

(** *** save_cropped_objects *)

Lemma crop_loop_spec img image_id objs :
  forall idx acc st,
  exists st',
    crop_loop (Some img) image_id objs idx acc st
    = (Ok (acc ++ imap (fun i _ => cropped_name image_id (idx + Z.of_nat i))
                       objs), st') /\
    trace st' = trace st ++
      imap (fun i r =>
              Imwrite (Py.path_join unknown_objects_dir
                         (cropped_name image_id (idx + Z.of_nat i)))
                      (crop_of_rect img r)) objs /\
    class_counter st' = class_counter st /\
    class_map st' = class_map st /\
    input_kept st st'.
Proof.
  induction objs as [| [[[x y] w] h] rest IH]; intros idx acc st.
  - exists st. cbn. rewrite !app_nil_r. done.
  - cbn [crop_loop]. unfold bind at 1. cbn [imwrite].
    match goal with
    | |- context [crop_loop _ _ rest (idx + 1) ?a ?s] =>
        destruct (IH (idx + 1) a s) as (st' & -> & Ht & Hc & Hm & Hk)
    end.
    cbn [trace class_counter class_map] in Ht, Hc, Hm.
    exists st'. rewrite !imap_cons.
    replace (idx + Z.of_nat 0) with idx by lia.
    rewrite (imap_ext (_ ∘ S)
               (fun i _ => cropped_name image_id (idx + 1 + Z.of_nat i)) rest)
      by (intros i r _; cbn; f_equal; lia).
    rewrite (imap_ext (_ ∘ S)
               (fun i r => Imwrite
                  (Py.path_join unknown_objects_dir
                     (cropped_name image_id (idx + 1 + Z.of_nat i)))
                  (crop_of_rect img r)) rest)
      by (intros i r _; cbn; do 3 f_equal; lia).
    split_and!.
    + by rewrite <- app_assoc.
    + rewrite Ht, <- app_assoc. reflexivity.
    + exact Hc.
    + exact Hm.
    + intros f. rewrite (Hk f). cbn.
      destruct (imwrite_ok _ _); [| reflexivity].
      apply lookup_insert_ne, review_dir_not_input.
Qed.

Lemma save_cropped_objects_spec path objs image_id st img :
  fs st !! path = Some (ImageFile img) -> mat_empty img = false ->
  exists st',
    save_cropped_objects path objs image_id st
    = (Ok (imap (fun i _ => cropped_name image_id (Z.of_nat i)) objs), st') /\
    trace st' = trace st ++
      imap (fun i r => Imwrite (crop_path image_id i) (crop_of_rect img r))
           objs /\
    class_counter st' = class_counter st /\
    class_map st' = class_map st /\
    input_kept st st'.
Proof.
  intros Hf He. unfold save_cropped_objects.
  rewrite (bind_ok _ _ _ _ _ (imread_some _ _ _ Hf He)).
  destruct (crop_loop_spec img image_id objs 0 [] st)
    as (st' & -> & Ht & Hc & Hm & Hk).
  exists st'. split_and!; done.
Qed.

End CropFacts.

Lemma mat_nonempty_dims img :
  mat_empty img = false -> 1 <= mat_width img /\ 1 <= mat_height img.
Proof.
  unfold mat_empty. intros H. apply orb_false_elim in H as [Hh Hw].
  apply Z.eqb_neq in Hh, Hw.
  assert (0 <= mat_height img) by (unfold mat_height; lia).
  assert (0 <= mat_width img) by (unfold mat_width; destruct img; lia).
  lia.
Qed.

Lemma shutil_copy_ok src dst_dir st c :
  fs st !! src = Some c ->
  src <> Py.path_join dst_dir (Py.basename src) ->
  shutil_copy src dst_dir st
  = (Ok tt, {| fs := <[Py.path_join dst_dir (Py.basename src) := c]> (fs st);
               class_counter := class_counter st;
               class_map := class_map st;
               trace := trace st ++
                        [Copy src (Py.path_join dst_dir (Py.basename src))] |}).
Proof.
  intros Hf Hne. unfold shutil_copy. rewrite Hf.
  destruct (String.eqb_spec src (Py.path_join dst_dir (Py.basename src)));
    [contradiction | reflexivity].
Qed.

Section ImageFacts.
Context {cv : Cv2}.

(** *** One image with at least one region *)

Lemma process_image_ok images_dir labels_dir image_file st img :
  (images_dir, labels_dir) ∈ out_dirs ->
  fs st !! Py.path_join image_dir image_file = Some (ImageFile img) ->
  mat_empty img = false ->
  filter_contours (find_contours img) [] <> [] ->
  let objs := filter_contours (find_contours img) [] in
  let image_path := Py.path_join image_dir image_file in
  let image_id := fst (Py.splitext image_file) in
  let file := Py.path_join labels_dir (image_id +:+ ".txt") in
  exists st' lines,
    process_image images_dir labels_dir image_file st = (Ok tt, st') /\
    trace st' = trace st ++
      imap (fun i r => Imwrite (crop_path image_id i) (crop_of_rect img r))
           objs ++
      [Copy image_path (Py.path_join images_dir (Py.basename image_path));
       OpenW file] ++
      map (FWrite file) lines /\
    length lines = length objs /\
    class_counter st' = class_counter st + Z.of_nat (length objs) /\
    (forall i line, lines !! i = Some line ->
       exists obj xc yc bw bh,
         objs !! i = Some obj /\
         yolo_box (mat_width img) (mat_height img) obj
         = Ok (xc, yc, bw, bh) /\
         line = {| class_id := class_counter st + Z.of_nat i;
                   x_center := xc; y_center := yc;
                   box_width := bw; box_height := bh |}).
Proof.
  intros Hdirs Hf He Hne objs image_path image_id file.
  unfold process_image. fold image_path image_id.
  rewrite (bind_ok _ _ _ _ _ (detect_objects_some _ _ _ Hf He)).
  fold objs. destruct objs as [| o rest] eqn:Hobjs; [contradiction |].
  rewrite <- Hobjs.
  destruct (save_cropped_objects_spec image_path objs image_id st img Hf He)
    as (st1 & Hs & Ht1 & Hc1 & _ & Hk1).
  rewrite (bind_ok _ _ _ _ _ Hs).
  assert (Hf1 : fs st1 !! image_path = Some (ImageFile img))
    by (unfold image_path; rewrite Hk1; exact Hf).
  pose proof (out_dirs_not_input images_dir labels_dir
                (Py.basename image_path) image_file Hdirs) as [Hd _].
  rewrite (bind_ok _ _ _ _ _
             (shutil_copy_ok _ images_dir _ _ Hf1 (not_eq_sym Hd))).
  match goal with
  | |- context [bind (imread image_path) _ ?s] => set (st2 := s)
  end.
  assert (Hf2 : fs st2 !! image_path = Some (ImageFile img)).
  { unfold st2. cbn [fs]. rewrite lookup_insert_ne by exact Hd. exact Hf1. }
  rewrite (bind_ok _ _ _ _ _ (imread_some _ _ _ Hf2 He)).
  fold file. unfold bind at 1. cbn [open_w].
  match goal with
  | |- context [annotate_loop _ _ _ _ _ 0 ?s] => set (st3 := s)
  end.
  destruct (annotate_loop_spec image_id file (mat_width img) (mat_height img)
              objs 0 st3) as (lines & Ht & Hc & _ & Hl & Hr).
  cbn zeta in Ht, Hc, Hr.
  destruct (mat_nonempty_dims img He) as [HW HH].
  destruct Hr as [[Hok Hlen] | (e & obj & _ & _ & Hy)].
  2:{ destruct (yolo_box_ok (mat_width img) (mat_height img) obj HW HH)
        as [v Hv]. congruence. }
  destruct (annotate_loop image_id file (mat_width img) (mat_height img)
              objs 0 st3) as [r st'] eqn:Hrun.
  cbn [fst snd] in *. subst r.
  exists st', lines. split_and!.
  - reflexivity.
  - rewrite Ht. unfold st3, st2. cbn [trace]. rewrite Ht1.
    rewrite <- !app_assoc. reflexivity.
  - exact Hlen.
  - rewrite Hc, Hlen. unfold st3, st2. cbn [class_counter]. lia.
  - intros i line Hi. destruct (Hl i line Hi) as (ob & a & b & c & d & H1 & H2 & H3).
    exists ob, a, b, c, d. split_and!; [done | done |].
    rewrite H3. unfold st3, st2. cbn [class_counter]. by rewrite Hc1.
Qed.

End ImageFacts.

Lemma ids_of_writes file lines : ids_of (map (FWrite file) lines) = map class_id lines.
Proof.
  unfold ids_of, lines_of. induction lines as [| l rest IH]; [done |].
  cbn. by rewrite IH.
Qed.

Lemma crops_of_writes file lines : crops_of (map (FWrite file) lines) = [].
Proof. unfold crops_of. induction lines as [| l rest IH]; [done | exact IH]. Qed.

Lemma numbered_intro st st' evs :
  trace st' = trace st ++ evs -> ids_of evs = [] ->
  class_counter st' = class_counter st -> numbered st st'.
Proof.
  intros Ht Hi Hc. exists evs. rewrite Hi. cbn.
  split_and!; [done | done | lia].
Qed.

Lemma crops_in_review_dir_intro st st' evs :
  trace st' = trace st ++ evs -> crops_of evs = [] ->
  crops_in_review_dir st st'.
Proof.
  intros Ht Hc. exists evs. split; [done |]. rewrite Hc.
  intros p m Hin. by apply elem_of_nil in Hin.
Qed.

Section Invariants.
Context {cv : Cv2}.

(** *** Numbering, for every outcome *)

Lemma imread_numbered path : preserves numbered (imread path).
Proof. intros st. apply numbered_refl. Qed.

Lemma imwrite_numbered path img : preserves numbered (imwrite path img).
Proof. intros st. by apply (numbered_intro _ _ [Imwrite path img]). Qed.

Lemma open_w_numbered path : preserves numbered (open_w path).
Proof. intros st. by apply (numbered_intro _ _ [OpenW path]). Qed.

Lemma shutil_copy_numbered src dst_dir :
  preserves numbered (shutil_copy src dst_dir).
Proof.
  intros st. unfold shutil_copy.
  destruct (fs st !! src); [| apply numbered_refl].
  destruct (String.eqb _ _); [apply numbered_refl |].
  by eapply (numbered_intro _ _ [Copy _ _]).
Qed.

Lemma detect_objects_numbered path : preserves numbered (detect_objects path).
Proof. intros st. rewrite detect_objects_state. apply numbered_refl. Qed.

Lemma crop_loop_numbered image image_id objs :
  forall idx acc, preserves numbered (crop_loop image image_id objs idx acc).
Proof.
  induction objs as [| [[[x y] w] h] rest IH]; intros idx acc; cbn [crop_loop].
  - apply preserves_ret, numbered_refl.
  - destruct image; [| apply preserves_raise, numbered_refl].
    apply preserves_bind; [exact numbered_trans | apply imwrite_numbered | intros _; apply IH].
Qed.

Lemma annotate_loop_numbered image_id file W H objs idx :
  preserves numbered (annotate_loop image_id file W H objs idx).
Proof.
  intros st.
  destruct (annotate_loop_spec image_id file W H objs idx st)
    as (lines & Ht & Hc & _ & Hl & _). cbn zeta in Ht, Hc.
  exists (map (FWrite file) lines).
  rewrite ids_of_writes, length_map. split_and!; [exact Ht | | exact Hc].
  apply list_eq. intros i. rewrite list_lookup_fmap.
  destruct (lines !! i) as [line |] eqn:Hi; cbn.
  - destruct (Hl i line Hi) as (o & a & b & c & d & _ & _ & ->). cbn.
    symmetry. apply lookup_seqZ_lt. apply lookup_lt_Some in Hi. lia.
  - symmetry. apply lookup_seqZ_ge. apply lookup_ge_None in Hi. lia.
Qed.

Lemma process_image_numbered images_dir labels_dir image_file :
  preserves numbered (process_image images_dir labels_dir image_file).
Proof.
  unfold process_image.
  apply preserves_bind; [exact numbered_trans | apply detect_objects_numbered |].
  intros [| o rest]; [apply preserves_ret, numbered_refl |].
  apply preserves_bind; [exact numbered_trans | | intros _].
  { unfold save_cropped_objects.
    apply preserves_bind; [exact numbered_trans | apply imread_numbered |].
    intros image. apply crop_loop_numbered. }
  apply preserves_bind; [exact numbered_trans | apply shutil_copy_numbered | intros _].
  apply preserves_bind; [exact numbered_trans | apply imread_numbered |].
  intros [img |]; [| apply preserves_raise, numbered_refl].
  apply preserves_bind; [exact numbered_trans | apply open_w_numbered | intros _].
  apply annotate_loop_numbered.
Qed.

Lemma process_images_numbered files images_dir labels_dir :
  preserves numbered (process_images files images_dir labels_dir).
Proof.
  induction files as [| f rest IH]; cbn [process_images].
  - apply preserves_ret, numbered_refl.
  - apply preserves_bind; [exact numbered_trans | apply process_image_numbered |].
    intros _. exact IH.
Qed.

(** *** Where crops go, for every outcome *)

Lemma crop_loop_review_dir image image_id objs :
  forall idx acc,
    preserves crops_in_review_dir (crop_loop image image_id objs idx acc).
Proof.
  induction objs as [| [[[x y] w] h] rest IH]; intros idx acc; cbn [crop_loop].
  - apply preserves_ret, crops_in_review_dir_refl.
  - destruct image; [| apply preserves_raise, crops_in_review_dir_refl].
    apply preserves_bind; [exact crops_in_review_dir_trans | | intros _; apply IH].
    intros st. eexists [Imwrite _ _]. split; [reflexivity |].
    intros p m' Hin. cbn in Hin. apply list_elem_of_singleton in Hin as [= -> _].
    eauto.
Qed.

Lemma process_image_review_dir images_dir labels_dir image_file :
  preserves crops_in_review_dir
            (process_image images_dir labels_dir image_file).
Proof.
  unfold process_image.
  apply preserves_bind; [exact crops_in_review_dir_trans | |].
  { intros st. rewrite detect_objects_state. apply crops_in_review_dir_refl. }
  intros [| o rest]; [apply preserves_ret, crops_in_review_dir_refl |].
  apply preserves_bind; [exact crops_in_review_dir_trans | | intros _].
  { unfold save_cropped_objects.
    apply preserves_bind; [exact crops_in_review_dir_trans | intros st; apply crops_in_review_dir_refl |].
    intros image. apply crop_loop_review_dir. }
  apply preserves_bind; [exact crops_in_review_dir_trans | | intros _].
  { intros st. unfold shutil_copy.
    destruct (fs st !! _); [| apply crops_in_review_dir_refl].
    destruct (String.eqb _ _); [apply crops_in_review_dir_refl |].
    by eapply (crops_in_review_dir_intro _ _ [Copy _ _]). }
  apply preserves_bind; [exact crops_in_review_dir_trans | intros st; apply crops_in_review_dir_refl |].
  intros [img |]; [| apply preserves_raise, crops_in_review_dir_refl].
  apply preserves_bind; [exact crops_in_review_dir_trans | | intros _].
  { intros st. by eapply (crops_in_review_dir_intro _ _ [OpenW _]). }
  intros st.
  destruct (annotate_loop_spec (Py.splitext image_file).1
              (Py.path_join labels_dir ((Py.splitext image_file).1 +:+ ".txt"))
              (mat_width img) (mat_height img) (o :: rest) 0 st)
    as (lines & Ht & _). cbn zeta in Ht.
  eapply crops_in_review_dir_intro; [exact Ht | apply crops_of_writes].
Qed.

Lemma process_images_review_dir files images_dir labels_dir :
  preserves crops_in_review_dir (process_images files images_dir labels_dir).
Proof.
  induction files as [| f rest IH]; cbn [process_images].
  - apply preserves_ret, crops_in_review_dir_refl.
  - apply preserves_bind; [exact crops_in_review_dir_trans | apply process_image_review_dir |].
    intros _. exact IH.
Qed.

End Invariants.

(** *** Suffixes *)

Lemma endswith_refl s : Py.endswith s s = true.
Proof. destruct s; cbn; [done |]. by rewrite Ascii.eqb_refl, String.eqb_refl. Qed.

Lemma endswith_app p s : Py.endswith (p +:+ s) s = true.
Proof.
  induction p as [| a p IH].
  - apply endswith_refl.
  - change (String a p +:+ s) with (String a (p +:+ s)).
    cbn [Py.endswith]. rewrite IH. apply orb_true_r.
Qed.

Lemma endswith_prepend p s suffix :
  Py.endswith s suffix = true -> Py.endswith (p +:+ s) suffix = true.
Proof.
  intros H. induction p as [| a p IH]; [exact H |].
  change (String a p +:+ s) with (String a (p +:+ s)).
  cbn [Py.endswith]. rewrite IH. apply orb_true_r.
Qed.

Lemma endswith_spec s suffix :
  Py.endswith s suffix = true <-> exists p, s = p +:+ suffix.
Proof.
  split.
  - induction s as [| a s IH]; cbn [Py.endswith]; intros H.
    + rewrite orb_false_r in H. apply String.eqb_eq in H as <-. by exists EmptyString.
    + apply orb_true_iff in H as [H | H].
      * apply String.eqb_eq in H as <-. by exists EmptyString.
      * destruct (IH H) as [p ->]. by exists (String a p).
  - intros [p ->]. apply endswith_app.
Qed.

Lemma image_files_elem listing f :
  f ∈ image_files listing <->
  f ∈ listing /\
  (exists p, f = p +:+ ".png" \/ f = p +:+ ".jpg" \/ f = p +:+ ".jpeg").
Proof.
  unfold image_files. rewrite list_elem_of_In, filter_In, <- list_elem_of_In.
  unfold Py.endswith_any. cbn [existsb]. rewrite orb_false_r, !orb_true_iff.
  rewrite !endswith_spec. split.
  - intros [Hin [[p Hp] | [[p Hp] | [p Hp]]]]; (split; [exact Hin |]);
      exists p; auto.
  - intros [Hin [p [Hp | [Hp | Hp]]]]; (split; [exact Hin |]); eauto.
Qed.

(** *** Slices *)

Lemma slice_to_take {A} (l : list A) k :
  0 <= k <= Z.of_nat (length l) -> Py.slice_to l k = take (Z.to_nat k) l.
Proof.
  intros Hk. unfold Py.slice_to, Py.slice, Py.norm_index.
  destruct (Z.ltb_spec 0 0); [lia |]. destruct (Z.ltb_spec k 0); [lia |].
  rewrite Z.min_l, Z.min_l by lia. cbn [Z.to_nat drop]. by rewrite Z.sub_0_r.
Qed.

Lemma slice_from_drop {A} (l : list A) k :
  0 <= k <= Z.of_nat (length l) -> Py.slice_from l k = drop (Z.to_nat k) l.
Proof.
  intros Hk. unfold Py.slice_from, Py.slice, Py.norm_index.
  destruct (Z.ltb_spec k 0); [lia |].
  destruct (Z.ltb_spec (Z.of_nat (length l)) 0); [lia |].
  rewrite Z.min_l, Z.min_l by lia.
  apply take_ge. rewrite length_drop. lia.
Qed.

(** *** Encoding and history *)

Lemma yolo_box_unit W H x y w h xc yc bw bh :
  inside W H (x, y, w, h) -> 0 < w -> 0 < h ->
  W < 4503599627370496 -> H < 4503599627370496 ->
  yolo_box W H (x, y, w, h) = Ok (xc, yc, bw, bh) ->
  in_unit xc /\ in_unit yc /\ in_unit bw /\ in_unit bh.
Proof.
  intros (Hx & Hy & Hxw & Hyh) Hw Hh HW HH. unfold yolo_box.
  destruct (center_unit x w W Hx Hw Hxw HW) as (hw & cx & E1 & E2 & Bx).
  destruct (center_unit y h H Hy Hh Hyh HH) as (hh & cy & E3 & E4 & By).
  destruct (extent_unit w W Hw ltac:(lia)) as (ew & E5 & Bw).
  destruct (extent_unit h H Hh ltac:(lia)) as (eh & E6 & Bh).
  rewrite E1. cbn [res_bind]. rewrite E2. cbn [res_bind].
  rewrite E3. cbn [res_bind]. rewrite E4. cbn [res_bind].
  rewrite E5. cbn [res_bind]. rewrite E6. cbn [res_bind].
  intros [= <- <- <- <-]. done.
Qed.

Lemma filter_contours_large `{cv : Cv2} contours x y w h :
  (x, y, w, h) ∈ filter_contours contours [] -> 20 < w /\ 20 < h.
Proof.
  rewrite filter_contours_spec, app_nil_l.
  rewrite list_elem_of_In, filter_In, andb_true_iff, !Z.ltb_lt. tauto.
Qed.

Lemma lines_of_imwrites {A} (f : nat -> A -> Event) (l : list A) :
  (forall i a, exists p m, f i a = Imwrite p m) -> lines_of (imap f l) = [].
Proof.
  intros Hf. revert f Hf. induction l as [| a l IH]; intros f Hf; [done |].
  rewrite imap_cons. unfold lines_of in *. cbn.
  destruct (Hf 0%nat a) as (p & m & ->). apply IH.
  intros i b. apply Hf.
Qed.

Lemma lines_of_writes file lines :
  lines_of (map (FWrite file) lines) = map (pair file) lines.
Proof.
  unfold lines_of. induction lines as [| l rest IH]; [done |].
  cbn. by rewrite IH.
Qed.

Lemma crops_of_imwrites {A} (p : nat -> A -> string) (m : nat -> A -> Mat)
    (l : list A) :
  crops_of (imap (fun i a => Imwrite (p i a) (m i a)) l)
  = imap (fun i a => (p i a, m i a)) l.
Proof.
  revert p m. induction l as [| a l IH]; intros p m; [done |].
  rewrite !imap_cons. unfold crops_of in *. cbn. f_equal.
  apply (IH (fun i => p (S i)) (fun i => m (S i))).
Qed.

Lemma string_app_length s t :
  String.length (s +:+ t) = (String.length s + String.length t)%nat.
Proof.
  induction s as [| a s IH]; [done |].
  change (String a s +:+ t) with (String a (s +:+ t)). cbn. by rewrite IH.
Qed.

Lemma string_app_inj_r s1 s2 t : s1 +:+ t = s2 +:+ t -> s1 = s2.
Proof.
  revert s2. induction s1 as [| a s1 IH]; intros [| b s2] H.
  - reflexivity.
  - apply (f_equal String.length) in H.
    rewrite !string_app_length in H. cbn in H. lia.
  - apply (f_equal String.length) in H.
    rewrite !string_app_length in H. cbn in H. lia.
  - change (String a (s1 +:+ t) = String b (s2 +:+ t)) in H.
    injection H as -> H. f_equal. by apply IH.
Qed.

Lemma crop_path_inj image_id i j :
  crop_path image_id i = crop_path image_id j -> i = j.
Proof.
  unfold crop_path, Py.path_join. intros H.
  do 4 apply String.app_inj in H.
  apply string_app_inj_r in H. apply (inj pretty) in H. lia.
Qed.

Lemma NoDup_crop_paths {A} image_id (l : list A) :
  NoDup (imap (fun i _ => crop_path image_id i) l).
Proof.
  apply NoDup_alt. intros i j p Hi Hj.
  rewrite list_lookup_imap in Hi, Hj.
  destruct (l !! i), (l !! j); cbn in *; try discriminate.
  apply (crop_path_inj image_id). congruence.
Qed.

Section Outputs.
Context {cv : Cv2}.

(** The lines and crops of one processed image with regions. *)
Lemma process_image_outputs images_dir labels_dir image_file st img :
  (images_dir, labels_dir) ∈ out_dirs ->
  fs st !! Py.path_join image_dir image_file = Some (ImageFile img) ->
  mat_empty img = false ->
  filter_contours (find_contours img) [] <> [] ->
  let objs := filter_contours (find_contours img) [] in
  let image_id := fst (Py.splitext image_file) in
  let file := Py.path_join labels_dir (image_id +:+ ".txt") in
  let res := process_image images_dir labels_dir image_file st in
  exists lines,
    fst res = Ok tt /\
    crops_of (new_events st (snd res))
    = imap (fun i r => (crop_path image_id i, crop_of_rect img r)) objs /\
    lines_of (new_events st (snd res)) = map (pair file) lines /\
    length lines = length objs /\
    class_counter (snd res) = class_counter st + Z.of_nat (length objs) /\
    (forall i line, lines !! i = Some line ->
       exists obj xc yc bw bh,
         objs !! i = Some obj /\
         yolo_box (mat_width img) (mat_height img) obj
         = Ok (xc, yc, bw, bh) /\
         line = {| class_id := class_counter st + Z.of_nat i;
                   x_center := xc; y_center := yc;
                   box_width := bw; box_height := bh |}).
Proof.
  intros Hdirs Hf He Hne objs image_id file res.
  destruct (process_image_ok images_dir labels_dir image_file st img
              Hdirs Hf He Hne) as (st' & lines & Hrun & Ht & Hlen & Hc & Hl).
  subst res. rewrite Hrun. cbn [fst snd].
  rewrite (new_events_app _ _ _ Ht).
  exists lines. split_and!; try done.
  - rewrite !crops_of_app, crops_of_writes.
    rewrite (crops_of_imwrites (fun i _ => crop_path _ i)
                               (fun _ r => crop_of_rect img r)).
    assert (E : forall a b c, crops_of [Copy a b; OpenW c] = [])
      by reflexivity.
    by rewrite E, !app_nil_r.
  - rewrite !lines_of_app, lines_of_writes.
    rewrite lines_of_imwrites by eauto. reflexivity.
Qed.

(** An image without regions leaves the state untouched. *)
Lemma process_image_no_regions images_dir labels_dir image_file st :
  fst (detect_objects (Py.path_join image_dir image_file) st) = Ok [] ->
  process_image images_dir labels_dir image_file st = (Ok tt, st).
Proof.
  intros Hd. unfold process_image.
  pose proof (detect_objects_state (Py.path_join image_dir image_file) st)
    as Hs.
  destruct (detect_objects (Py.path_join image_dir image_file) st)
    as [r s] eqn:Hrun.
  cbn in Hd, Hs. subst r s.
  rewrite (bind_ok _ _ _ _ _ Hrun). reflexivity.
Qed.

(** Within a run the placeholder ids written are [0, 1, 2, ...] in the
    order of writing: unique and strictly increasing. *)
Lemma main_ids_consecutive listing shuffle files :
  let st := snd (main listing shuffle (initial_state files)) in
  ids_of (trace st) = seqZ 0 (class_counter st).
Proof.
  assert (N : preserves numbered (main listing shuffle)).
  { unfold main. apply preserves_bind; [exact numbered_trans | | intros _];
      apply process_images_numbered. }
  destruct (N (initial_state files)) as (evs & Ht & Hi & Hc).
  cbn zeta. cbn [initial_state trace class_counter] in Ht, Hi, Hc.
  rewrite Ht, app_nil_l, Hc, Z.add_0_l. exact Hi.
Qed.

End Outputs.

(** *** The label map *)

Lemma string_app_assoc s t u : (s +:+ t) +:+ u = s +:+ (t +:+ u).
Proof.
  induction s as [| a s IH]; [done |].
  change (String a ((s +:+ t) +:+ u) = String a (s +:+ (t +:+ u))).
  by rewrite IH.
Qed.

Lemma all_digits_app s t : all_digits (s +:+ t) = all_digits s && all_digits t.
Proof.
  induction s as [| a s IH]; [done |].
  change (String a s +:+ t) with (String a (s +:+ t)).
  cbn [all_digits]. rewrite IH. apply andb_assoc.
Qed.

Lemma strip_all_digits d : all_digits d = true -> strip_digits d = EmptyString.
Proof. intros H. destruct d; [done |]. cbn [strip_digits]. by rewrite H. Qed.

Lemma strip_digits_app q d :
  all_digits d = true ->
  strip_digits ((q +:+ "_") +:+ d) = q +:+ "_".
Proof.
  intros Hd. induction q as [| a q IH].
  - change (strip_digits (String "_" d) = "_"%string).
    cbn [strip_digits all_digits]. cbn [is_digit N_of_ascii]. cbn.
    by rewrite (strip_all_digits d Hd).
  - change (strip_digits (String a ((q +:+ "_") +:+ d)) = String a (q +:+ "_")).
    cbn [strip_digits]. rewrite IH.
    assert (E : all_digits (String a ((q +:+ "_") +:+ d)) = false).
    { cbn [all_digits]. rewrite !all_digits_app. cbn.
      by rewrite andb_false_r, andb_false_r. }
    by rewrite E.
Qed.

Lemma is_digit_pretty_N_char x : is_digit (pretty_N_char x) = true.
Proof. unfold pretty_N_char. by repeat case_match. Qed.

Lemma all_digits_pretty_N_go x s :
  all_digits s = true -> all_digits (pretty_N_go x s) = true.
Proof.
  revert s. induction (N.lt_wf_0 x) as [x _ IH]; intros s Hs.
  assert (x = 0 \/ 0 < x)%N as [-> | Hx] by lia.
  - by rewrite pretty_N_go_0.
  - rewrite pretty_N_go_step by done. apply IH.
    + by apply N.div_lt.
    + cbn [all_digits]. by rewrite is_digit_pretty_N_char, Hs.
Qed.

Lemma all_digits_pretty_Z z : 0 <= z -> all_digits (pretty z) = true.
Proof.
  intros Hz. destruct z as [| p | p]; [done | | lia].
  unfold pretty, pretty_Z, pretty, pretty_positive, pretty, pretty_N.
  case_decide; [done |]. by apply all_digits_pretty_N_go.
Qed.

(** A key determines the image id and the position it was built from. *)
Lemma class_key_inj id1 i1 id2 i2 :
  0 <= i1 -> 0 <= i2 ->
  class_key id1 i1 = class_key id2 i2 -> id1 = id2 /\ i1 = i2.
Proof.
  intros H1 H2. unfold class_key. intros E.
  assert (Es : forall id i, id +:+ "_object_" +:+ pretty (i + 1)
                 = ((id +:+ "_object") +:+ "_") +:+ pretty (i + 1)).
  { intros id i. by rewrite !string_app_assoc. }
  rewrite !Es in E.
  assert (E' := f_equal strip_digits E).
  rewrite !strip_digits_app in E' by (apply all_digits_pretty_Z; lia).
  apply string_app_inj_r in E'. apply string_app_inj_r in E'. subst id2.
  split; [done |].
  apply String.app_inj in E. apply (inj pretty) in E. lia.
Qed.

Lemma preserves_bind_frame {A B} (R1 R3 : State -> State -> Prop)
    (m : M A) (k : A -> M B) :
  (forall a b, R1 a b -> R3 a b) ->
  (forall a b c, R1 a b -> R3 b c -> R3 a c) ->
  preserves R1 m -> (forall x, preserves R3 (k x)) ->
  preserves R3 (bind m k).
Proof.
  intros Hsub Hcomp Hm Hk st. unfold bind. specialize (Hm st).
  destruct (m st) as [[a | e] st1]; cbn in *.
  - eapply Hcomp; [exact Hm | apply Hk].
  - apply Hsub, Hm.
Qed.

Lemma same_labels_refl : Reflexive same_labels.
Proof. intros st. by split. Qed.

Lemma same_labels_trans : Transitive same_labels.
Proof. intros a b c [H1 H2] [H3 H4]. split; congruence. Qed.

Lemma same_labels_tally a b : same_labels a b -> tally b = tally a.
Proof. intros [Hm Hc]. unfold tally. by rewrite Hm, Hc. Qed.

Lemma no_excess_refl : Reflexive no_excess.
Proof. intros st. unfold no_excess. lia. Qed.

Lemma no_excess_trans : Transitive no_excess.
Proof. intros a b c. unfold no_excess. lia. Qed.

Lemma same_labels_no_excess a b : same_labels a b -> no_excess a b.
Proof. intros H. unfold no_excess. rewrite (same_labels_tally a b H). lia. Qed.

Lemma same_labels_step image_id a b : same_labels a b -> labels_step image_id a b.
Proof.
  intros H _. split; [by apply same_labels_tally |].
  destruct H as [Hm _]. rewrite Hm. auto.
Qed.

Lemma same_labels_then_step image_id a b c :
  same_labels a b -> labels_step image_id b c -> labels_step image_id a c.
Proof.
  intros Hab Hbc Hfresh. pose proof (same_labels_tally a b Hab) as Ht.
  destruct Hab as [Hm _]. rewrite <- Hm, <- Ht. apply Hbc.
  by rewrite Hm.
Qed.

Section Labels.
Context {cv : Cv2}.

Lemma crop_loop_same_labels image image_id objs :
  forall idx acc, preserves same_labels (crop_loop image image_id objs idx acc).
Proof.
  induction objs as [| [[[x y] w] h] rest IH]; intros idx acc; cbn [crop_loop].
  - apply preserves_ret, same_labels_refl.
  - destruct image; [| apply preserves_raise, same_labels_refl].
    apply preserves_bind; [exact same_labels_trans | | intros _; apply IH].
    intros st. by split.
Qed.

(** Up to the annotation loop, [process_image] leaves the globals alone;
    what the loop keeps, processing the image keeps. *)
Lemma process_image_frame (R : State -> State -> Prop)
    images_dir labels_dir image_file :
  (forall a b, same_labels a b -> R a b) ->
  (forall a b c, same_labels a b -> R b c -> R a c) ->
  (forall file W H objs,
     preserves R (annotate_loop (fst (Py.splitext image_file)) file W H objs 0)) ->
  preserves R (process_image images_dir labels_dir image_file).
Proof.
  intros Hsub Hcomp Hloop. unfold process_image.
  apply (preserves_bind_frame same_labels R); [exact Hsub | exact Hcomp | |].
  { intros st. rewrite detect_objects_state. apply same_labels_refl. }
  intros [| o rest].
  { intros st. apply Hsub, same_labels_refl. }
  apply (preserves_bind_frame same_labels R); [exact Hsub | exact Hcomp | |].
  { unfold save_cropped_objects.
    apply preserves_bind; [exact same_labels_trans | |].
    - intros st. apply same_labels_refl.
    - intros image. apply crop_loop_same_labels. }
  intros _.
  apply (preserves_bind_frame same_labels R); [exact Hsub | exact Hcomp | |].
  { intros st. unfold shutil_copy.
    destruct (fs st !! _); [| apply same_labels_refl].
    destruct (String.eqb _ _); [apply same_labels_refl | by split]. }
  intros _.
  apply (preserves_bind_frame same_labels R); [exact Hsub | exact Hcomp | |].
  { intros st. apply same_labels_refl. }
  intros [img |]; [| intros st; apply Hsub, same_labels_refl].
  apply (preserves_bind_frame same_labels R); [exact Hsub | exact Hcomp | |].
  { intros st. by split. }
  intros _. apply Hloop.
Qed.

Lemma annotate_loop_no_excess image_id file W H objs :
  forall idx, preserves no_excess (annotate_loop image_id file W H objs idx).
Proof.
  induction objs as [| obj rest IH]; intros idx st.
  - apply no_excess_refl.
  - destruct (yolo_box W H obj) as [[[[xc yc] bw] bh] | e] eqn:Hy.
    + rewrite (annotate_loop_cons_ok _ _ _ _ _ _ _ _ _ _ _ _ Hy).
      eapply no_excess_trans; [| apply IH].
      unfold no_excess, tally. cbn [class_map class_counter].
      rewrite map_size_insert. destruct (class_map st !! _); cbn; lia.
    + rewrite (annotate_loop_cons_raise _ _ _ _ _ _ _ _ _ Hy).
      apply no_excess_refl.
Qed.

Lemma annotate_loop_labels image_id file W H objs :
  forall idx st,
    0 <= idx ->
    (forall j, idx <= j -> class_map st !! class_key image_id j = None) ->
    let st' := snd (annotate_loop image_id file W H objs idx st) in
    tally st' = tally st /\
    forall key, is_Some (class_map st' !! key) ->
      is_Some (class_map st !! key) \/
      exists j, idx <= j /\ key = class_key image_id j.
Proof.
  induction objs as [| obj rest IH]; intros idx st Hidx Hfresh.
  - cbn. auto.
  - destruct (yolo_box W H obj) as [[[[xc yc] bw] bh] | e] eqn:Hy.
    + cbn zeta. rewrite (annotate_loop_cons_ok _ _ _ _ _ _ _ _ _ _ _ _ Hy).
      match goal with
      | |- context [annotate_loop _ _ _ _ rest (idx + 1) ?s] =>
          destruct (IH (idx + 1) s) as [Ht Hk]
      end.
      { lia. }
      { intros j Hj. cbn [class_map]. rewrite lookup_insert_ne; [apply Hfresh; lia |].
        intros E. apply class_key_inj in E; lia. }
      cbn zeta in Ht, Hk. split.
      * rewrite Ht. unfold tally. cbn [class_map class_counter].
        rewrite map_size_insert, (Hfresh idx) by lia. cbn. lia.
      * intros key Hkey. destruct (Hk key Hkey) as [Hin | (j & Hj & ->)].
        -- cbn [class_map] in Hin. apply lookup_insert_is_Some in Hin.
           destruct Hin as [<- | [_ Hin]]; [right; exists idx; split; [lia | done] | by left].
        -- right. exists j. split; [lia | done].
    + cbn zeta. rewrite (annotate_loop_cons_raise _ _ _ _ _ _ _ _ _ Hy).
      cbn. auto.
Qed.

Lemma process_image_no_excess images_dir labels_dir image_file :
  preserves no_excess (process_image images_dir labels_dir image_file).
Proof.
  apply process_image_frame.
  - exact same_labels_no_excess.
  - intros a b c Hab Hbc. eapply no_excess_trans; [| exact Hbc].
    by apply same_labels_no_excess.
  - intros file W H objs. apply annotate_loop_no_excess.
Qed.

Lemma process_images_no_excess files images_dir labels_dir :
  preserves no_excess (process_images files images_dir labels_dir).
Proof.
  induction files as [| f rest IH]; cbn [process_images].
  - apply preserves_ret, no_excess_refl.
  - apply preserves_bind; [exact no_excess_trans | | intros _; exact IH].
    apply process_image_no_excess.
Qed.

Lemma process_image_labels images_dir labels_dir image_file :
  preserves (labels_step (fst (Py.splitext image_file)))
            (process_image images_dir labels_dir image_file).
Proof.
  apply process_image_frame.
  - apply same_labels_step.
  - apply same_labels_then_step.
  - intros file W H objs st Hfresh.
    destruct (annotate_loop_labels (fst (Py.splitext image_file)) file W H objs
                0 st ltac:(lia) ltac:(intros j Hj; apply Hfresh; lia))
      as [Ht Hk].
    split; [exact Ht |]. intros key Hkey.
    destruct (Hk key Hkey) as [? | (j & ? & ->)]; [by left | right; eauto].
Qed.

Lemma keys_from_subseteq ids ids' st :
  ids ⊆ ids' -> keys_from ids st -> keys_from ids' st.
Proof.
  intros Hsub Hk key Hkey. destruct (Hk key Hkey) as (id & i & Hin & Hi & ->).
  exists id, i. split_and!; [by apply Hsub | done | done].
Qed.

Lemma process_images_cons_ok f rest images_dir labels_dir st st1 :
  process_image images_dir labels_dir f st = (Ok tt, st1) ->
  process_images (f :: rest) images_dir labels_dir st
  = process_images rest images_dir labels_dir st1.
Proof. intros H. cbn [process_images]. by rewrite (bind_ok _ _ _ _ _ H). Qed.

Lemma process_images_cons_raise f rest images_dir labels_dir st e st1 :
  process_image images_dir labels_dir f st = (Raise e, st1) ->
  process_images (f :: rest) images_dir labels_dir st = (Raise e, st1).
Proof. intros H. cbn [process_images]. by rewrite (bind_raise _ _ _ _ _ H). Qed.

(** With pairwise distinct image ids, none of them used before, every id
    handed out adds an entry to [class_map]. *)
Lemma process_images_labels files images_dir labels_dir :
  forall ids st,
    NoDup (map (fun f => fst (Py.splitext f)) files) ->
    (forall f, f ∈ files -> fst (Py.splitext f) ∉ ids) ->
    keys_from ids st ->
    let st' := snd (process_images files images_dir labels_dir st) in
    tally st' = tally st /\
    keys_from (map (fun f => fst (Py.splitext f)) files ++ ids) st'.
Proof.
  induction files as [| f rest IH]; intros ids st Hnd Hnew Hkeys.
  - cbn. auto.
  - cbn [map] in Hnd. apply NoDup_cons in Hnd as [Hf Hnd].
    set (id := fst (Py.splitext f)) in *.
    assert (Hfresh : forall j, 0 <= j -> class_map st !! class_key id j = None).
    { intros j Hj. destruct (class_map st !! class_key id j) eqn:E; [| done].
      exfalso. destruct (Hkeys _ (mk_is_Some _ _ E)) as (id' & i & Hin & Hi & Hk).
      apply class_key_inj in Hk as [Hid _]; [| lia | lia].
      rewrite <- Hid in Hin.
      apply (Hnew f); [apply list_elem_of_here | exact Hin]. }
    pose proof (process_image_labels images_dir labels_dir f st Hfresh)
      as [Ht Hk]. fold id in Hk.
    assert (Hkeys1 : keys_from (id :: ids)
                       (snd (process_image images_dir labels_dir f st))).
    { intros key Hkey. destruct (Hk key Hkey) as [Hin | (j & Hj & ->)].
      - destruct (Hkeys key Hin) as (id' & i & Hin' & Hi & ->).
        exists id', i. split_and!; [by apply list_elem_of_further | done | done].
      - exists id, j. split_and!; [apply list_elem_of_here | done | done]. }
    cbn zeta.
    destruct (process_image images_dir labels_dir f st) as [[[] | e] st1]
      eqn:Hrun; cbn [snd] in *.
    + rewrite (process_images_cons_ok _ _ _ _ _ _ Hrun).
      destruct (IH (id :: ids) st1 Hnd) as [Ht' Hk']; [| exact Hkeys1 |].
      { intros f' Hf' Hin. apply elem_of_cons in Hin as [Hin | Hin].
        - apply Hf. rewrite <- Hin. apply list_elem_of_fmap. by exists f'.
        - apply (Hnew f'); [by apply list_elem_of_further | exact Hin]. }
      cbn zeta in Ht', Hk'. split; [congruence |].
      eapply keys_from_subseteq; [| exact Hk'].
      cbn [map]. fold id. intros x.
      repeat (rewrite elem_of_app || rewrite elem_of_cons). tauto.
    + rewrite (process_images_cons_raise _ _ _ _ _ _ _ Hrun). cbn [snd].
      split; [exact Ht |].
      eapply keys_from_subseteq; [| exact Hkeys1].
      cbn [map]. fold id. intros x.
      repeat (rewrite elem_of_app || rewrite elem_of_cons). tauto.
Qed.

End Labels.

Lemma norm_index_range n k : 0 <= n -> 0 <= Py.norm_index n k <= n.
Proof. intros Hn. unfold Py.norm_index. destruct (Z.ltb_spec k 0); lia. Qed.

(** Whatever the index, [l[:k] + l[k:]] is [l]. *)
Lemma slice_to_from {A} (l : list A) k : Py.slice_to l k ++ Py.slice_from l k = l.
Proof.
  unfold Py.slice_to, Py.slice_from, Py.slice.
  pose proof (norm_index_range (Z.of_nat (length l)) k ltac:(lia)) as Hk.
  assert (E0 : Py.norm_index (Z.of_nat (length l)) 0 = 0).
  { unfold Py.norm_index. destruct (Z.ltb_spec 0 0); lia. }
  assert (En : Py.norm_index (Z.of_nat (length l)) (Z.of_nat (length l))
               = Z.of_nat (length l)).
  { unfold Py.norm_index. destruct (Z.ltb_spec (Z.of_nat (length l)) 0); lia. }
  rewrite E0, En, Z.sub_0_r. change (Z.to_nat 0) with 0%nat.
  rewrite drop_0.
  rewrite (take_ge (drop _ l)) by (rewrite length_drop; lia).
  apply take_drop.
Qed.

Section LabelMap.
Context {cv : Cv2}.

Lemma main_no_excess listing shuffle files :
  let st := snd (main listing shuffle (initial_state files)) in
  Z.of_nat (size (class_map st)) <= class_counter st.
Proof.
  assert (N : preserves no_excess (main listing shuffle)).
  { unfold main. apply preserves_bind; [exact no_excess_trans | | intros _];
      apply process_images_no_excess. }
  specialize (N (initial_state files)). unfold no_excess, tally in N.
  cbn [initial_state class_map class_counter] in N.
  rewrite map_size_empty in N. cbn zeta. lia.
Qed.

Lemma main_exact_labels listing shuffle files :
  NoDup (map (fun f => fst (Py.splitext f)) (shuffle (image_files listing))) ->
  let st := snd (main listing shuffle (initial_state files)) in
  Z.of_nat (size (class_map st)) = class_counter st /\
  size (class_map st) = length (lines_of (trace st)).
Proof.
  intros Hnd. cbn zeta.
  set (l := shuffle (image_files listing)) in *.
  set (st0 := initial_state files).
  assert (Ht : tally (snd (main listing shuffle st0)) = tally st0).
  { rewrite <- (slice_to_from l (split_index l)) in Hnd.
    rewrite map_app in Hnd. apply NoDup_app in Hnd as (Hn1 & Hdisj & Hn2).
    unfold main. fold l. fold (train_files l) (val_files l) in *.
    destruct (process_images_labels (train_files l) train_images_dir
                train_labels_dir [] st0 Hn1) as [Ht1 Hk1].
    { intros f _ Hin. by apply elem_of_nil in Hin. }
    { intros key [z Hz]. cbn in Hz. by rewrite lookup_empty in Hz. }
    cbn zeta in Ht1, Hk1. rewrite app_nil_r in Hk1.
    unfold bind.
    destruct (process_images (train_files l) train_images_dir
                train_labels_dir st0) as [[[] | e] st1]; cbn [snd] in *;
      [| exact Ht1].
    destruct (process_images_labels (val_files l) val_images_dir
                val_labels_dir
                (map (fun f => fst (Py.splitext f)) (train_files l)) st1 Hn2)
      as [Ht2 _]; [| exact Hk1 |].
    { intros f Hf Hin. apply (Hdisj _ Hin).
      apply list_elem_of_fmap. by exists f. }
    cbn zeta in Ht2. congruence. }
  unfold tally in Ht. cbn [st0 initial_state class_map class_counter] in Ht.
  rewrite map_size_empty in Ht.
  pose proof (main_ids_consecutive listing shuffle files) as Hids.
  cbn zeta in Hids. fold st0 in Hids.
  split; [lia |].
  apply (f_equal length) in Hids. unfold ids_of in Hids.
  rewrite length_map, length_seqZ in Hids. lia.
Qed.

End LabelMap.

(** *** Copies *)

Lemma copies_of_app evs1 evs2 :
  copies_of (evs1 ++ evs2) = copies_of evs1 ++ copies_of evs2.
Proof. unfold copies_of. apply omap_app. Qed.

Lemma copies_of_writes file lines : copies_of (map (FWrite file) lines) = [].
Proof. unfold copies_of. induction lines as [| l rest IH]; [done | exact IH]. Qed.

Lemma copies_le_refl n st : copies_le n st st.
Proof. exists []. rewrite app_nil_r. split; [done | cbn; lia]. Qed.

Lemma copies_le_weaken n k st st' :
  (n <= k)%nat -> copies_le n st st' -> copies_le k st st'.
Proof. intros Hnk (evs & Ht & Hl). exists evs. split; [done | lia]. Qed.

Lemma copies_le_trans n k a b c :
  copies_le n a b -> copies_le k b c -> copies_le (n + k) a c.
Proof.
  intros (e1 & Ht1 & H1) (e2 & Ht2 & H2). exists (e1 ++ e2).
  rewrite Ht2, Ht1, <- app_assoc, copies_of_app, length_app.
  split; [done | lia].
Qed.

Lemma preserves_bind_copies {A B} n k (m : M A) (f : A -> M B) :
  preserves (copies_le n) m -> (forall x, preserves (copies_le k) (f x)) ->
  preserves (copies_le (n + k)) (bind m f).
Proof.
  intros Hm Hf st. unfold bind. specialize (Hm st).
  destruct (m st) as [[a | e] st1]; cbn in *.
  - eapply copies_le_trans; [exact Hm | apply Hf].
  - eapply copies_le_weaken; [| exact Hm]. lia.
Qed.

Section Copies.
Context {cv : Cv2}.

Lemma crop_loop_copies image image_id objs :
  forall idx acc, preserves (copies_le 0) (crop_loop image image_id objs idx acc).
Proof.
  induction objs as [| [[[x y] w] h] rest IH]; intros idx acc; cbn [crop_loop].
  - intros st. apply copies_le_refl.
  - destruct image; [| intros st; apply copies_le_refl].
    apply (preserves_bind_copies 0 0); [| intros _; apply IH].
    intros st. eexists [Imwrite _ _]. split; [reflexivity | cbn; lia].
Qed.

Lemma annotate_loop_copies image_id file W H objs idx :
  preserves (copies_le 0) (annotate_loop image_id file W H objs idx).
Proof.
  intros st.
  destruct (annotate_loop_spec image_id file W H objs idx st)
    as (lines & Ht & _). cbn zeta in Ht.
  exists (map (FWrite file) lines). split; [exact Ht |].
  rewrite copies_of_writes. cbn. lia.
Qed.

Lemma process_image_copies images_dir labels_dir image_file :
  preserves (copies_le 1) (process_image images_dir labels_dir image_file).
Proof.
  unfold process_image.
  apply (preserves_bind_copies 0 1).
  { intros st. rewrite detect_objects_state. apply copies_le_refl. }
  intros [| o rest]; [intros st; apply copies_le_refl |].
  apply (preserves_bind_copies 0 1).
  { unfold save_cropped_objects. apply (preserves_bind_copies 0 0).
    - intros st. apply copies_le_refl.
    - intros image. apply crop_loop_copies. }
  intros _. apply (preserves_bind_copies 1 0).
  { intros st. unfold shutil_copy.
    destruct (fs st !! _); [| apply copies_le_refl].
    destruct (String.eqb _ _); [apply copies_le_refl |].
    exists [Copy (Py.path_join image_dir image_file)
                 (Py.path_join images_dir
                    (Py.basename (Py.path_join image_dir image_file)))].
    split; [done | cbn; lia]. }
  intros _. apply (preserves_bind_copies 0 0).
  { intros st. apply copies_le_refl. }
  intros [img |]; [| intros st; apply copies_le_refl].
  apply (preserves_bind_copies 0 0).
  { intros st. eexists [OpenW _]. split; [reflexivity | cbn; lia]. }
  intros _. apply annotate_loop_copies.
Qed.

Lemma process_images_copies files images_dir labels_dir :
  preserves (copies_le (length files))
            (process_images files images_dir labels_dir).
Proof.
  induction files as [| f rest IH]; cbn [process_images].
  - intros st. apply copies_le_refl.
  - apply (preserves_bind_copies 1 (length rest));
      [apply process_image_copies | intros _; exact IH].
Qed.

Lemma main_copies_le listing shuffle files :
  let l := shuffle (image_files listing) in
  let st := snd (main listing shuffle (initial_state files)) in
  (length (copies_of (trace st)) <= length l)%nat.
Proof.
  intros l.
  assert (N : preserves (copies_le (length (train_files l)
                                    + length (val_files l)))
                        (main listing shuffle)).
  { unfold main. fold l. apply preserves_bind_copies; [| intros _];
      apply process_images_copies. }
  destruct (N (initial_state files)) as (evs & Ht & Hl).
  cbn zeta. cbn [initial_state trace] in Ht. rewrite Ht, app_nil_l.
  rewrite <- length_app in Hl. unfold train_files, val_files in Hl.
  by rewrite slice_to_from in Hl.
Qed.

End Copies.

(** *** Files left on disk *)



Section Files.
Context {cv : Cv2}.




End Files.

(** ** The claims *)

Section Claims.
Context {cv : Cv2}.

(** C1. With two images that differ only in extension, one region each,
    the run completes and writes the ids 0 and 1, yet [class_map] ends
    with a single entry for the two regions detected: both regions get
    the key [a_object_1]. *)
Theorem C1_same_stem_loses_label_map_entry :
  let st0 := initial_state same_stem_dir in
  let res := main (cv := toy_cv) ["a.png"; "a.jpg"] id st0 in
  fst (detect_objects (cv := toy_cv) (Py.path_join image_dir "a.png") st0)
  = Ok [(0, 0, 30, 30)] /\
  fst (detect_objects (cv := toy_cv) (Py.path_join image_dir "a.jpg") st0)
  = Ok [(0, 0, 30, 30)] /\
  fst res = Ok tt /\
  ids_of (trace (snd res)) = [0; 1] /\
  map_to_list (class_map (snd res)) = [("a_object_1", 1)] /\
  size (class_map (snd res)) = 1%nat.
Proof. vm_compute. repeat split. Qed.

(** C2. Every annotation line written for an image has its centre and its
    extent within [0, 1], provided each region lies within the image
    (whose decoded dimensions are positive and, as any array's, below
    [2^52]). *)
Theorem C2_normalized_coordinates_in_unit_interval
    images_dir labels_dir image_file st img :
  (images_dir, labels_dir) ∈ out_dirs ->
  fs st !! Py.path_join image_dir image_file = Some (ImageFile img) ->
  mat_empty img = false ->
  (forall r, r ∈ filter_contours (find_contours img) [] ->
             inside (mat_width img) (mat_height img) r) ->
  mat_width img < 2 ^ 52 -> mat_height img < 2 ^ 52 ->
  forall file line,
    (file, line) ∈ lines_of
       (new_events st
          (snd (process_image images_dir labels_dir image_file st))) ->
    line_in_unit line.
Proof.
  intros Hdirs Hf He Hin HW HH file line Hline.
  destruct (filter_contours (find_contours img) []) as [| o rest] eqn:Hobjs.
  { exfalso.
    assert (Hd : fst (detect_objects (Py.path_join image_dir image_file) st)
                 = Ok []).
    { rewrite (detect_objects_some _ _ _ Hf He), Hobjs. reflexivity. }
    rewrite (process_image_no_regions images_dir labels_dir image_file st Hd)
      in Hline.
    cbn [snd] in Hline. unfold new_events in Hline.
    rewrite drop_all in Hline. by apply elem_of_nil in Hline. }
  destruct (process_image_outputs images_dir labels_dir image_file st img
              Hdirs Hf He) as (lines & _ & _ & Hlines & _ & _ & Hl).
  { rewrite Hobjs. discriminate. }
  cbn zeta in Hlines. rewrite Hlines in Hline.
  apply list_elem_of_fmap in Hline as (l & [= -> ->] & Hl').
  apply list_elem_of_lookup in Hl' as [i Hi].
  destruct (Hl i l Hi) as (obj & xc & yc & bw & bh & Ho & Hy & ->).
  rewrite Hobjs in Ho. apply list_elem_of_lookup_2 in Ho.
  rewrite <- Hobjs in Ho.
  destruct obj as [[[x y] w] h].
  destruct (filter_contours_large _ _ _ _ _ Ho) as [Hw Hh].
  unfold line_in_unit. cbn.
  apply (yolo_box_unit (mat_width img) (mat_height img) x y w h);
    [apply Hin; rewrite <- Hobjs; exact Ho
    | lia | lia | exact HW | exact HH | exact Hy].
Qed.

(** C3. Two images of the training part share the stem [a]: [a.png]
    has two regions and [a.jpg], processed after it, has one.  The run
    completes and writes three annotation lines for them, yet the
    annotation file [a.txt] that goes with both copies ends with the one
    line of [a.jpg], and the crop file numbered 1 holds the region of
    [a.jpg]: for [a.png], two regions stand against one line, and its
    first crop file shows another image.  A second input: for an image
    with one region whose name is 249 bytes long, the line is written
    and no crop file is, since [cv2.imwrite] returns [False] for the 258
    bytes of the crop's name and the script drops that value. *)
Theorem C3_shared_stem_breaks_alignment :
  let listing := ["a.png"; "a.jpg"; "b.png"] in
  let st0 := initial_state shared_stem_dir in
  let res := main (cv := toy_cv) listing id st0 in
  let st := snd res in
  let long := main (cv := toy_cv) [long_name] id
                   (initial_state long_name_dir) in
  train_files listing = ["a.png"; "a.jpg"] /\
  regions (cv := toy_cv) st0 "a.png" = [(0, 0, 30, 30); (0, 0, 30, 30)] /\
  regions (cv := toy_cv) st0 "a.jpg" = [(0, 0, 30, 30)] /\
  fst res = Ok tt /\
  map (fun pl => (fst pl, class_id (snd pl))) (lines_of (trace st))
  = [("/content/dataset/labels/train/a.txt", 0);
     ("/content/dataset/labels/train/a.txt", 1);
     ("/content/dataset/labels/train/a.txt", 2);
     ("/content/dataset/labels/val/b.txt", 3)] /\
  fs st !! "/content/dataset/images/train/a.png"
  = Some (ImageFile (img_regions 2)) /\
  fs st !! "/content/dataset/images/train/a.jpg"
  = Some (ImageFile (img_regions 1)) /\
  fs st !! "/content/dataset/labels/train/a.txt"
  = Some (LabelFile [{| class_id := 2; x_center := 15 # 32;
                        y_center := 15 # 32; box_width := 15 # 16;
                        box_height := 15 # 16 |}]) /\
  fs st !! "/content/dataset/unknown_objects2/a_object_1.png"
  = Some (ImageFile (blank 30 30 (1, 30, 30))) /\
  fs st !! "/content/dataset/unknown_objects2/a_object_2.png"
  = Some (ImageFile (blank 30 30 (2, 30, 30))) /\
  String.length long_name = 249%nat /\
  fst long = Ok tt /\
  length (lines_of (trace (snd long))) = 1%nat /\
  length (crops_of (trace (snd long))) = 1%nat /\
  fs (snd long) !! crop_path (fst (Py.splitext long_name)) 0 = None /\
  size (fs (snd long)) = 3%nat.
Proof. vm_compute. repeat split. Qed.

(** C4. The enumerator matches suffixes case-sensitively: a name with an
    upper-case extension is left out, although it ends with a recognized
    extension once lower-cased. *)
Theorem C4_upper_case_extension_left_out :
  image_files ["A.PNG"; "b.png"; "c.JPG"; "d.jpeg"] = ["b.png"; "d.jpeg"] /\
  Py.endswith_any "A.PNG" [".png"; ".jpg"; ".jpeg"] = false.
Proof. split; reflexivity. Qed.

(** C5. An image for which [detect_objects] returns no region is skipped:
    processing it completes and leaves the whole state as it was, so no
    crop is exported, the image is not copied, no annotation file is
    created, and [class_counter] and [class_map] are unchanged. *)
Theorem C5_zero_regions_skipped images_dir labels_dir image_file st :
  fst (detect_objects (Py.path_join image_dir image_file) st) = Ok [] ->
  process_image images_dir labels_dir image_file st = (Ok tt, st) /\
  let st' := snd (process_image images_dir labels_dir image_file st) in
  new_events st st' = [] /\ fs st' = fs st /\
  class_counter st' = class_counter st /\ class_map st' = class_map st.
Proof.
  intros Hd.
  pose proof (process_image_no_regions images_dir labels_dir image_file st Hd)
    as E.
  split; [exact E |]. rewrite E. cbn.
  split_and!; try reflexivity.
  unfold new_events. apply drop_all.
Qed.

(** C6. For the enumerated, shuffled list of [N] images (fewer than
    [2^50]), [split_index] is [floor(0.8 * N)]; the training call of
    [process_images] gets the first [floor(0.8 * N)] images and the
    validation call the remaining [N - floor(0.8 * N)], both lists being
    computed from the shuffled list alone, before any image is read. *)
Theorem C6_split_at_floor_eight_tenths listing shuffle :
  let shuffled := shuffle (image_files listing) in
  let N := Z.of_nat (length shuffled) in
  N < 2 ^ 50 ->
  let k := Qfloor ((8 # 10) * inject_Z N) in
  split_index shuffled = k /\
  train_files shuffled = take (Z.to_nat k) shuffled /\
  val_files shuffled = drop (Z.to_nat k) shuffled /\
  Z.of_nat (length (train_files shuffled)) = k /\
  Z.of_nat (length (val_files shuffled)) = N - k /\
  main listing shuffle
  = (let* _ := process_images (take (Z.to_nat k) shuffled)
                              train_images_dir train_labels_dir in
     process_images (drop (Z.to_nat k) shuffled)
                    val_images_dir val_labels_dir).
Proof.
  intros shuffled N HN k.
  assert (Hs : split_index shuffled = 4 * N / 5).
  { unfold split_index. apply int_mul_split_ratio; lia. }
  assert (Hk : split_index shuffled = k).
  { unfold k. rewrite floor_eight_tenths. exact Hs. }
  assert (Hb : 0 <= k <= N).
  { rewrite <- Hk, Hs. split; [apply Z.div_pos; lia |].
    apply Z.div_le_upper_bound; lia. }
  assert (Ht : train_files shuffled = take (Z.to_nat k) shuffled).
  { unfold train_files. rewrite Hk. by apply slice_to_take. }
  assert (Hv : val_files shuffled = drop (Z.to_nat k) shuffled).
  { unfold val_files. rewrite Hk. by apply slice_from_drop. }
  split_and!; [exact Hk | exact Ht | exact Hv | | |].
  - rewrite Ht, length_take. lia.
  - rewrite Hv, length_drop. lia.
  - unfold main. fold shuffled. by rewrite Ht, Hv.
Qed.

(** C7. When the image cannot be decoded ([cv2.imread] yields [None]),
    [detect_objects] raises the OpenCV error of [cv2.cvtColor]; it does not
    return a list, empty or not. *)
Theorem C7_undecodable_image_raises image_path st :
  fst (imread image_path st) = Ok None ->
  detect_objects image_path st = (Raise Cv2Error, st) /\
  forall regions, fst (detect_objects image_path st) <> Ok regions.
Proof.
  intros Hr.
  assert (E : detect_objects image_path st = (Raise Cv2Error, st)).
  { unfold detect_objects, bind. rewrite imread_spec in *. cbn in Hr.
    injection Hr as ->. reflexivity. }
  split; [exact E |]. intros regions. rewrite E. discriminate.
Qed.

(** C8. On an image that decodes, [detect_objects] returns the bounding
    rectangles of the contours found in it whose width and height both
    exceed 20, in the order of the contours, and no other: a contour's
    rectangle is kept exactly when both exceed 20.  A contour with width
    or height at most 20 (15 by 15, say) is dropped, and an image whose
    only contour is such yields no region. *)
Theorem C8_size_filter :
  (forall image_path st img,
     fs st !! image_path = Some (ImageFile img) -> mat_empty img = false ->
     exists regions,
       detect_objects image_path st = (Ok regions, st) /\
       regions
       = List.filter (fun '(x, y, w, h) => (20 <? w) && (20 <? h))
                     (map boundingRect (find_contours img)) /\
       forall x y w h,
         (x, y, w, h) ∈ regions <->
         (exists c, c ∈ find_contours img /\ boundingRect c = (x, y, w, h)) /\
         20 < w /\ 20 < h) /\
  (forall contours x y w h,
     (x, y, w, h) ∈ filter_contours contours [] <->
     (exists c, c ∈ contours /\ boundingRect c = (x, y, w, h)) /\
     20 < w /\ 20 < h) /\
  (forall image_path st img c x y w h,
     fs st !! image_path = Some (ImageFile img) -> mat_empty img = false ->
     find_contours img = [c] -> boundingRect c = (x, y, w, h) ->
     w <= 20 \/ h <= 20 ->
     detect_objects image_path st = (Ok [], st)).
Proof.
  assert (Hiff : forall contours x y w h,
            (x, y, w, h) ∈ filter_contours contours [] <->
            (exists c, c ∈ contours /\ boundingRect c = (x, y, w, h)) /\
            20 < w /\ 20 < h).
  { intros contours x y w h.
    rewrite filter_contours_spec, app_nil_l.
    rewrite list_elem_of_In, filter_In, <- list_elem_of_In.
    rewrite list_elem_of_fmap, andb_true_iff, !Z.ltb_lt. split.
    - intros [(c & Hb & Hc) Hwh].
      split; [exists c; split; [exact Hc | by rewrite Hb] | exact Hwh].
    - intros [(c & Hc & Hb) Hwh].
      split; [exists c; split; [by rewrite Hb | exact Hc] | exact Hwh]. }
  split_and!.
  - intros image_path st img Hf He.
    exists (filter_contours (find_contours img) []). split_and!.
    + exact (detect_objects_some _ _ _ Hf He).
    + by rewrite filter_contours_spec, app_nil_l.
    + intros x y w h. apply Hiff.
  - exact Hiff.
  - intros image_path st img c x y w h Hf He Hc Hb Hsmall.
    rewrite (detect_objects_some _ _ _ Hf He), Hc. cbn. rewrite Hb.
    destruct (Z.ltb_spec 20 w), (Z.ltb_spec 20 h); cbn; try reflexivity; lia.
Qed.

(** C9. In a run, the training files are processed to completion before
    the validation files, so every placeholder id written for a training
    image is below every one written for a validation image. *)
Theorem C9_train_ids_below_val_ids (image_files : list string) st0 st1 r st2 :
  process_images (train_files image_files) train_images_dir train_labels_dir
                 st0 = (Ok tt, st1) ->
  process_images (val_files image_files) val_images_dir val_labels_dir
                 st1 = (r, st2) ->
  forall a b,
    a ∈ ids_of (new_events st0 st1) -> b ∈ ids_of (new_events st1 st2) ->
    a < b.
Proof.
  intros H1 H2 a b.
  pose proof (process_images_numbered (train_files image_files)
                train_images_dir train_labels_dir st0) as N1.
  pose proof (process_images_numbered (val_files image_files)
                val_images_dir val_labels_dir st1) as N2.
  rewrite H1 in N1. rewrite H2 in N2. cbn [snd] in N1, N2.
  destruct N1 as (e1 & Ht1 & Hi1 & Hc1). destruct N2 as (e2 & Ht2 & Hi2 & Hc2).
  rewrite (new_events_app _ _ _ Ht1), (new_events_app _ _ _ Ht2), Hi1, Hi2.
  rewrite !elem_of_seqZ. lia.
Qed.

(** C10. [save_cropped_objects] writes the region at 1-based position [N]
    to [{image_id}_object_{N}.png] in [unknown_objects_dir], whatever the
    extension of the source image, and returns these file names in region
    order; [process_images] is given no other directory for crops, so the
    crops of training and validation images all go there. *)
Theorem C10_crop_names_and_directory :
  (forall image_path detected_objects image_id st img,
     fs st !! image_path = Some (ImageFile img) -> mat_empty img = false ->
     let res := save_cropped_objects image_path detected_objects image_id st in
     let names :=
       imap (fun i _ =>
               image_id +:+ "_object_" +:+ pretty (Z.of_nat i + 1) +:+ ".png")
            detected_objects in
     fst res = Ok names /\
     crops_of (new_events st (snd res))
     = imap (fun i r =>
               (Py.path_join unknown_objects_dir
                  (image_id +:+ "_object_" +:+ pretty (Z.of_nat i + 1)
                            +:+ ".png"),
                crop_of_rect img r)) detected_objects /\
     Forall (fun name => Py.endswith name ".png" = true) names) /\
  (forall files images_dir labels_dir st path crop,
     (path, crop) ∈ crops_of
        (new_events st
           (snd (process_images files images_dir labels_dir st))) ->
     exists name, path = Py.path_join unknown_objects_dir name).
Proof.
  split.
  - intros image_path objs image_id st img Hf He res names.
    destruct (save_cropped_objects_spec image_path objs image_id st img Hf He)
      as (st' & Hrun & Ht & _).
    subst res. rewrite Hrun. cbn [fst snd].
    rewrite (new_events_app _ _ _ Ht). split_and!.
    + reflexivity.
    + apply (crops_of_imwrites (fun i _ => crop_path image_id i)
                               (fun _ r => crop_of_rect img r)).
    + apply Forall_forall. intros name Hin. subst names.
      apply elem_of_lookup_imap in Hin as (i & r & -> & _).
      do 2 apply endswith_prepend. apply endswith_app.
  - intros files images_dir labels_dir st path crop Hin.
    destruct (process_images_review_dir files images_dir labels_dir st)
      as (evs & Ht & Hall).
    rewrite (new_events_app _ _ _ Ht) in Hin. eauto.
Qed.

End Claims.

(** ** Further properties of the run *)

Section Run.
Context {cv : Cv2}.

(** X1. In every run, completed or not, the placeholder ids written to
    the annotation files are [0, 1, 2, ...] in the order of writing: no id
    is written twice, and a later line carries a larger id. *)
Theorem X1_ids_unique_and_increasing listing shuffle files :
  let st := snd (main listing shuffle (initial_state files)) in
  ids_of (trace st) = seqZ 0 (class_counter st) /\
  NoDup (ids_of (trace st)) /\
  forall (i j : nat) a b,
    ids_of (trace st) !! i = Some a -> ids_of (trace st) !! j = Some b ->
    (i < j)%nat -> a < b.
Proof.
  cbn zeta. pose proof (main_ids_consecutive listing shuffle files) as E.
  cbn zeta in E. rewrite E. split_and!.
  - reflexivity.
  - apply NoDup_seqZ.
  - intros i j a b Hi Hj Hij.
    apply lookup_seqZ in Hi as [-> _]. apply lookup_seqZ in Hj as [-> _]. lia.
Qed.

(** X2. The enumerator keeps exactly the listed names that end, as
    written, in [.png], [.jpg] or [.jpeg]. *)
Theorem X2_enumerator_selection listing f :
  f ∈ image_files listing <->
  f ∈ listing /\
  (exists p, f = p +:+ ".png" \/ f = p +:+ ".jpg" \/ f = p +:+ ".jpeg").
Proof. apply image_files_elem. Qed.

(** X3. In every run [class_map] ends with at most one entry per
    placeholder id handed out. *)
Theorem X3_label_map_at_most_one_entry_per_id listing shuffle files :
  let st := snd (main listing shuffle (initial_state files)) in
  Z.of_nat (size (class_map st)) <= class_counter st.
Proof. apply main_no_excess. Qed.

(** X4. When the images of the run have pairwise distinct ids (names
    without extension), [class_map] ends with exactly one entry per
    placeholder id handed out, hence per annotation line written. *)
Theorem X4_label_map_one_entry_per_id listing shuffle files :
  NoDup (map (fun f => fst (Py.splitext f)) (shuffle (image_files listing))) ->
  let st := snd (main listing shuffle (initial_state files)) in
  Z.of_nat (size (class_map st)) = class_counter st /\
  size (class_map st) = length (lines_of (trace st)).
Proof. apply main_exact_labels. Qed.

(** X6. In every run, at most one image is copied per enumerated image:
    the training and validation sets together are no larger than the
    corpus. *)
Theorem X6_copies_at_most_images listing shuffle files :
  let l := shuffle (image_files listing) in
  let st := snd (main listing shuffle (initial_state files)) in
  (length (copies_of (trace st)) <= length l)%nat.
Proof. apply main_copies_le. Qed.


End Run.

(** ** Facts for the further properties *)

Section Frame.
Context {cv : Cv2}.
Variable R : State -> State -> Prop.
Hypothesis R_refl : Reflexive R.
Hypothesis R_trans : Transitive R.
Variables images_dir labels_dir : string.

Lemma crop_loop_preserves image image_file objs :
  primitives_keep R images_dir labels_dir image_file ->
  forall idx acc,
    0 <= idx ->
    preserves R (crop_loop image (fst (Py.splitext image_file)) objs idx acc).
Proof.
  intros (Hw & _).
  induction objs as [| [[[x y] w] h] rest IH]; intros idx acc Hidx;
    cbn [crop_loop].
  - by apply preserves_ret.
  - destruct image; [| by apply preserves_raise].
    apply preserves_bind; [exact R_trans | by apply Hw | intros _].
    apply IH. lia.
Qed.

Lemma annotate_loop_preserves image_file W H objs :
  primitives_keep R images_dir labels_dir image_file ->
  forall idx,
    0 <= idx ->
    preserves R
      (annotate_loop (fst (Py.splitext image_file))
         (Py.path_join labels_dir (fst (Py.splitext image_file) +:+ ".txt"))
         W H objs idx).
Proof.
  intros (_ & _ & _ & Hwrite & Hassign).
  induction objs as [| obj rest IH]; intros idx Hidx; cbn [annotate_loop].
  - by apply preserves_ret.
  - apply preserves_bind; [exact R_trans | intros st; apply R_refl |].
    intros [[[xc yc] bw] bh].
    apply preserves_bind; [exact R_trans | by apply Hassign | intros class_id].
    apply preserves_bind; [exact R_trans | apply Hwrite | intros _].
    apply IH. lia.
Qed.

Lemma process_image_preserves image_file :
  primitives_keep R images_dir labels_dir image_file ->
  preserves R (process_image images_dir labels_dir image_file).
Proof.
  intros Hkeep. pose proof Hkeep as (_ & Hcopy & Hopen & _).
  unfold process_image.
  apply preserves_bind; [exact R_trans | |].
  { intros st. rewrite detect_objects_state. apply R_refl. }
  intros [| o rest]; [by apply preserves_ret |].
  apply preserves_bind; [exact R_trans | | intros _].
  { unfold save_cropped_objects.
    apply preserves_bind; [exact R_trans | intros st; apply R_refl |].
    intros image. by apply crop_loop_preserves. }
  apply preserves_bind; [exact R_trans | exact Hcopy | intros _].
  apply preserves_bind; [exact R_trans | intros st; apply R_refl |].
  intros [img |]; [| by apply preserves_raise].
  apply preserves_bind; [exact R_trans | exact Hopen | intros _].
  by apply annotate_loop_preserves.
Qed.

Lemma process_images_preserves files :
  (forall f, f ∈ files -> primitives_keep R images_dir labels_dir f) ->
  preserves R (process_images files images_dir labels_dir).
Proof.
  induction files as [| f rest IH]; intros Hkeep; cbn [process_images].
  - by apply preserves_ret.
  - apply preserves_bind; [exact R_trans | |].
    + apply process_image_preserves, Hkeep, list_elem_of_here.
    + intros _. apply IH. intros g Hg. by apply Hkeep, list_elem_of_further.
Qed.

End Frame.


(** *** Which files a run may touch *)

Lemma writes_within_refl dirs : Reflexive (writes_within dirs).
Proof. intros st p. by left. Qed.

Lemma writes_within_trans dirs : Transitive (writes_within dirs).
Proof.
  intros a b c Hab Hbc p.
  destruct (Hbc p) as [E | H]; [| by right].
  rewrite E. apply Hab.
Qed.

Lemma writes_within_insert dirs d name c st st' :
  d ∈ dirs -> fs st' = <[Py.path_join d name := c]> (fs st) ->
  writes_within dirs st st'.
Proof.
  intros Hd Hfs p. rewrite Hfs.
  destruct (decide (p = Py.path_join d name)) as [-> | Hne].
  - right. rewrite lookup_insert_eq. eauto.
  - left. by apply lookup_insert_ne.
Qed.

Lemma writes_within_alter dirs d name g st st' :
  d ∈ dirs -> fs st' = alter g (Py.path_join d name) (fs st) ->
  writes_within dirs st st'.
Proof.
  intros Hd Hfs p. rewrite Hfs.
  destruct (decide (p = Py.path_join d name)) as [-> | Hne].
  - rewrite lookup_alter_eq.
    destruct (fs st !! Py.path_join d name) as [c |] eqn:E; cbn.
    + right. eauto.
    + by left.
  - left. by apply lookup_alter_ne.
Qed.

Lemma writes_within_same_fs dirs st st' :
  fs st' = fs st -> writes_within dirs st st'.
Proof. intros E p. left. by rewrite E. Qed.

Section Touched.
Context {cv : Cv2}.

Lemma writes_within_primitives images_dir labels_dir image_file :
  primitives_keep (writes_within [unknown_objects_dir; images_dir; labels_dir])
                  images_dir labels_dir image_file.
Proof.
  split_and!.
  - intros j img _ st.
    destruct (imwrite_ok (Py.path_join unknown_objects_dir
                (cropped_name (fst (Py.splitext image_file)) j)) img) eqn:Hw.
    + eapply (writes_within_insert _ unknown_objects_dir);
        [apply list_elem_of_here |].
      unfold imwrite. cbn [snd fs]. rewrite Hw. reflexivity.
    + apply writes_within_same_fs.
      unfold imwrite. cbn [snd fs]. by rewrite Hw.
  - intros st. unfold shutil_copy.
    destruct (fs st !! _); [| apply writes_within_refl].
    destruct (String.eqb _ _); [apply writes_within_refl |].
    eapply (writes_within_insert _ images_dir); [| reflexivity].
    apply list_elem_of_further, list_elem_of_here.
  - intros st.
    eapply (writes_within_insert _ labels_dir); [| reflexivity].
    do 2 apply list_elem_of_further. apply list_elem_of_here.
  - intros line st.
    eapply (writes_within_alter _ labels_dir); [| reflexivity].
    do 2 apply list_elem_of_further. apply list_elem_of_here.
  - intros j _ st. by apply writes_within_same_fs.
Qed.

Lemma process_images_writes_within files images_dir labels_dir :
  preserves (writes_within [unknown_objects_dir; images_dir; labels_dir])
            (process_images files images_dir labels_dir).
Proof.
  apply process_images_preserves.
  - apply writes_within_refl.
  - apply writes_within_trans.
  - intros f _. apply writes_within_primitives.
Qed.

Lemma writes_within_mono dirs dirs' st st' :
  dirs ⊆ dirs' -> writes_within dirs st st' -> writes_within dirs' st st'.
Proof.
  intros Hsub H p. destruct (H p) as [E | (Hs & d & name & Hd & ->)].
  - by left.
  - right. split; [exact Hs |]. exists d, name. split; [by apply Hsub | done].
Qed.

Lemma out_dirs_output images_dir labels_dir :
  (images_dir, labels_dir) ∈ out_dirs ->
  [unknown_objects_dir; images_dir; labels_dir] ⊆ output_dirs.
Proof.
  unfold out_dirs, output_dirs. intros Hin d Hd.
  apply elem_of_cons in Hin as [[= -> ->] | Hin];
    [| apply list_elem_of_singleton in Hin as [= -> ->]];
    repeat (apply elem_of_cons in Hd as [-> | Hd]);
    try (by apply elem_of_nil in Hd);
    repeat (rewrite elem_of_cons); tauto.
Qed.

Lemma main_writes_within listing shuffle :
  preserves (writes_within output_dirs) (main listing shuffle).
Proof.
  unfold main.
  apply preserves_bind; [apply writes_within_trans | | intros _]; intros st;
    (eapply writes_within_mono;
     [| apply process_images_writes_within]);
    apply out_dirs_output; unfold out_dirs;
    repeat (rewrite elem_of_cons); tauto.
Qed.

End Touched.

Lemma output_dirs_not_input d name f :
  d ∈ output_dirs -> Py.path_join d name <> Py.path_join image_dir f.
Proof.
  unfold output_dirs. intros Hd E.
  repeat (apply elem_of_cons in Hd as [-> | Hd]);
    try (by apply elem_of_nil in Hd);
    vm_compute in E; discriminate E.
Qed.

Lemma writes_within_input_kept st st' :
  writes_within output_dirs st st' -> input_kept st st'.
Proof.
  intros H f. destruct (H (Py.path_join image_dir f))
    as [E | (_ & d & name & Hd & E)]; [exact E |].
  symmetry in E. by apply output_dirs_not_input in E.
Qed.



(** *** When a run completes *)

Section Outcome.
Context {cv : Cv2}.

(** An image that does not decode stops [process_image] in
    [detect_objects], before anything is written. *)
Lemma process_image_undecodable images_dir labels_dir image_file st :
  decodes st image_file = false ->
  process_image images_dir labels_dir image_file st = (Raise Cv2Error, st).
Proof.
  unfold decodes, process_image, detect_objects, bind, imread.
  destruct (fs st !! Py.path_join image_dir image_file) as [[m | |] |];
    try reflexivity.
  destruct (mat_empty m); [reflexivity | discriminate].
Qed.


Lemma process_image_input_kept images_dir labels_dir image_file st :
  (images_dir, labels_dir) ∈ out_dirs ->
  input_kept st (snd (process_image images_dir labels_dir image_file st)).
Proof.
  intros Hdirs. apply writes_within_input_kept.
  eapply writes_within_mono; [by apply out_dirs_output |].
  pose proof (process_images_writes_within [image_file] images_dir labels_dir
                st) as H.
  cbn [process_images] in H. unfold bind in H.
  destruct (process_image images_dir labels_dir image_file st)
    as [[[] | e] st1]; exact H.
Qed.





Lemma process_images_input_kept files images_dir labels_dir st :
  (images_dir, labels_dir) ∈ out_dirs ->
  input_kept st (snd (process_images files images_dir labels_dir st)).
Proof.
  intros Hdirs. apply writes_within_input_kept.
  eapply writes_within_mono; [by apply out_dirs_output |].
  apply process_images_writes_within.
Qed.


End Outcome.

(** *** The ids recorded in the label map *)

Lemma keeps_ids_apart_refl : Reflexive keeps_ids_apart.
Proof. by intros st H. Qed.

Lemma keeps_ids_apart_trans : Transitive keeps_ids_apart.
Proof. intros a b c Hab Hbc H. by apply Hbc, Hab. Qed.

Lemma keeps_ids_apart_same st st' :
  class_map st' = class_map st -> class_counter st' = class_counter st ->
  keeps_ids_apart st st'.
Proof. intros Hm Hc. unfold keeps_ids_apart, ids_apart. by rewrite Hm, Hc. Qed.

Lemma assign_class_id_ids_apart key :
  preserves keeps_ids_apart (assign_class_id key).
Proof.
  intros st (Hc & Hb & Hinj). unfold ids_apart. cbn. split_and!.
  - lia.
  - intros k v Hk. destruct (decide (k = key)) as [-> | Hne].
    + rewrite lookup_insert_eq in Hk. injection Hk as <-. lia.
    + rewrite lookup_insert_ne in Hk by done. apply Hb in Hk. lia.
  - intros k1 k2 v H1 H2.
    destruct (decide (k1 = key)) as [-> | N1];
      destruct (decide (k2 = key)) as [-> | N2]; [done | | |].
    + rewrite lookup_insert_eq in H1. injection H1 as <-.
      rewrite lookup_insert_ne in H2 by done. apply Hb in H2. lia.
    + rewrite lookup_insert_eq in H2. injection H2 as <-.
      rewrite lookup_insert_ne in H1 by done. apply Hb in H1. lia.
    + rewrite lookup_insert_ne in H1, H2 by done. by eapply Hinj.
Qed.

Lemma ids_apart_primitives `{cv : Cv2} images_dir labels_dir image_file :
  primitives_keep keeps_ids_apart images_dir labels_dir image_file.
Proof.
  split_and!.
  - intros j img _ st. by apply keeps_ids_apart_same.
  - intros st. unfold shutil_copy.
    destruct (fs st !! _); [| apply keeps_ids_apart_refl].
    destruct (String.eqb _ _); [apply keeps_ids_apart_refl |].
    by apply keeps_ids_apart_same.
  - intros st. by apply keeps_ids_apart_same.
  - intros line st. by apply keeps_ids_apart_same.
  - intros j _. apply assign_class_id_ids_apart.
Qed.

Section IdsApart.
Context {cv : Cv2}.

Lemma main_keeps_ids_apart listing shuffle :
  preserves keeps_ids_apart (main listing shuffle).
Proof.
  unfold main.
  apply preserves_bind; [exact keeps_ids_apart_trans | | intros _];
    (apply process_images_preserves;
     [exact keeps_ids_apart_refl | exact keeps_ids_apart_trans |
      intros f _; apply ids_apart_primitives]).
Qed.

Lemma main_ids_apart listing shuffle files :
  ids_apart (snd (main listing shuffle (initial_state files))).
Proof.
  apply main_keeps_ids_apart. unfold ids_apart. cbn. split_and!.
  - lia.
  - intros key v H. by rewrite lookup_empty in H.
  - intros k1 k2 v H. by rewrite lookup_empty in H.
Qed.

End IdsApart.


(** *** Names without a directory part *)

Lemma rfind_from_absent c s : forall i last,
  occurs c s = false -> Py.rfind_from c s i last = last.
Proof.
  induction s as [| a s IH]; intros i last H; cbn in *; [done |].
  apply orb_false_elim in H as [Ha Hs]. rewrite Ha. by apply IH.
Qed.

Lemma rfind_from_last c s1 s2 : forall i last,
  occurs c s2 = false ->
  Py.rfind_from c (s1 +:+ String c s2) i last
  = i + Z.of_nat (String.length s1).
Proof.
  induction s1 as [| a s1 IH]; intros i last H.
  - change (EmptyString +:+ String c s2) with (String c s2).
    cbn [Py.rfind_from]. rewrite Ascii.eqb_refl.
    rewrite rfind_from_absent by done. cbn. lia.
  - change (String a s1 +:+ String c s2) with (String a (s1 +:+ String c s2)).
    cbn [Py.rfind_from String.length]. rewrite IH by done. lia.
Qed.

Lemma substring_all s : String.substring 0 (String.length s) s = s.
Proof. induction s as [| a s IH]; cbn; [done | by rewrite IH]. Qed.

Lemma substring_skip s1 s2 n :
  String.substring (String.length s1) n (s1 +:+ s2) = String.substring 0 n s2.
Proof.
  induction s1 as [| a s1 IH]; [done |].
  change (String a s1 +:+ s2) with (String a (s1 +:+ s2)). cbn. exact IH.
Qed.

Lemma basename_join dir name :
  occurs "/" name = false -> Py.basename (Py.path_join dir name) = name.
Proof.
  intros H. unfold Py.basename, Py.path_join, Py.rfind.
  change (dir +:+ "/" +:+ name) with (dir +:+ String "/" name).
  rewrite rfind_from_last by done.
  replace (Z.to_nat (0 + Z.of_nat (String.length dir) + 1))
    with (String.length (dir +:+ "/")).
  2:{ rewrite string_app_length. cbn. lia. }
  replace (dir +:+ String "/" name) with ((dir +:+ "/") +:+ name).
  2:{ by rewrite string_app_assoc. }
  rewrite substring_skip, string_app_length, Nat.add_comm, Nat.add_sub.
  apply substring_all.
Qed.

(** *** What one image leaves in the dataset *)

Section Exported.
Context {cv : Cv2}.




End Exported.

(** *** Files and labels that later images leave alone *)

Lemma file_kept_refl p : Reflexive (file_kept p).
Proof. by intros st. Qed.
Lemma file_kept_trans p : Transitive (file_kept p).
Proof. intros a b c Hab Hbc. unfold file_kept in *. congruence. Qed.

Lemma file_kept_primitives `{cv : Cv2} p images_dir labels_dir image_file :
  (forall j, 0 <= j ->
     p <> Py.path_join unknown_objects_dir
            (cropped_name (fst (Py.splitext image_file)) j)) ->
  p <> Py.path_join images_dir
         (Py.basename (Py.path_join image_dir image_file)) ->
  p <> Py.path_join labels_dir (fst (Py.splitext image_file) +:+ ".txt") ->
  primitives_keep (file_kept p) images_dir labels_dir image_file.
Proof.
  intros Hcrop Hcopy Hlabel. split_and!.
  - intros j img Hj st. unfold file_kept, imwrite. cbn [snd fs].
    destruct (imwrite_ok _ _); [| reflexivity].
    apply lookup_insert_ne, not_eq_sym. by apply Hcrop.
  - intros st. unfold shutil_copy.
    destruct (fs st !! _); [| reflexivity].
    destruct (String.eqb _ _); [reflexivity |].
    by apply lookup_insert_ne, not_eq_sym.
  - intros st. by apply lookup_insert_ne, not_eq_sym.
  - intros line st. by apply lookup_alter_ne, not_eq_sym.
  - intros j _ st. reflexivity.
Qed.


Lemma path_join_inj d a b : Py.path_join d a = Py.path_join d b -> a = b.
Proof.
  unfold Py.path_join. intros H. apply String.app_inj in H.
  by apply String.app_inj in H.
Qed.

Lemma output_dirs_apart d d' a b :
  d ∈ output_dirs -> d' ∈ output_dirs ->
  Py.path_join d a = Py.path_join d' b -> d = d'.
Proof.
  unfold output_dirs. intros Hd Hd' E.
  repeat (apply elem_of_cons in Hd as [-> | Hd]);
    try (by apply elem_of_nil in Hd);
    repeat (apply elem_of_cons in Hd' as [-> | Hd']);
    try (by apply elem_of_nil in Hd');
    try reflexivity; vm_compute in E; discriminate E.
Qed.

Lemma out_dirs_roles images_dir labels_dir :
  (images_dir, labels_dir) ∈ out_dirs ->
  images_dir ∈ output_dirs /\ labels_dir ∈ output_dirs /\
  images_dir <> unknown_objects_dir /\ labels_dir <> unknown_objects_dir /\
  forall images_dir' labels_dir',
    (images_dir', labels_dir') ∈ out_dirs -> images_dir <> labels_dir'.
Proof.
  unfold out_dirs, output_dirs. intros Hin.
  apply elem_of_cons in Hin as [[= -> ->] | Hin];
    [| apply list_elem_of_singleton in Hin as [= -> ->]];
    (split_and!;
     [repeat (rewrite elem_of_cons); tauto
     | repeat (rewrite elem_of_cons); tauto
     | discriminate | discriminate |]);
    intros d1 d2 H;
    (apply elem_of_cons in H as [[= -> ->] | H];
     [| apply list_elem_of_singleton in H as [= -> ->]]); discriminate.
Qed.

Lemma cropped_name_key image_id j :
  cropped_name image_id j = class_key image_id j +:+ ".png".
Proof. unfold cropped_name, class_key. by rewrite !string_app_assoc. Qed.


Section Dataset.
Context {cv : Cv2}.





End Dataset.

(** *** The manifest *)






Section Manifest.
Context {cv : Cv2}.



End Manifest.

(** *** Sizes of the two splits *)

Lemma split_lengths (l : list string) :
  let N := Z.of_nat (length l) in
  N < 2 ^ 50 ->
  Z.of_nat (length (train_files l)) = 4 * N / 5 /\
  Z.of_nat (length (val_files l)) = N - 4 * N / 5.
Proof.
  intros N HN.
  assert (Hs : split_index l = 4 * N / 5).
  { unfold split_index. apply int_mul_split_ratio; lia. }
  assert (Hb : 0 <= 4 * N / 5 <= N).
  { split; [apply Z.div_pos; lia |]. apply Z.div_le_upper_bound; lia. }
  unfold train_files, val_files. rewrite Hs.
  rewrite slice_to_take, slice_from_drop by exact Hb.
  rewrite length_take, length_drop. lia.
Qed.

(** *** Image ids of enumerated names *)

Lemma substring_prefix s1 s2 :
  String.substring 0 (String.length s1) (s1 +:+ s2) = s1.
Proof.
  induction s1 as [| a s1 IH].
  - cbn. destruct s2; reflexivity.
  - change (String a s1 +:+ s2) with (String a (s1 +:+ s2)).
    cbn [String.length String.substring]. by rewrite IH.
Qed.

Lemma occurs_app c s t : occurs c (s +:+ t) = occurs c s || occurs c t.
Proof.
  induction s as [| a s IH]; [done |].
  change (String a s +:+ t) with (String a (s +:+ t)). cbn.
  by rewrite IH, orb_assoc.
Qed.

(** The id of an image named [p ++ ext], without a directory part: the
    name minus the extension, unless only dots come before it. *)
Lemma splitext_extension p ext :
  ext ∈ extensions ->
  occurs "/" p = false ->
  fst (Py.splitext (p +:+ ext)) = if Py.all_dots p then p +:+ ext else p.
Proof.
  intros Hext Hsep.
  assert (exists t, ext = String "." t /\ occurs "." t = false /\
                    occurs "/" t = false) as (t & -> & Hdot & Hsl).
  { unfold extensions in Hext.
    repeat (apply elem_of_cons in Hext as [-> | Hext]);
      try (by apply elem_of_nil in Hext); eexists; done. }
  unfold Py.splitext, Py.rfind.
  rewrite rfind_from_absent.
  2:{ rewrite occurs_app, Hsep. cbn. exact Hsl. }
  rewrite rfind_from_last by exact Hdot.
  rewrite Z.add_0_l.
  replace (-1 <? Z.of_nat (String.length p)) with true
    by (symmetry; apply Z.ltb_lt; lia).
  change (-1 + 1) with 0. rewrite Z.sub_0_r, Nat2Z.id.
  change (Z.to_nat 0) with 0%nat.
  rewrite substring_prefix. cbn [andb].
  destruct (Py.all_dots p); reflexivity.
Qed.

Lemma image_files_extension listing f :
  f ∈ image_files listing -> exists p ext, ext ∈ extensions /\ f = p +:+ ext.
Proof.
  intros H. apply image_files_elem in H as [_ (p & [-> | [-> | ->]])];
    eexists p, _; (split; [| reflexivity]); unfold extensions;
    repeat (rewrite elem_of_cons); tauto.
Qed.

Lemma occurs_app_false c s t :
  occurs c (s +:+ t) = false -> occurs c s = false.
Proof. rewrite occurs_app. intros H. by apply orb_false_elim in H as [-> _]. Qed.

(** Two enumerated names with the same image id are equal, differ only in
    their extension, or one is the other with an extension added. *)
Lemma image_id_collision listing f g :
  f ∈ image_files listing -> g ∈ image_files listing ->
  occurs "/" f = false -> occurs "/" g = false ->
  fst (Py.splitext f) = fst (Py.splitext g) ->
  f = g \/
  (exists p e1 e2, e1 ∈ extensions /\ e2 ∈ extensions /\
                   f = p +:+ e1 /\ g = p +:+ e2) \/
  (exists e, e ∈ extensions /\ (g = f +:+ e \/ f = g +:+ e)).
Proof.
  intros Hf Hg Hsf Hsg E.
  apply image_files_extension in Hf as (p & e1 & He1 & ->).
  apply image_files_extension in Hg as (q & e2 & He2 & ->).
  rewrite !splitext_extension in E
    by (done || by eapply occurs_app_false).
  destruct (Py.all_dots p) eqn:Hp, (Py.all_dots q) eqn:Hq.
  - by left.
  - right. right. exists e2. split; [done |]. left. by rewrite E.
  - right. right. exists e1. split; [done |]. right. by rewrite <- E.
  - right. left. exists p, e1, e2. by subst q.
Qed.

(** *** Crops *)

Lemma slice_inside {A} (l : list A) a b :
  0 <= a <= b -> b <= Z.of_nat (length l) ->
  Py.slice l a b = take (Z.to_nat (b - a)) (drop (Z.to_nat a) l).
Proof.
  intros Ha Hb. unfold Py.slice, Py.norm_index.
  destruct (Z.ltb_spec a 0); [lia |]. destruct (Z.ltb_spec b 0); [lia |].
  by rewrite !Z.min_l by lia.
Qed.

Lemma slice_inside_length {A} (l : list A) a b :
  0 <= a <= b -> b <= Z.of_nat (length l) ->
  Z.of_nat (length (Py.slice l a b)) = b - a.
Proof.
  intros Ha Hb. rewrite slice_inside by done.
  rewrite length_take, length_drop. lia.
Qed.

Lemma slice_inside_lookup {A} (l : list A) a b (i : nat) :
  0 <= a <= b -> b <= Z.of_nat (length l) -> Z.of_nat i < b - a ->
  Py.slice l a b !! i = l !! (Z.to_nat a + i)%nat.
Proof.
  intros Ha Hb Hi. rewrite slice_inside by done.
  rewrite lookup_take_lt by lia. apply lookup_drop.
Qed.

(** The crop of a rectangle inside the image has the size of the
    rectangle and holds the pixels of the image under it. *)
Lemma crop_inside image x y w h :
  rectangular image ->
  inside (mat_width image) (mat_height image) (x, y, w, h) ->
  0 < w -> 0 < h ->
  let cropped := crop_of_rect image (x, y, w, h) in
  mat_height cropped = h /\ mat_width cropped = w /\
  rectangular cropped /\ mat_empty cropped = false /\
  forall i j : nat,
    Z.of_nat i < h -> Z.of_nat j < w ->
    pixel_at cropped i j
    = pixel_at image (Z.to_nat y + i) (Z.to_nat x + j) /\
    is_Some (pixel_at cropped i j).
Proof.
  intros Hrect (Hx & Hy & Hxw & Hyh) Hw Hh cropped.
  unfold mat_height in Hyh.
  assert (Hrow : forall (i : nat) row,
            Py.slice image y (y + h) !! i = Some row ->
            image !! (Z.to_nat y + i)%nat = Some row /\
            Z.of_nat (length row) = mat_width image).
  { intros i row Hi.
    assert (Z.of_nat i < h).
    { apply lookup_lt_Some in Hi.
      pose proof (slice_inside_length image y (y + h) ltac:(lia) Hyh). lia. }
    rewrite slice_inside_lookup in Hi by lia. split; [exact Hi |].
    eapply (proj1 (Forall_forall _ _) Hrect), list_elem_of_lookup_2, Hi. }
  assert (Hlen : Z.of_nat (length cropped) = h).
  { unfold cropped, crop_of_rect, crop. rewrite length_map.
    rewrite slice_inside_length by lia. lia. }
  assert (Hrows : forall (i : nat) row,
            cropped !! i = Some row ->
            Z.of_nat (length row) = w /\
            exists source,
              image !! (Z.to_nat y + i)%nat = Some source /\
              row = Py.slice source x (x + w) /\
              Z.of_nat (length source) = mat_width image).
  { intros i row Hi. unfold cropped, crop_of_rect, crop in Hi.
    change (list_fmap _ _ (fun row => Py.slice row x (x + w))
                      (Py.slice image y (y + h)) !! i = Some row) in Hi.
    rewrite list_lookup_fmap in Hi.
    destruct (Py.slice image y (y + h) !! i) as [source |] eqn:Hs;
      [| discriminate].
    cbn in Hi. injection Hi as <-. destruct (Hrow i source Hs) as [H1 H2].
    split; [| by exists source].
    rewrite slice_inside_length by lia. lia. }
  assert (Hwidth : mat_width cropped = w).
  { unfold mat_width. destruct cropped as [| row rest] eqn:E.
    - cbn in Hlen. lia.
    - apply (Hrows 0%nat row). reflexivity. }
  split_and!.
  - exact Hlen.
  - exact Hwidth.
  - apply Forall_forall. intros row Hin.
    apply list_elem_of_lookup in Hin as [i Hi].
    rewrite Hwidth. by apply (Hrows i).
  - unfold mat_empty, mat_height. rewrite Hlen, Hwidth.
    apply orb_false_intro; apply Z.eqb_neq; lia.
  - intros i j Hi Hj. unfold pixel_at.
    destruct (cropped !! i) as [row |] eqn:Hc.
    2:{ apply lookup_ge_None in Hc. lia. }
    destruct (Hrows i row Hc) as (Hl & source & Hs & -> & Hsl).
    rewrite Hs. cbn.
    rewrite slice_inside_lookup by lia. split; [reflexivity |].
    apply lookup_lt_is_Some. lia.
Qed.

(** *** Accuracy of the encoding *)

Module AccuracyFacts.
Import Float.
Local Open Scope Q_scope.

Lemma pow2_m52 : pow2 (-52) == 1 # 4503599627370496.
Proof. reflexivity. Qed.

(** Rounding a number of the unit interval moves it by at most [2^-53]. *)
Lemma rnd_unit_error q :
  0 <= q -> q <= 1 -> Qabs (rnd q - q) <= 1 # 9007199254740992.
Proof.
  intros H0 H1. destruct (Qeq_dec q 0) as [E | N].
  - rewrite (rnd_zero q E), E. cbn. discriminate.
  - destruct (rnd_nearest q) as (m & _ & Herr).
    assert (Hf : (fexp q <= -52)%Z).
    { pose proof (fexp_le q 1 N) as H. cbn in H. apply H.
      rewrite Qabs_pos by exact H0. change (pow2 1) with 2. lra. }
    pose proof (pow2_le _ _ Hf) as Hp. rewrite pow2_m52 in Hp.
    lra.
Qed.

Lemma center_accurate x w width :
  (0 <= x)%Z -> (0 < w)%Z -> (x + w <= width)%Z ->
  (width < 4503599627370496)%Z ->
  exists hw c,
    Py.int_truediv w 2 = Ok hw /\
    Py.float_truediv (Py.float_add (Py.float_of_int x) hw)
                     (Py.float_of_int width) = Ok c /\
    Qabs (c - (inject_Z x + inject_Z w / 2) / inject_Z width)
    <= 1 # 9007199254740992.
Proof.
  intros Hx Hw Hxw Hwd.
  apply inject_Z_bounds in Hx as HX. apply inject_Z_lt in Hw as HW.
  apply inject_Z_bounds in Hxw as HXW. apply inject_Z_lt in Hwd as HWD.
  rewrite inject_Z_plus in HXW.
  change (inject_Z 0) with 0 in *.
  change (inject_Z 4503599627370496) with 4503599627370496 in *.
  unfold Py.int_truediv. cbn [Z.eqb].
  eexists _, _. split; [reflexivity |].
  unfold Py.float_truediv, Py.float_add, Py.float_of_int.
  change (inject_Z 2) with 2.
  assert (EX : rnd (inject_Z x) == inject_Z x) by (apply rnd_int; lra).
  assert (ED : rnd (inject_Z width) == inject_Z width)
    by (apply rnd_int; lra).
  assert (HH : inject_Z w / 2 == inject_Z w * (1 # 2)) by field.
  assert (EH : rnd (inject_Z w / 2) == inject_Z w / 2).
  { apply (rnd_half _ w); [exact HH | |]; rewrite HH; lra. }
  assert (ES : rnd (rnd (inject_Z x) + rnd (inject_Z w / 2))
               == inject_Z x + inject_Z w / 2).
  { rewrite (rnd_half _ (2 * x + w)); rewrite EX, EH, HH.
    - reflexivity.
    - rewrite inject_Z_plus, inject_Z_mult. change (inject_Z 2) with 2. field.
    - lra.
    - lra. }
  destruct (Qeq_bool (rnd (inject_Z width)) 0) eqn:Hz.
  { apply Qeq_bool_iff in Hz. lra. }
  split; [reflexivity |].
  assert (E : (inject_Z x + inject_Z w / 2) / inject_Z width
              == rnd (rnd (inject_Z x) + rnd (inject_Z w / 2))
                 / rnd (inject_Z width))
    by (rewrite ES, ED; reflexivity).
  rewrite E.
  apply rnd_unit_error; rewrite ES, ED, HH.
  - apply Qle_shift_div_l; lra.
  - apply Qle_shift_div_r; lra.
Qed.

Lemma extent_accurate w width :
  (0 < w)%Z -> (w <= width)%Z ->
  exists c,
    Py.int_truediv w width = Ok c /\
    Qabs (c - inject_Z w / inject_Z width) <= 1 # 9007199254740992.
Proof.
  intros Hw Hwd.
  apply inject_Z_lt in Hw as HW. apply inject_Z_bounds in Hwd as HWD.
  change (inject_Z 0) with 0 in *.
  unfold Py.int_truediv.
  destruct (Z.eqb_spec width 0) as [E | _]; [lia |].
  eexists. split; [reflexivity |].
  apply rnd_unit_error.
  - apply Qle_shift_div_l; lra.
  - apply Qle_shift_div_r; lra.
Qed.

End AccuracyFacts.

(** *** What a run leaves alone *)

Section Untouched.
Context {cv : Cv2}.

Lemma input_kept_regions st st' f :
  input_kept st st' -> regions st' f = regions st f.
Proof. intros H. unfold regions. by rewrite H. Qed.

(** Without regions, found or not for want of an image, [process_image]
    leaves the state as it is. *)
Lemma process_image_quiet images_dir labels_dir image_file st :
  regions st image_file = [] ->
  snd (process_image images_dir labels_dir image_file st) = st.
Proof.
  unfold regions. intros H.
  destruct (decodes st image_file) eqn:Hd.
  - rewrite process_image_no_regions; [reflexivity |].
    unfold decodes in Hd.
    destruct (fs st !! Py.path_join image_dir image_file)
      as [[m | |] |] eqn:Hf; try discriminate.
    apply negb_true_iff in Hd. rewrite Hd in H.
    by rewrite (detect_objects_some _ _ _ Hf Hd), H.
  - by rewrite process_image_undecodable.
Qed.

Lemma process_images_untouched images_dir labels_dir files p :
  (images_dir, labels_dir) ∈ out_dirs ->
  forall st,
    (forall g, g ∈ files ->
       regions st g = [] \/ outside p images_dir labels_dir g) ->
    fs (snd (process_images files images_dir labels_dir st)) !! p
    = fs st !! p.
Proof.
  intros Hdirs. induction files as [| g rest IH]; intros st Hall.
  { reflexivity. }
  cbn [process_images]. unfold bind.
  pose proof (process_image_input_kept images_dir labels_dir g st Hdirs)
    as Hkept.
  assert (Hg : fs (snd (process_image images_dir labels_dir g st)) !! p
               = fs st !! p).
  { destruct (Hall g (list_elem_of_here _ _)) as [Hq | (H1 & H2 & H3)].
    - by rewrite process_image_quiet.
    - apply (process_image_preserves (file_kept p));
        [apply file_kept_refl | apply file_kept_trans |].
      by apply file_kept_primitives. }
  destruct (process_image images_dir labels_dir g st) as [[[] | e] st1];
    cbn [snd] in *; [| exact Hg].
  rewrite IH; [exact Hg |].
  intros h Hh. rewrite (input_kept_regions _ _ _ Hkept).
  by apply Hall, list_elem_of_further.
Qed.

Lemma main_untouched listing shuffle st p :
  let l := shuffle (image_files listing) in
  (forall g, g ∈ train_files l ->
     regions st g = [] \/ outside p train_images_dir train_labels_dir g) ->
  (forall g, g ∈ val_files l ->
     regions st g = [] \/ outside p val_images_dir val_labels_dir g) ->
  fs (snd (main listing shuffle st)) !! p = fs st !! p.
Proof.
  intros l Ht Hv.
  assert (Hdt : (train_images_dir, train_labels_dir) ∈ out_dirs)
    by apply list_elem_of_here.
  assert (Hdv : (val_images_dir, val_labels_dir) ∈ out_dirs)
    by apply list_elem_of_further, list_elem_of_here.
  unfold main. fold l. unfold bind.
  pose proof (process_images_untouched _ _ (train_files l) p Hdt st Ht) as H1.
  pose proof (process_images_input_kept (train_files l) _ _ st Hdt) as Hkept.
  destruct (process_images (train_files l) train_images_dir train_labels_dir
              st) as [[[] | e] st1]; cbn [snd] in *; [| exact H1].
  rewrite (process_images_untouched _ _ (val_files l) p Hdv); [exact H1 |].
  intros g Hg. rewrite (input_kept_regions _ _ _ Hkept). by apply Hv.
Qed.

(** The files of an image are none of the files of an image with
    another id and another name. *)
Lemma outside_other images_dir labels_dir f images_dir' labels_dir' g p :
  (images_dir, labels_dir) ∈ out_dirs ->
  (images_dir', labels_dir') ∈ out_dirs ->
  fst (Py.splitext g) <> fst (Py.splitext f) ->
  Py.basename (Py.path_join image_dir g)
  <> Py.basename (Py.path_join image_dir f) ->
  p = Py.path_join images_dir (Py.basename (Py.path_join image_dir f)) \/
  p = Py.path_join labels_dir (fst (Py.splitext f) +:+ ".txt") \/
  (exists j, 0 <= j /\
     p = Py.path_join unknown_objects_dir
           (cropped_name (fst (Py.splitext f)) j)) ->
  outside p images_dir' labels_dir' g.
Proof.
  intros Hdirs Hdirs' Hid Hbase Hp.
  destruct (out_dirs_roles _ _ Hdirs) as (Hi & Hla & Hiu & Hlu & Hil).
  destruct (out_dirs_roles _ _ Hdirs') as (Hi' & Hla' & Hiu' & Hlu' & Hil').
  assert (Hu : unknown_objects_dir ∈ output_dirs).
  { unfold output_dirs. repeat (rewrite elem_of_cons); tauto. }
  destruct Hp as [-> | [-> | (i & Hi0 & ->)]]; split_and!.
  - intros j _ E. apply output_dirs_apart in E; done.
  - intros E. pose proof (output_dirs_apart _ _ _ _ Hi Hi' E) as <-.
    apply path_join_inj in E. by apply Hbase.
  - intros E. apply output_dirs_apart in E; [| done | done].
    by apply (Hil _ _ Hdirs').
  - intros j _ E. apply output_dirs_apart in E; done.
  - intros E. apply output_dirs_apart in E; [| done | done].
    symmetry in E. by apply (Hil' _ _ Hdirs).
  - intros E. pose proof (output_dirs_apart _ _ _ _ Hla Hla' E) as <-.
    apply path_join_inj, string_app_inj_r in E. by apply Hid.
  - intros j Hj E. apply path_join_inj in E.
    rewrite !cropped_name_key in E. apply string_app_inj_r in E.
    apply class_key_inj in E as [E _]; [| lia | lia]. by apply Hid.
  - intros E. apply output_dirs_apart in E; done.
  - intros E. apply output_dirs_apart in E; done.
Qed.

End Untouched.

(** *** Totals of a run *)




Section Totals.
Context {cv : Cv2}.






End Totals.

Module DetectFacts.
Import Detect.

Section Loop.
Context {yolo : Yolo}.

Lemma scan_skip f rest called :
  Py.endswith_any (lower f) suffixes = false ->
  scan (f :: rest) called = scan rest called.
Proof. intros H. cbn [scan]. by rewrite H. Qed.

Lemma scan_miss f rest called :
  Py.endswith_any (lower f) suffixes = true -> misses f = true ->
  scan (f :: rest) called
  = scan rest (called ++ [os_path_join images_path f]).
Proof.
  intros H Hm. cbn [scan]. rewrite H. cbn [negb]. unfold misses in Hm.
  destruct (predict _) as [[| first more] |]; try discriminate.
  apply negb_true_iff in Hm. by rewrite Hm.
Qed.

Lemma scan_end f rest called :
  Py.endswith_any (lower f) suffixes = true -> misses f = false ->
  scan (f :: rest) called
  = {| calls := called ++ [os_path_join images_path f];
       printed := fst (ending f); failure := snd (ending f) |}.
Proof.
  intros H Hm. cbn [scan]. rewrite H. cbn [negb]. unfold misses in Hm.
  unfold ending.
  destruct (predict _) as [[| first more] |]; try reflexivity.
  apply negb_false_iff in Hm. by rewrite Hm.
Qed.

(** When every candidate is a miss, all of them are examined and the
    [else] branch prints its message. *)
Lemma scan_all_miss listing : forall called,
  forallb misses (candidates listing) = true ->
  scan listing called
  = {| calls := called ++ map (os_path_join images_path) (candidates listing);
       printed := [Text "No icons detected in any of the images."];
       failure := None |}.
Proof.
  induction listing as [| f rest IH]; intros called Hall.
  - cbn. by rewrite app_nil_r.
  - unfold candidates in *. cbn [List.filter] in *.
    destruct (Py.endswith_any (lower f) suffixes) eqn:Hf.
    + cbn in Hall. apply andb_true_iff in Hall as [Hm Hall].
      rewrite (scan_miss _ _ _ Hf Hm), IH by exact Hall.
      cbn [map]. by rewrite <- app_assoc.
    + rewrite (scan_skip _ _ _ Hf). by apply IH.
Qed.

(** The first candidate that is not a miss ends the loop: nothing after
    it is examined, and the [else] branch is not run. *)
Lemma scan_first_end listing : forall called pre c post,
  candidates listing = pre ++ c :: post ->
  forallb misses pre = true -> misses c = false ->
  scan listing called
  = {| calls := called ++ map (os_path_join images_path) (pre ++ [c]);
       printed := fst (ending c); failure := snd (ending c) |}.
Proof.
  induction listing as [| f rest IH]; intros called pre c post Hc Hpre Hend.
  - by destruct pre.
  - unfold candidates in *. cbn [List.filter] in Hc.
    destruct (Py.endswith_any (lower f) suffixes) eqn:Hf.
    + destruct pre as [| g pre]; cbn in Hc; injection Hc as -> Hc.
      * by rewrite (scan_end _ _ _ Hf Hend).
      * cbn in Hpre. apply andb_true_iff in Hpre as [Hm Hpre].
        rewrite (scan_miss _ _ _ Hf Hm).
        rewrite (IH _ pre c post Hc Hpre Hend).
        cbn [map app]. by rewrite <- app_assoc.
    + rewrite (scan_skip _ _ _ Hf). by eapply IH.
Qed.

End Loop.
End DetectFacts.

(** *** The two enumerators *)

Lemma lower_app s t : Detect.lower (s +:+ t) = Detect.lower s +:+ Detect.lower t.
Proof.
  induction s as [| a s IH]; [done |].
  change (String a s +:+ t) with (String a (s +:+ t)). cbn. by rewrite IH.
Qed.

Lemma endswith_lower f ext :
  Detect.lower ext = ext -> Py.endswith f ext = true ->
  Py.endswith (Detect.lower f) ext = true.
Proof.
  intros Hext H. apply endswith_spec in H as [p ->].
  apply endswith_spec. exists (Detect.lower p). by rewrite lower_app, Hext.
Qed.

Lemma image_files_candidates f :
  Py.endswith_any f [".png"; ".jpg"; ".jpeg"] = true ->
  Py.endswith_any (Detect.lower f) Detect.suffixes = true.
Proof.
  unfold Py.endswith_any, Detect.suffixes. cbn [existsb].
  rewrite !orb_false_r. intros H.
  apply orb_true_iff in H as [H | H];
    [| apply orb_true_iff in H as [H | H]];
    apply endswith_lower in H; try reflexivity; rewrite H;
    by rewrite ?orb_true_r.
Qed.

Lemma filter_sublist {A} (P Q : A -> bool) l :
  (forall a, P a = true -> Q a = true) ->
  sublist (List.filter P l) (List.filter Q l).
Proof.
  intros H. induction l as [| a l IH]; cbn; [constructor |].
  destruct (P a) eqn:Ha.
  - rewrite (H a Ha). by constructor.
  - destruct (Q a); [by constructor | exact IH].
Qed.

Lemma occurs_prefix name :
  occurs "/" name = false -> String.prefix "/" name = false.
Proof.
  destruct name as [| a s]; [done |]. cbn [occurs String.prefix]. intros H.
  apply orb_false_elim in H as [H _].
  destruct (Ascii.ascii_dec "/" a) as [<- | Hne]; [| reflexivity].
  by rewrite Ascii.eqb_refl in H.
Qed.

(** ** The channel category *)

Module YouTubeFacts.
Import YouTube.

(** The loop returns the first category of the table whose count is the
    largest and exceeds the count it starts with; the category it starts
    with when there is none. *)
Lemma best_of_spec table all_text : forall best m,
  (best_of table all_text best m = best /\
   forall c kws, (c, kws) ∈ table -> (count_matches kws all_text <= m)%nat) \/
  exists pre kws post,
    table = pre ++ (best_of table all_text best m, kws) :: post /\
    (m < count_matches kws all_text)%nat /\
    (forall c k, (c, k) ∈ pre ->
       (count_matches k all_text < count_matches kws all_text)%nat) /\
    (forall c k, (c, k) ∈ post ->
       (count_matches k all_text <= count_matches kws all_text)%nat).
Proof.
  induction table as [| [category keywords] rest IH]; intros best m.
  - left. split; [reflexivity |]. intros c kws H. by apply elem_of_nil in H.
  - cbn [best_of]. cbn zeta.
    destruct (Nat.ltb_spec m (count_matches keywords all_text)) as [Hlt | Hge].
    + destruct (IH category (count_matches keywords all_text))
        as [[E Hall] | (pre & kws & post & E & Hm & Hpre & Hpost)].
      * right. exists [], keywords, rest. rewrite E. split_and!.
        -- reflexivity.
        -- exact Hlt.
        -- intros c k H. by apply elem_of_nil in H.
        -- exact Hall.
      * right. exists ((category, keywords) :: pre), kws, post. split_and!.
        -- cbn. by rewrite <- E.
        -- lia.
        -- intros c k H. apply elem_of_cons in H as [[= -> ->] | H];
             [exact Hm | by eapply Hpre].
        -- exact Hpost.
    + destruct (IH best m)
        as [[E Hall] | (pre & kws & post & E & Hm & Hpre & Hpost)].
      * left. split; [exact E |].
        intros c k H. apply elem_of_cons in H as [[= -> ->] | H];
          [exact Hge | by eapply Hall].
      * right. exists ((category, keywords) :: pre), kws, post. split_and!.
        -- cbn. by rewrite <- E.
        -- exact Hm.
        -- intros c k H. apply elem_of_cons in H as [[= -> ->] | H];
             [lia | by eapply Hpre].
        -- exact Hpost.
Qed.

Section Category.
Context {unicode : Unicode}.

Lemma determine_channel_category_text fields snippet title description :
  fields !! "snippet" = Some (JObj snippet) ->
  snippet !! "title" = Some (JStr title) ->
  snippet !! "description" = Some (JStr description) \/
  snippet !! "description" = None /\ description = EmptyString ->
  determine_channel_category (JObj fields)
  = Return (best_of category_keywords
              (str_lower title +:+ " " +:+ str_lower description)
              LIFESTYLE 0).
Proof.
  intros Hs Ht Hd. unfold determine_channel_category.
  cbn [subscript and_then]. rewrite Hs. cbn [subscript and_then].
  rewrite Ht. cbn [lower and_then get].
  destruct Hd as [-> | [-> ->]]; reflexivity.
Qed.

End Category.
(** *** Sorting in decreasing order *)

Section Sorting.
Context {A : Type}.
Variable lt : A -> A -> bool.
Hypothesis lt_asym : forall x y, lt x y = true -> lt y x = false.
Hypothesis lt_negtrans :
  forall x y z, lt x y = false -> lt y z = false -> lt x z = false.

Lemma insert_desc_Permutation x l : insert_desc lt x l ≡ₚ x :: l.
Proof.
  induction l as [| y l IH]; cbn; [done |].
  destruct (lt x y); [| done]. rewrite IH. apply Permutation_swap.
Qed.

Lemma sorted_desc_Permutation l : sorted_desc lt l ≡ₚ l.
Proof.
  induction l as [| x l IH]; cbn; [done |].
  by rewrite insert_desc_Permutation, IH.
Qed.

Lemma insert_desc_sorted x l :
  StronglySorted (fun a b => lt a b = false) l ->
  StronglySorted (fun a b => lt a b = false) (insert_desc lt x l).
Proof.
  induction 1 as [| y l Hl IH Hy]; cbn.
  - repeat constructor.
  - destruct (lt x y) eqn:Hxy.
    + constructor; [exact IH |].
      rewrite insert_desc_Permutation. constructor; [by apply lt_asym | done].
    + constructor; [by constructor |].
      constructor; [exact Hxy |].
      eapply Forall_impl; [exact Hy |]. intros z Hz. by eapply lt_negtrans.
Qed.

Lemma sorted_desc_sorted l :
  StronglySorted (fun a b => lt a b = false) (sorted_desc lt l).
Proof.
  induction l as [| x l IH]; cbn; [constructor | by apply insert_desc_sorted].
Qed.

Lemma insert_desc_filter (P : A -> bool) x l :
  (P x = true -> forall y, y ∈ l -> lt x y = true -> P y = false) ->
  List.filter P (insert_desc lt x l) = List.filter P (x :: l).
Proof.
  induction l as [| y l IH]; intros H; [done |].
  cbn [insert_desc]. destruct (lt x y) eqn:Hxy; [| done].
  cbn [List.filter]. rewrite IH.
  2:{ intros Hx z Hz. apply (H Hx). by apply list_elem_of_further. }
  cbn [List.filter]. destruct (P x) eqn:Hx; [| done].
  by rewrite (H eq_refl y (list_elem_of_here _ _) Hxy).
Qed.

(** Elements that [P] selects, none of them below another, keep the
    order they had. *)
Lemma sorted_desc_stable (P : A -> bool) l :
  (forall x y, P x = true -> P y = true -> lt x y = false) ->
  List.filter P (sorted_desc lt l) = List.filter P l.
Proof.
  intros HP. induction l as [| x l IH]; [done |].
  cbn [sorted_desc foldr]. fold (sorted_desc lt l).
  rewrite insert_desc_filter.
  - cbn [List.filter]. by rewrite IH.
  - intros Hx y _ Hxy. destruct (P y) eqn:Hy; [| done].
    by rewrite (HP x y Hx Hy) in Hxy.
Qed.

End Sorting.

Lemma StronglySorted_weaken {A} (R S : A -> A -> Prop) l :
  (forall x y, R x y -> S x y) -> StronglySorted R l -> StronglySorted S l.
Proof.
  intros H. induction 1 as [| x l Hl IH Hx]; constructor; [exact IH |].
  eapply Forall_impl; [exact Hx |]. intros y. apply H.
Qed.

Lemma slice_to_prefix {A} (l : list A) k :
  0 <= k -> Py.slice_to l k = take (Z.to_nat k) l.
Proof.
  intros Hk. destruct (Z.le_gt_cases k (Z.of_nat (length l))) as [Hle | Hgt].
  - by apply slice_to_take.
  - unfold Py.slice_to, Py.slice, Py.norm_index.
    destruct (Z.ltb_spec 0 0); [lia |]. destruct (Z.ltb_spec k 0); [lia |].
    rewrite (Z.min_l 0), (Z.min_r k) by lia.
    change (Z.to_nat 0) with 0%nat. rewrite drop_0, Z.sub_0_r, Nat2Z.id.
    rewrite (take_ge l (length l)) by lia.
    rewrite (take_ge l (Z.to_nat k)) by lia. reflexivity.
Qed.

Lemma views_lt_asym x y : views_lt x y = true -> views_lt y x = false.
Proof. unfold views_lt. rewrite Z.ltb_lt, Z.ltb_ge. lia. Qed.

Lemma views_lt_negtrans x y z :
  views_lt x y = false -> views_lt y z = false -> views_lt x z = false.
Proof. unfold views_lt. rewrite !Z.ltb_ge. lia. Qed.

Lemma key_lt_false {A} (a b : A * Q) :
  key_lt a b = false <-> (snd b <= snd a)%Q.
Proof. unfold key_lt. rewrite negb_false_iff. apply Qle_bool_iff. Qed.

Lemma key_lt_asym {A} (a b : A * Q) : key_lt a b = true -> key_lt b a = false.
Proof.
  intros H. apply key_lt_false.
  destruct (Qlt_le_dec (snd a) (snd b)) as [Hlt | Hle].
  - by apply Qlt_le_weak.
  - apply key_lt_false in Hle. congruence.
Qed.

Lemma key_lt_negtrans {A} (a b c : A * Q) :
  key_lt a b = false -> key_lt b c = false -> key_lt a c = false.
Proof. rewrite !key_lt_false. intros H1 H2. by eapply Qle_trans. Qed.

(** *** Quotients within the range of [float] *)

Lemma pow2_1000_lt_1053 : (Float.pow2 1000 < Float.pow2 1053)%Q.
Proof. vm_compute. reflexivity. Qed.

Lemma pow2_1000_lt_1024 : (Float.pow2 1000 < Float.pow2 1024)%Q.
Proof. vm_compute. reflexivity. Qed.

(** A number of magnitude at most [2^K], with [K < 1024], is not too
    large for a [float], and its rounding has that magnitude at most. *)
Lemma rnd_within q K :
  (-1074 <= K)%Z -> (Float.pow2 K < Float.pow2 (K + 53))%Q ->
  (Qabs q <= Float.pow2 K)%Q -> (Qabs (Float.rnd q) <= Float.pow2 K)%Q.
Proof.
  intros HK Hlt Hq.
  apply Qabs_Qle_condition in Hq as [Hlo Hhi].
  assert (Habs : (Qabs q < Float.pow2 (K + 53))%Q).
  { apply Qle_lt_trans with (Float.pow2 K); [| exact Hlt].
    apply Qabs_Qle_condition. by split. }
  apply Qabs_Qle_condition. split.
  - apply (FloatFacts.rnd_ge_grid q (- Float.pow2 K) (-1) K);
      [| exact HK | exact Habs | exact Hlo].
    change (inject_Z (-1)) with (- (1))%Q. ring.
  - apply (FloatFacts.rnd_le_grid q (Float.pow2 K) 1 K);
      [| exact HK | exact Habs | exact Hhi].
    change (inject_Z 1) with 1%Q. ring.
Qed.

Lemma too_large_false q K :
  (-1074 <= K)%Z -> (Float.pow2 K < Float.pow2 (K + 53))%Q ->
  (Float.pow2 K < Float.pow2 1024)%Q ->
  (Qabs q <= Float.pow2 K)%Q -> too_large q = false.
Proof.
  intros HK H1 H2 Hq. unfold too_large.
  pose proof (rnd_within q K HK H1 Hq) as Hr.
  destruct (Qle_bool _ _) eqn:E; [| reflexivity].
  apply Qle_bool_iff in E. exfalso.
  apply (Qlt_irrefl (Float.pow2 1024)).
  apply Qle_lt_trans with (Qabs (Float.rnd q)); [exact E |].
  by apply Qle_lt_trans with (Float.pow2 K).
Qed.

Lemma Qabs_inject_Z a : Qabs (inject_Z a) = inject_Z (Z.abs a).
Proof. by destruct a. Qed.

(** A quotient of integers is no larger than the dividend. *)
Lemma Qabs_quotient a b :
  b <> 0 -> (Qabs (inject_Z a / inject_Z b) <= inject_Z (Z.abs a))%Q.
Proof.
  intros Hb. unfold Qdiv. rewrite Qabs_Qmult, Qabs_Qinv, !Qabs_inject_Z.
  assert (H1 : (1 <= inject_Z (Z.abs b))%Q).
  { change 1%Q with (inject_Z 1). rewrite <- Zle_Qle. lia. }
  assert (H0 : (0 <= inject_Z (Z.abs a))%Q).
  { change 0%Q with (inject_Z 0). rewrite <- Zle_Qle. lia. }
  apply Qle_shift_div_r; [lra | nra].
Qed.

Lemma inject_Z_below_pow2 a :
  Z.abs a < 2 ^ 1000 -> (inject_Z (Z.abs a) <= Float.pow2 1000)%Q.
Proof.
  intros H. rewrite FloatFacts.pow2_nonneg_Z by lia.
  rewrite <- Zle_Qle. lia.
Qed.

Lemma int_truediv_bounded a b :
  b <> 0 -> Z.abs a < 2 ^ 1000 ->
  int_truediv a b = Return (Float.rnd (inject_Z a / inject_Z b)) /\
  (Qabs (Float.rnd (inject_Z a / inject_Z b)) <= Float.pow2 1000)%Q.
Proof.
  intros Hb Ha. unfold int_truediv.
  destruct (Z.eqb_spec b 0); [contradiction |]. cbn zeta.
  assert (Hq : (Qabs (inject_Z a / inject_Z b) <= Float.pow2 1000)%Q).
  { eapply Qle_trans; [by apply Qabs_quotient |].
    by apply inject_Z_below_pow2. }
  rewrite (too_large_false _ 1000 ltac:(lia) pow2_1000_lt_1053
             pow2_1000_lt_1024 Hq).
  split; [reflexivity |].
  exact (rnd_within _ 1000 ltac:(lia) pow2_1000_lt_1053 Hq).
Qed.

(** What a division of integers raises. *)
Lemma int_truediv_raises a b e :
  int_truediv a b = Raises e ->
  e = ZeroDivisionError /\ b = 0 \/ e = OverflowError /\ b <> 0.
Proof.
  unfold int_truediv. destruct (Z.eqb_spec b 0) as [-> | Hb].
  - intros [= <-]. by left.
  - cbn zeta. destruct (too_large _); [| discriminate].
    intros [= <-]. by right.
Qed.

Lemma average_raises total videos e :
  average total videos = Raises e -> e = OverflowError /\ videos <> [].
Proof.
  destruct videos as [| v l]; cbn [average]; [discriminate |].
  intros H. apply int_truediv_raises in H as [[_ H] | [-> _]].
  - cbn [length] in H. lia.
  - done.
Qed.

Lemma average_bounded total videos :
  Z.abs total < 2 ^ 1000 -> exists q, average total videos = Return q.
Proof.
  intros H. destruct videos as [| v l]; cbn [average]; [by eexists |].
  destruct (int_truediv_bounded total (Z.of_nat (length (v :: l))))
    as [-> _]; [cbn [length]; lia | exact H |]. by eexists.
Qed.

Lemma engagement_key_raises x e :
  engagement_key x = Raises e -> e = OverflowError.
Proof.
  intros H. apply int_truediv_raises in H as [[_ H] | [-> _]]; [lia | done].
Qed.

(** *** Sums of counts *)

Lemma sum_of_cons f x l : sum_of f (x :: l) = f x + sum_of f l.
Proof. reflexivity. Qed.

Lemma sum_of_plus f g l :
  sum_of (fun x => f x + g x) l = sum_of f l + sum_of g l.
Proof.
  induction l as [| x l IH]; [reflexivity |].
  rewrite !sum_of_cons, IH. lia.
Qed.

Lemma sum_of_abs_le f g l :
  (forall x, Z.abs (f x) <= g x) -> Z.abs (sum_of f l) <= sum_of g l.
Proof.
  intros H. induction l as [| x l IH]; [reflexivity |].
  rewrite !sum_of_cons. specialize (H x). lia.
Qed.

Lemma sum_of_elem g l x :
  (forall y, 0 <= g y) -> x ∈ l -> g x <= sum_of g l.
Proof.
  intros Hg Hx. induction l as [| y l IH]; [by apply elem_of_nil in Hx |].
  rewrite sum_of_cons.
  assert (H0 : 0 <= sum_of g l).
  { clear -Hg. induction l as [| z l IH]; [reflexivity |].
    rewrite sum_of_cons. specialize (Hg z). lia. }
  apply elem_of_cons in Hx as [-> | Hx]; [lia |].
  specialize (IH Hx). specialize (Hg y). lia.
Qed.

(** *** The keys of a sort *)

Lemma with_keys_spec {A} (key : A -> Result Q) l keyed :
  with_keys key l = Return keyed ->
  map fst keyed = l /\
  Forall (fun p => key (fst p) = Return (snd p)) keyed.
Proof.
  revert keyed. induction l as [| x l IH]; intros keyed; cbn [with_keys].
  - intros [= <-]. by split.
  - destruct (key x) as [k | e] eqn:Hk; cbn [and_then]; [| discriminate].
    destruct (with_keys key l) as [rest | e]; cbn [and_then]; [| discriminate].
    intros [= <-]. destruct (IH rest eq_refl) as [E Hall].
    split; [cbn; by rewrite E | by constructor].
Qed.

Lemma with_keys_raises {A} (key : A -> Result Q) l e :
  with_keys key l = Raises e -> exists x, x ∈ l /\ key x = Raises e.
Proof.
  induction l as [| x l IH]; cbn [with_keys]; [discriminate |].
  destruct (key x) as [k | e'] eqn:Hk; cbn [and_then].
  - destruct (with_keys key l) as [rest | e']; cbn [and_then]; [discriminate |].
    intros [= <-]. destruct (IH eq_refl) as (y & Hy & E).
    exists y. split; [by apply list_elem_of_further | exact E].
  - intros [= <-]. exists x. split; [apply list_elem_of_here | exact Hk].
Qed.

Lemma with_keys_returns {A} (key : A -> Result Q) l :
  (forall x, x ∈ l -> exists k, key x = Return k) ->
  exists keyed, with_keys key l = Return keyed.
Proof.
  intros H. destruct (with_keys key l) as [keyed | e] eqn:E; [by eexists |].
  apply with_keys_raises in E as (x & Hx & E).
  destruct (H x Hx) as [k Hk]. congruence.
Qed.

Section KeyedSort.
Context {A : Type}.
Variable key : A -> Result Q.

(** The pair holds an element with its key. *)
Definition keyed_pair (p : A * Q) : Prop := key (fst p) = Return (snd p).

Lemma keyed_sorted (l : list (A * Q)) :
  Forall keyed_pair l ->
  StronglySorted (fun a b => key_lt a b = false) l ->
  StronglySorted
    (fun x y => exists kx ky,
       key x = Return kx /\ key y = Return ky /\ (ky <= kx)%Q)
    (map fst l).
Proof.
  intros Hall Hs. induction Hs as [| a l Hl IH Ha]; [constructor |].
  apply Forall_cons in Hall as [Hk Hall]. cbn. constructor; [by apply IH |].
  apply Forall_fmap, Forall_forall. intros b Hb.
  exists (snd a), (snd b). split_and!.
  - exact Hk.
  - by apply (proj1 (Forall_forall _ _) Hall).
  - apply key_lt_false. by apply (proj1 (Forall_forall _ _) Ha).
Qed.

Lemma keyed_filter (P : Q -> bool) (l : list (A * Q)) :
  Forall keyed_pair l ->
  map fst (List.filter (fun p => P (snd p)) l)
  = List.filter (fun x => match key x with
                          | Return k => P k
                          | Raises _ => false
                          end) (map fst l).
Proof.
  induction 1 as [| p l Hp Hl IH]; [reflexivity |].
  cbn [List.filter map]. rewrite Hp, <- IH.
  by destruct (P (snd p)).
Qed.

(** A sort by key: the same elements, in decreasing order of their
    keys, those with the same key in the order they had. *)
Lemma sorted_by_key_desc_spec l sorted :
  sorted_by_key_desc key l = Return sorted ->
  sorted ≡ₚ l /\
  StronglySorted
    (fun x y => exists kx ky,
       key x = Return kx /\ key y = Return ky /\ (ky <= kx)%Q) sorted /\
  forall q,
    List.filter (fun x => match key x with
                          | Return k => Qeq_bool k q
                          | Raises _ => false
                          end) sorted
    = List.filter (fun x => match key x with
                            | Return k => Qeq_bool k q
                            | Raises _ => false
                            end) l.
Proof.
  unfold sorted_by_key_desc.
  destruct (with_keys key l) as [keyed | e] eqn:E; cbn [and_then];
    [| discriminate].
  intros [= <-]. destruct (with_keys_spec key l keyed E) as [Hfst Hall].
  assert (Hperm : sorted_desc key_lt keyed ≡ₚ keyed)
    by apply sorted_desc_Permutation.
  assert (Hall' : Forall keyed_pair (sorted_desc key_lt keyed))
    by (by rewrite Hperm).
  split_and!.
  - rewrite Hperm. by rewrite Hfst.
  - apply keyed_sorted; [exact Hall' |].
    apply sorted_desc_sorted; [apply key_lt_asym | apply key_lt_negtrans].
  - intros q.
    rewrite <- (keyed_filter (fun k => Qeq_bool k q)) by exact Hall'.
    rewrite sorted_desc_stable.
    + rewrite (keyed_filter (fun k => Qeq_bool k q)) by exact Hall.
      by rewrite Hfst.
    + intros a b Ha Hb. apply Qeq_bool_iff in Ha, Hb.
      apply key_lt_false. rewrite Ha, Hb. apply Qle_refl.
Qed.

End KeyedSort.

End YouTubeFacts.

Module AnalyticsFacts.
Import YouTube YouTubeFacts.

(** What the call says of a connected account and the videos fetched:
    the analytics, or the exception that ends it. *)
Lemma get_channel_analytics_cases account recent :
  account_status account = CONNECTED ->
  match get_channel_analytics (Some account) (Return recent) with
  | Return a =>
    (exists by_engagement,
       sorted_by_key_desc engagement_key recent = Return by_engagement /\
       top_videos_by_engagement a = take 5 by_engagement) /\
    videos_analyzed a = length recent /\
    top_videos_by_views a = take 5 (sorted_desc views_lt recent) /\
    (recent = [] ->
     avg_views a = 0%Q /\ avg_likes a = 0%Q /\ avg_comments a = 0%Q) /\
    (sum_of view_count recent <= 0 -> engagement_rate a = Finite 0)
  | Raises e =>
    e = OverflowError /\ recent <> [] \/
    e = AttributeError /\ forall fields, platform_data account <> JObj fields
  end.
Proof.
  intros Hs. unfold get_channel_analytics. rewrite Hs. cbn [and_then].
  destruct (average (sum_of view_count recent) recent) as [q1 | e] eqn:E1;
    cbn [and_then]; [| left; by apply average_raises in E1].
  destruct (average (sum_of like_count recent) recent) as [q2 | e] eqn:E2;
    cbn [and_then]; [| left; by apply average_raises in E2].
  destruct (average (sum_of comment_count recent) recent) as [q3 | e] eqn:E3;
    cbn [and_then]; [| left; by apply average_raises in E3].
  set (rate := if 0 <? sum_of view_count recent then _ else _).
  assert (Hrate : match rate with
                  | Return r => sum_of view_count recent <= 0 -> r = Finite 0
                  | Raises e => e = OverflowError /\ recent <> []
                  end).
  { unfold rate. destruct (Z.ltb_spec 0 (sum_of view_count recent)) as [Hp | Hn].
    - destruct (int_truediv _ _) as [ratio | e] eqn:E; cbn [and_then]; [lia |].
      apply int_truediv_raises in E as [[_ E] | [-> _]]; [lia |].
      split; [reflexivity |]. intros ->. cbn in Hp. lia.
    - done. }
  destruct rate as [r | e]; cbn [and_then]; [| by left].
  destruct (sorted_by_key_desc engagement_key recent) as [by_e | e] eqn:E4;
    cbn [and_then].
  2:{ left. unfold sorted_by_key_desc in E4.
      destruct (with_keys engagement_key recent) as [keyed | e'] eqn:E5;
        cbn [and_then] in E4; [discriminate |].
      injection E4 as <-.
      apply with_keys_raises in E5 as (x & Hx & E5).
      apply engagement_key_raises in E5 as ->.
      split; [reflexivity |]. intros ->. by apply elem_of_nil in Hx. }
  destruct (platform_data account) as [| b | x | s | l | fields] eqn:Hp;
    cbn [get and_then]; try (right; split; [reflexivity | discriminate]).
  destruct (fields !! "video_count"), (fields !! "view_count");
    cbn [and_then];
    (cbn [top_videos_by_engagement videos_analyzed top_videos_by_views
          avg_views avg_likes avg_comments engagement_rate];
     rewrite !slice_to_prefix by lia;
     split_and!; try reflexivity;
     [by exists by_e | intros ->; cbn in E1, E2, E3; by simplify_eq
     | exact Hrate]).
Qed.

(** With counts within the range of [float] and [platform_data] a
    dictionary, the analytics are returned. *)
Lemma get_channel_analytics_returns account recent fields :
  account_status account = CONNECTED ->
  platform_data account = JObj fields ->
  counts_bounded recent ->
  exists a, get_channel_analytics (Some account) (Return recent) = Return a.
Proof.
  intros Hs Hp Hb.
  pose proof (get_channel_analytics_cases account recent Hs) as H.
  destruct (get_channel_analytics (Some account) (Return recent))
    as [a | e] eqn:E; [by eexists |].
  exfalso. destruct H as [[-> _] | [_ H]]; [| by eapply H].
  revert E. unfold get_channel_analytics. rewrite Hs, Hp. cbn [and_then].
  unfold counts_bounded in Hb.
  set (bound := fun x => Z.abs (view_count x) + Z.abs (like_count x)
                         + Z.abs (comment_count x)) in Hb.
  assert (Hv : Z.abs (sum_of view_count recent) < 2 ^ 1000).
  { eapply Z.le_lt_trans; [| exact Hb].
    apply sum_of_abs_le. intros x. unfold bound. lia. }
  assert (Hl : Z.abs (sum_of like_count recent) < 2 ^ 1000).
  { eapply Z.le_lt_trans; [| exact Hb].
    apply sum_of_abs_le. intros x. unfold bound. lia. }
  assert (Hc : Z.abs (sum_of comment_count recent) < 2 ^ 1000).
  { eapply Z.le_lt_trans; [| exact Hb].
    apply sum_of_abs_le. intros x. unfold bound. lia. }
  assert (Hlc : Z.abs (sum_of like_count recent
                       + sum_of comment_count recent) < 2 ^ 1000).
  { rewrite <- sum_of_plus.
    eapply Z.le_lt_trans; [| exact Hb].
    apply sum_of_abs_le. intros x. unfold bound. lia. }
  destruct (average_bounded _ recent Hv) as [q1 ->].
  destruct (average_bounded _ recent Hl) as [q2 ->].
  destruct (average_bounded _ recent Hc) as [q3 ->].
  cbn [and_then].
  assert (Hrate : exists r,
            (if 0 <? sum_of view_count recent
             then let! ratio := int_truediv (sum_of like_count recent
                                             + sum_of comment_count recent)
                                            (sum_of view_count recent) in
                  Return (float_mul ratio 100)
             else Return (Finite 0)) = Return r).
  { destruct (Z.ltb_spec 0 (sum_of view_count recent)); [| by eexists].
    destruct (int_truediv_bounded _ (sum_of view_count recent)
                ltac:(lia) Hlc) as [-> _].
    by eexists. }
  destruct Hrate as [r ->]. cbn [and_then].
  destruct (with_keys_returns engagement_key recent) as [keyed Hk].
  { intros x Hx. unfold engagement_key.
    destruct (int_truediv_bounded (like_count x + comment_count x)
                (Z.max (view_count x) 1)) as [-> _]; [lia | | by eexists].
    eapply Z.le_lt_trans; [| exact Hb].
    eapply Z.le_trans; [| apply (sum_of_elem bound recent x); [| exact Hx]].
    - unfold bound. lia.
    - intros y. unfold bound. lia. }
  unfold sorted_by_key_desc. rewrite Hk. cbn [and_then get].
  destruct (fields !! "video_count"), (fields !! "view_count");
    discriminate.
Qed.

End AnalyticsFacts.

Module OAuthFacts.
Import YouTube.

Lemma existsb_str_eq s l :
  existsb (str_eq s) l = true <-> JStr s ∈ l.
Proof.
  rewrite existsb_exists. split.
  - intros (v & Hin & Heq). destruct v; try discriminate.
    apply String.eqb_eq in Heq as ->. by apply list_elem_of_In.
  - intros Hin. exists (JStr s). split; [by apply list_elem_of_In |].
    apply String.eqb_refl.
Qed.

Lemma truthy_spec redirect_uri :
  truthy redirect_uri = true <->
  exists uri, redirect_uri = Some uri /\ uri <> EmptyString.
Proof.
  destruct redirect_uri as [[| c s] |]; cbn; split;
    try discriminate; try (intros (uri & [= <-] & H); done);
    try (intros (uri & [=] & _)).
  intros _. by eexists.
Qed.

End OAuthFacts.

(** ** Outcome, footprint and completeness of a run *)

Section Whole.
Context {cv : Cv2}.



(** X10. Whatever its outcome, the script removes no file and leaves
    [image_dir] as it was; the files it changes lie in its five output
    directories, but for the manifest [dataset.yaml], which it writes
    beside them when the two calls of [process_images] complete. *)
Theorem X10_run_writes_in_output_dirs_only listing shuffle items st :
  let res := script listing shuffle items st in
  let st' := snd res in
  (forall p, is_Some (fs st !! p) -> is_Some (fs st' !! p)) /\
  (forall p, fs st' !! p <> fs st !! p ->
     (p = yaml_file /\ exists text, fst res = Ok text) \/
     exists d name, d ∈ output_dirs /\ p = Py.path_join d name) /\
  (forall f, fs st' !! Py.path_join image_dir f
             = fs st !! Py.path_join image_dir f).
Proof.
  pose proof (main_writes_within listing shuffle st) as H.
  pose proof (writes_within_input_kept _ _ H) as Hin.
  cbn zeta. unfold script, bind.
  destruct (main listing shuffle st) as [[[] | e] st1]; cbn [snd] in H, Hin.
  - cbn [write_manifest fst snd fs]. split_and!.
    + intros p Hp. destruct (decide (p = yaml_file)) as [-> | Hne].
      * rewrite lookup_insert_eq. by eexists.
      * rewrite lookup_insert_ne by done.
        destruct (H p) as [E | [Hs _]]; [by rewrite E | exact Hs].
    + intros p Hp. destruct (decide (p = yaml_file)) as [-> | Hne].
      * left. split; [reflexivity | by eexists].
      * right. rewrite lookup_insert_ne in Hp by done.
        destruct (H p) as [E | [_ Hd]]; [contradiction | exact Hd].
    + intros f. rewrite lookup_insert_ne; [apply Hin |].
      intros E. vm_compute in E. discriminate E.
  - cbn [fst snd]. split_and!.
    + intros p Hp. destruct (H p) as [E | [Hs _]]; [by rewrite E | exact Hs].
    + intros p Hp. right.
      destruct (H p) as [E | [_ Hd]]; [contradiction | exact Hd].
    + exact Hin.
Qed.

End Whole.

(** X11. For a corpus of fewer than [2^50] images: the validation list is
    empty only for an empty corpus, the training list is empty exactly
    when there is at most one image, and the training list holds at most
    four times as many images as the validation list, and no fewer than
    that minus four. *)
Theorem X11_split_sizes (l : list string) :
  Z.of_nat (length l) < 2 ^ 50 ->
  (val_files l = [] <-> l = []) /\
  (train_files l = [] <-> (length l <= 1)%nat) /\
  (length (train_files l) <= 4 * length (val_files l))%nat /\
  (4 * length (val_files l) <= length (train_files l) + 4)%nat.
Proof.
  intros HN. destruct (split_lengths l HN) as [Ht Hv].
  set (N := Z.of_nat (length l)) in *.
  assert (Hdiv : 5 * (4 * N / 5) <= 4 * N < 5 * (4 * N / 5) + 5).
  { pose proof (Z.div_mod (4 * N) 5 ltac:(lia)).
    pose proof (Z.mod_pos_bound (4 * N) 5 ltac:(lia)). lia. }
  split_and!.
  - rewrite <- !length_zero_iff_nil. lia.
  - rewrite <- length_zero_iff_nil. lia.
  - lia.
  - lia.
Qed.

Section Complete.
Context {cv : Cv2}.

(** X12. In every run the ids recorded in [class_map] are ids written to
    annotation lines, and no id is recorded under two keys. *)
Theorem X12_label_map_ids_distinct listing shuffle files :
  let st := snd (main listing shuffle (initial_state files)) in
  (forall key id, class_map st !! key = Some id ->
     0 <= id < class_counter st /\ id ∈ ids_of (trace st)) /\
  (forall k1 k2 id,
     class_map st !! k1 = Some id -> class_map st !! k2 = Some id -> k1 = k2).
Proof.
  cbn zeta.
  destruct (main_ids_apart listing shuffle files) as (_ & Hb & Hinj).
  split; [| exact Hinj].
  intros key id Hk. specialize (Hb key id Hk). split; [exact Hb |].
  pose proof (main_ids_consecutive listing shuffle files) as E.
  cbn zeta in E. rewrite E. apply elem_of_seqZ. lia.
Qed.


End Complete.

(** ** The manifest *)

Section ManifestClaims.
Context {cv : Cv2}.



End ManifestClaims.

(** ** Image ids *)

(** X16. The id of an enumerated image (named without a directory part)
    is its name minus the extension, unless only dots come before the
    extension, in which case it is the whole name.  Two enumerated names
    therefore share an id, hence annotation file, crop names and
    [class_map] keys, only if they are equal, differ only in their
    extension, or one is the other with an extension added. *)
Theorem X16_image_ids listing f g :
  f ∈ image_files listing -> g ∈ image_files listing ->
  occurs "/" f = false -> occurs "/" g = false ->
  (exists p ext,
     ext ∈ extensions /\ f = p +:+ ext /\
     fst (Py.splitext f) = if Py.all_dots p then f else p) /\
  (fst (Py.splitext f) = fst (Py.splitext g) ->
   f = g \/
   (exists p e1 e2, e1 ∈ extensions /\ e2 ∈ extensions /\
                    f = p +:+ e1 /\ g = p +:+ e2) \/
   (exists e, e ∈ extensions /\ (g = f +:+ e \/ f = g +:+ e))).
Proof.
  intros Hf Hg Hsf Hsg. split.
  - destruct (image_files_extension _ _ Hf) as (p & ext & Hext & ->).
    exists p, ext. split_and!; [done | done |].
    apply splitext_extension; [done | by eapply occurs_app_false].
  - by apply (image_id_collision listing).
Qed.

(** ** Crops and coordinates *)

(** X17. The crop [image[y:y+h, x:x+w]] of a rectangle lying inside the
    image has [h] rows of [w] pixels, so it is not empty, and its pixel
    at row [i], column [j] is the pixel of the image at row [y + i],
    column [x + j]. *)
Theorem X17_crop_has_region_size image x y w h :
  rectangular image ->
  inside (mat_width image) (mat_height image) (x, y, w, h) ->
  0 < w -> 0 < h ->
  let cropped := crop_of_rect image (x, y, w, h) in
  mat_height cropped = h /\ mat_width cropped = w /\
  rectangular cropped /\ mat_empty cropped = false /\
  forall i j : nat,
    Z.of_nat i < h -> Z.of_nat j < w ->
    pixel_at cropped i j
    = pixel_at image (Z.to_nat y + i) (Z.to_nat x + j) /\
    is_Some (pixel_at cropped i j).
Proof. apply crop_inside. Qed.

(** X18. For a rectangle inside an image with sides below [2^52], each of
    the four normalized values written on the annotation line is within
    [2^-53] of the exact quotient it stands for: the centre
    [(x + w/2) / width], [(y + h/2) / height] and the extent
    [w / width], [h / height]. *)
Theorem X18_encoding_accuracy W H x y w h :
  inside W H (x, y, w, h) -> 0 < w -> 0 < h ->
  W < 2 ^ 52 -> H < 2 ^ 52 ->
  exists xc yc bw bh,
    yolo_box W H (x, y, w, h) = Ok (xc, yc, bw, bh) /\
    (Qabs (xc - (inject_Z x + inject_Z w / 2) / inject_Z W)
     <= 1 # 9007199254740992)%Q /\
    (Qabs (yc - (inject_Z y + inject_Z h / 2) / inject_Z H)
     <= 1 # 9007199254740992)%Q /\
    (Qabs (bw - inject_Z w / inject_Z W) <= 1 # 9007199254740992)%Q /\
    (Qabs (bh - inject_Z h / inject_Z H) <= 1 # 9007199254740992)%Q.
Proof.
  intros (Hx & Hy & Hxw & Hyh) Hw Hh HW HH. unfold yolo_box.
  destruct (AccuracyFacts.center_accurate x w W Hx Hw Hxw HW)
    as (hw & cx & E1 & E2 & Bx).
  destruct (AccuracyFacts.center_accurate y h H Hy Hh Hyh HH)
    as (hh & cy & E3 & E4 & By).
  destruct (AccuracyFacts.extent_accurate w W Hw ltac:(lia))
    as (ew & E5 & Bw).
  destruct (AccuracyFacts.extent_accurate h H Hh ltac:(lia))
    as (eh & E6 & Bh).
  rewrite E1. cbn [res_bind]. rewrite E2. cbn [res_bind].
  rewrite E3. cbn [res_bind]. rewrite E4. cbn [res_bind].
  rewrite E5. cbn [res_bind]. rewrite E6. cbn [res_bind].
  by exists cx, cy, ew, eh.
Qed.

Section Routing.
Context {cv : Cv2}.

(** X19. In a run on images with pairwise distinct ids, whatever its
    outcome: an image routed to training is not written to the validation
    image directory, nor one routed to validation to the training image
    directory; and for an image without regions nothing is written at
    all, neither a copy, nor an annotation file, nor a crop. *)
Theorem X19_what_a_run_does_not_write listing shuffle st :
  let l := shuffle (image_files listing) in
  NoDup (map (fun f => fst (Py.splitext f)) l) ->
  Forall (fun f => occurs "/" f = false) l ->
  let st' := snd (main listing shuffle st) in
  forall f,
    f ∈ l ->
    (f ∈ train_files l ->
     fs st' !! Py.path_join val_images_dir f
     = fs st !! Py.path_join val_images_dir f) /\
    (f ∈ val_files l ->
     fs st' !! Py.path_join train_images_dir f
     = fs st !! Py.path_join train_images_dir f) /\
    (regions st f = [] ->
     forall images_dir labels_dir p,
       (images_dir, labels_dir) ∈ out_dirs ->
       p = Py.path_join images_dir f \/
       p = Py.path_join labels_dir (fst (Py.splitext f) +:+ ".txt") \/
       (exists j, 0 <= j /\
          p = Py.path_join unknown_objects_dir
                (cropped_name (fst (Py.splitext f)) j)) ->
       fs st' !! p = fs st !! p).
Proof.
  intros l Hnd Hplain st' f Hin.
  assert (Hdt : (train_images_dir, train_labels_dir) ∈ out_dirs)
    by apply list_elem_of_here.
  assert (Hdv : (val_images_dir, val_labels_dir) ∈ out_dirs)
    by apply list_elem_of_further, list_elem_of_here.
  pose proof (slice_to_from l (split_index l)) as Hsplit.
  fold (train_files l) (val_files l) in Hsplit.
  assert (Hsub : forall g, g ∈ train_files l \/ g ∈ val_files l -> g ∈ l).
  { intros g Hg. rewrite <- Hsplit. by apply elem_of_app. }
  assert (Hbase : forall g, g ∈ l ->
            Py.basename (Py.path_join image_dir g) = g).
  { intros g Hg. apply basename_join.
    by apply (proj1 (Forall_forall _ _) Hplain). }
  assert (Hother : forall g, g ∈ l -> g <> f ->
            fst (Py.splitext g) <> fst (Py.splitext f) /\
            Py.basename (Py.path_join image_dir g)
            <> Py.basename (Py.path_join image_dir f)).
  { intros g Hg Hne. split.
    - intros E. apply Hne.
      apply list_elem_of_lookup in Hg as [i Hi].
      apply list_elem_of_lookup in Hin as [j Hj].
      assert (i = j); [| congruence].
      eapply NoDup_lookup; [exact Hnd | |];
        rewrite list_lookup_fmap; [by rewrite Hi | by rewrite Hj, E].
    - by rewrite !Hbase. }
  assert (Hapart : forall g, g ∈ train_files l -> g ∈ val_files l -> False).
  { intros g H1 H2.
    assert (Hl : NoDup l) by (eapply NoDup_fmap_1; exact Hnd).
    rewrite <- Hsplit in Hl. apply NoDup_app in Hl as (_ & Hdisj & _).
    by apply (Hdisj g). }
  assert (Hself : forall images_dir labels_dir images_dir',
            (images_dir, labels_dir) ∈ out_dirs ->
            images_dir' ∈ output_dirs -> images_dir' <> images_dir ->
            images_dir' <> labels_dir ->
            images_dir' <> unknown_objects_dir ->
            outside (Py.path_join images_dir' f) images_dir labels_dir f).
  { intros d1 d2 d' Hd Hd' N1 N2 N3.
    destruct (out_dirs_roles _ _ Hd) as (Hi & Hla & _).
    assert (Hu : unknown_objects_dir ∈ output_dirs).
    { unfold output_dirs. repeat (rewrite elem_of_cons); tauto. }
    split_and!.
    - intros j _ E. by apply output_dirs_apart in E.
    - intros E. by apply output_dirs_apart in E.
    - intros E. by apply output_dirs_apart in E. }
  assert (Hvi : val_images_dir ∈ output_dirs)
    by (unfold output_dirs; repeat (rewrite elem_of_cons); tauto).
  assert (Hti : train_images_dir ∈ output_dirs)
    by (unfold output_dirs; repeat (rewrite elem_of_cons); tauto).
  split_and!.
  - intros Ht. apply main_untouched; fold l; intros g Hg; right.
    + destruct (decide (g = f)) as [-> | Hne].
      * apply Hself; done.
      * destruct (Hother g (Hsub g (or_introl Hg)) Hne) as [H1 H2].
        eapply (outside_other val_images_dir val_labels_dir f); try done.
        left. by rewrite Hbase.
    + assert (Hne : g <> f) by (intros ->; by eapply Hapart).
      destruct (Hother g (Hsub g (or_intror Hg)) Hne) as [H1 H2].
      eapply (outside_other val_images_dir val_labels_dir f); try done.
      left. by rewrite Hbase.
  - intros Hv. apply main_untouched; fold l; intros g Hg; right.
    + assert (Hne : g <> f) by (intros ->; by eapply Hapart).
      destruct (Hother g (Hsub g (or_introl Hg)) Hne) as [H1 H2].
      eapply (outside_other train_images_dir train_labels_dir f); try done.
      left. by rewrite Hbase.
    + destruct (decide (g = f)) as [-> | Hne].
      * apply Hself; done.
      * destruct (Hother g (Hsub g (or_intror Hg)) Hne) as [H1 H2].
        eapply (outside_other train_images_dir train_labels_dir f); try done.
        left. by rewrite Hbase.
  - intros Hquiet images_dir labels_dir p Hdirs Hp.
    assert (Hp' : p = Py.path_join images_dir
                        (Py.basename (Py.path_join image_dir f)) \/
                  p = Py.path_join labels_dir
                        (fst (Py.splitext f) +:+ ".txt") \/
                  (exists j, 0 <= j /\
                     p = Py.path_join unknown_objects_dir
                           (cropped_name (fst (Py.splitext f)) j)))
      by (by rewrite Hbase).
    apply main_untouched; fold l; intros g Hg;
      (destruct (decide (g = f)) as [-> | Hne]; [by left | right]).
    + destruct (Hother g (Hsub g (or_introl Hg)) Hne) as [H1 H2].
      by eapply (outside_other images_dir labels_dir f).
    + destruct (Hother g (Hsub g (or_intror Hg)) Hne) as [H1 H2].
      by eapply (outside_other images_dir labels_dir f).
Qed.


End Routing.

(** ** The detector script *)

Section DetectClaims.
Context {yolo : Detect.Yolo}.

(** X21. The loop of detect.py ends at the first listed name with an
    image suffix (in any letter case) on which the model fails or finds
    at least one box: the model was called on the candidates up to that
    one, in listing order, and on nothing else; on a detection the name
    and the results are printed; the message of the [else] branch is not
    printed. *)
Theorem X21_detection_ends_the_loop listing pre c post :
  Detect.candidates listing = pre ++ c :: post ->
  forallb Detect.misses pre = true ->
  Detect.misses c = false ->
  Detect.detect listing
  = {| Detect.calls :=
         map (Detect.os_path_join Detect.images_path) (pre ++ [c]);
       Detect.printed := fst (Detect.ending c);
       Detect.failure := snd (Detect.ending c) |}.
Proof.
  intros Hc Hpre Hend. unfold Detect.detect.
  by rewrite (DetectFacts.scan_first_end listing [] pre c post Hc Hpre Hend).
Qed.

(** X22. When the model finds no box in any candidate, it was called on
    every candidate once, in listing order, and the only output is the
    message of the [else] branch; for an empty directory too. *)
Theorem X22_no_detection_message listing :
  forallb Detect.misses (Detect.candidates listing) = true ->
  Detect.detect listing
  = {| Detect.calls :=
         map (Detect.os_path_join Detect.images_path)
             (Detect.candidates listing);
       Detect.printed :=
         [Detect.Text "No icons detected in any of the images."];
       Detect.failure := None |}.
Proof.
  intros H. unfold Detect.detect.
  by rewrite (DetectFacts.scan_all_miss listing [] H).
Qed.

End DetectClaims.

(** X23. Every image dataset.py enumerates is a candidate of detect.py,
    in the same order, and is given to the model under the path
    dataset.py read it from. *)
Theorem X23_detector_examines_dataset_images listing :
  sublist (image_files listing) (Detect.candidates listing) /\
  forall f, f ∈ listing -> occurs "/" f = false ->
    Detect.os_path_join Detect.images_path f = Py.path_join image_dir f.
Proof.
  split.
  - apply filter_sublist. apply image_files_candidates.
  - intros f _ Hf. unfold Detect.os_path_join.
    rewrite (occurs_prefix _ Hf).
    change (String.eqb Detect.images_path EmptyString
            || Py.endswith Detect.images_path "/") with true.
    cbn iota. unfold Detect.images_path, Py.path_join, image_dir.
    change "/content/sample_data/images/"
      with ("/content/sample_data/images" +:+ "/").
    by rewrite string_app_assoc.
Qed.

(** ** The YouTube service *)

Section CategoryClaims.
Context {unicode : YouTube.Unicode}.

(** X24. For channel data with a snippet holding a title, and a
    description or none, [_determine_channel_category] returns the
    category whose keywords occur most often in the lower-cased title and
    description, the first such category of the table when several tie,
    and [LIFESTYLE] when no keyword occurs at all. *)
Theorem X24_channel_category fields snippet title description :
  fields !! "snippet" = Some (YouTube.JObj snippet) ->
  snippet !! "title" = Some (YouTube.JStr title) ->
  snippet !! "description" = Some (YouTube.JStr description) \/
  snippet !! "description" = None /\ description = EmptyString ->
  let all_text :=
    YouTube.str_lower title +:+ " " +:+ YouTube.str_lower description in
  let score := fun kws => YouTube.count_matches kws all_text in
  exists c,
    YouTube.determine_channel_category (YouTube.JObj fields)
    = YouTube.Return c /\
    (c = YouTube.LIFESTYLE /\
     (forall cat kws, (cat, kws) ∈ YouTube.category_keywords ->
        score kws = 0%nat) \/
     exists pre kws post,
       YouTube.category_keywords = pre ++ (c, kws) :: post /\
       (0 < score kws)%nat /\
       (forall cat k, (cat, k) ∈ pre -> (score k < score kws)%nat) /\
       (forall cat k, (cat, k) ∈ post -> (score k <= score kws)%nat)).
Proof.
  intros Hs Ht Hd all_text score.
  rewrite (YouTubeFacts.determine_channel_category_text _ _ _ _ Hs Ht Hd).
  fold all_text. eexists. split; [reflexivity |].
  destruct (YouTubeFacts.best_of_spec YouTube.category_keywords all_text
              YouTube.LIFESTYLE 0)
    as [[E Hall] | (pre & kws & post & E & Hm & Hpre & Hpost)].
  - left. split; [exact E |]. intros cat kws Hin.
    specialize (Hall cat kws Hin). unfold score. lia.
  - right. exists pre, kws, post. done.
Qed.

End CategoryClaims.

(** X25. Whenever the analytics of a connected account are returned,
    the top videos listed are the first five of the fetched videos in
    decreasing order of views, and of engagement: no video left out
    ranks above a listed one, and videos that rank equal keep the order
    they were fetched in.  The analytics are returned when
    [platform_data] is a dictionary and the counts are within the range
    of [float]. *)
Theorem X25_top_videos account recent :
  YouTube.account_status account = YouTube.CONNECTED ->
  (forall fields,
     YouTube.platform_data account = YouTube.JObj fields ->
     YouTube.counts_bounded recent ->
     exists a,
       YouTube.get_channel_analytics (Some account) (YouTube.Return recent)
       = YouTube.Return a) /\
  (forall a,
     YouTube.get_channel_analytics (Some account) (YouTube.Return recent)
     = YouTube.Return a ->
     exists by_views by_engagement,
       YouTube.top_videos_by_views a = take 5 by_views /\
       YouTube.top_videos_by_engagement a = take 5 by_engagement /\
       by_views ≡ₚ recent /\ by_engagement ≡ₚ recent /\
       StronglySorted
         (fun x y => YouTube.view_count y <= YouTube.view_count x) by_views /\
       StronglySorted
         (fun x y => exists kx ky,
            YouTube.engagement_key x = YouTube.Return kx /\
            YouTube.engagement_key y = YouTube.Return ky /\ (ky <= kx)%Q)
         by_engagement /\
       (forall v,
          List.filter (fun x => YouTube.view_count x =? v) by_views
          = List.filter (fun x => YouTube.view_count x =? v) recent) /\
       (forall q,
          List.filter (YouTube.has_engagement q) by_engagement
          = List.filter (YouTube.has_engagement q) recent)).
Proof.
  intros Hs. split.
  - intros fields Hp Hb.
    by apply (AnalyticsFacts.get_channel_analytics_returns account recent
                fields).
  - intros a Hrun.
    pose proof (AnalyticsFacts.get_channel_analytics_cases account recent Hs)
      as H.
    rewrite Hrun in H. destruct H as ((be & Hsort & He) & _ & Hv & _).
    destruct (YouTubeFacts.sorted_by_key_desc_spec YouTube.engagement_key
                recent be Hsort) as (Hperm & Hsorted & Hstable).
    exists (YouTube.sorted_desc YouTube.views_lt recent), be.
    split_and!; [exact Hv | exact He | | exact Hperm | | exact Hsorted | |].
    + apply YouTubeFacts.sorted_desc_Permutation.
    + eapply YouTubeFacts.StronglySorted_weaken;
        [| apply YouTubeFacts.sorted_desc_sorted;
           [apply YouTubeFacts.views_lt_asym
           | apply YouTubeFacts.views_lt_negtrans]].
      intros x y H. unfold YouTube.views_lt in H. by apply Z.ltb_ge in H.
    + intros v. apply YouTubeFacts.sorted_desc_stable.
      intros x y Hx Hy. apply Z.eqb_eq in Hx, Hy.
      unfold YouTube.views_lt. apply Z.ltb_ge. lia.
    + exact Hstable.
Qed.

(** X26. [get_channel_analytics] divides by zero on no input: the only
    [ZeroDivisionError] it can end with is one raised while fetching the
    videos.  For a connected account and the videos fetched, it returns
    the analytics or ends with [OverflowError], a quotient being too
    large for a [float], which takes a video, or with [AttributeError],
    [platform_data] being no dictionary.  In the analytics returned, the
    averages are zero and the two lists of top videos empty when no
    video was fetched, and the engagement rate is zero when the videos
    have no views. *)
Theorem X26_analytics_division_guarded account fetch :
  (YouTube.get_channel_analytics account fetch
   = YouTube.Raises YouTube.ZeroDivisionError ->
   fetch = YouTube.Raises YouTube.ZeroDivisionError) /\
  (forall acc recent,
     account = Some acc ->
     YouTube.account_status acc = YouTube.CONNECTED ->
     fetch = YouTube.Return recent ->
     match YouTube.get_channel_analytics account fetch with
     | YouTube.Return a =>
       (YouTube.sum_of YouTube.view_count recent <= 0 ->
        YouTube.engagement_rate a = YouTube.Finite 0) /\
       (recent = [] ->
        YouTube.avg_views a = 0%Q /\ YouTube.avg_likes a = 0%Q /\
        YouTube.avg_comments a = 0%Q /\
        YouTube.top_videos_by_views a = [] /\
        YouTube.top_videos_by_engagement a = [])
     | YouTube.Raises e =>
       e = YouTube.OverflowError /\ recent <> [] \/
       e = YouTube.AttributeError /\
       forall fields, YouTube.platform_data acc <> YouTube.JObj fields
     end).
Proof.
  split.
  - destruct account as [acc |]; [| discriminate].
    destruct (YouTube.account_status acc) eqn:Hs;
      try (cbn; rewrite Hs; discriminate).
    destruct fetch as [recent | e];
      [| cbn; rewrite Hs; cbn; by intros [= ->]].
    pose proof (AnalyticsFacts.get_channel_analytics_cases acc recent Hs) as H.
    intros E. rewrite E in H.
    destruct H as [[H _] | [H _]]; discriminate H.
  - intros acc recent -> Hs ->.
    pose proof (AnalyticsFacts.get_channel_analytics_cases acc recent Hs) as H.
    destruct (YouTube.get_channel_analytics (Some acc) (YouTube.Return recent))
      as [a | e]; [| exact H].
    destruct H as ((be & Hsort & He) & _ & Hv & Havg & Hrate).
    split; [exact Hrate |].
    intros ->. destruct (Havg eq_refl) as (H1 & H2 & H3).
    cbn in Hsort. injection Hsort as <-.
    by rewrite Hv, He.
Qed.

Section OAuthClaims.
Context {oauth : YouTube.OAuth}.

(** X27. With the configured redirect URIs given as a list,
    [get_authorization_url] starts the OAuth flow only with a redirect
    URI of that list: the one it was given when that is in the list, the
    first of the list when it was given none (or an empty one).  A
    redirect URI that is not in the list is refused with [ValueError]
    before the flow is made, and an empty list without a redirect URI
    ends in [IndexError]. *)
Theorem X27_redirect_uri_is_configured
    config redirect_uri client_config uris :
  YouTube.subscript config "client_config" = YouTube.Return client_config ->
  YouTube.subscript client_config "redirect_uris"
  = YouTube.Return (YouTube.JList uris) ->
  (forall res,
     YouTube.get_authorization_url config redirect_uri = YouTube.Return res ->
     exists used,
       used ∈ uris /\
       YouTube.authorization_url client_config used = YouTube.Return res /\
       (YouTube.truthy redirect_uri = true ->
        exists uri, redirect_uri = Some uri /\ used = YouTube.JStr uri) /\
       (YouTube.truthy redirect_uri = false -> uris !! 0%nat = Some used)) /\
  (forall uri,
     redirect_uri = Some uri -> uri <> EmptyString ->
     (YouTube.JStr uri ∈ uris ->
      YouTube.get_authorization_url config redirect_uri
      = YouTube.authorization_url client_config (YouTube.JStr uri)) /\
     (YouTube.JStr uri ∉ uris ->
      YouTube.get_authorization_url config redirect_uri
      = YouTube.Raises YouTube.ValueError)) /\
  (YouTube.truthy redirect_uri = false -> uris = [] ->
   YouTube.get_authorization_url config redirect_uri
   = YouTube.Raises YouTube.IndexError).
Proof.
  intros Hc Hu. unfold YouTube.get_authorization_url.
  rewrite Hc. cbn [YouTube.and_then].
  destruct (YouTube.truthy redirect_uri) eqn:Ht.
  - apply OAuthFacts.truthy_spec in Ht as (uri & -> & Hne).
    change (default EmptyString (Some uri)) with uri.
    rewrite Hu. cbn [YouTube.and_then YouTube.str_in].
    destruct (existsb (YouTube.str_eq uri) uris) eqn:Hin; cbn.
    + apply OAuthFacts.existsb_str_eq in Hin. split_and!.
      * intros res Hres. exists (YouTube.JStr uri).
        split_and!; [done | done | by eexists | discriminate].
      * intros uri' [= <-] _. split; [done | by intros []].
      * discriminate.
    + assert (Hnot : YouTube.JStr uri ∉ uris).
      { intros H. apply OAuthFacts.existsb_str_eq in H. congruence. }
      split_and!.
      * discriminate.
      * intros uri' [= <-] _. split; [by intros H | done].
      * discriminate.
  - cbn [YouTube.and_then]. rewrite Hu. cbn [YouTube.and_then].
    split_and!.
    + intros res Hres. destruct uris as [| v rest]; [discriminate |].
      cbn in Hres. exists v.
      split_and!; [apply list_elem_of_here | done | discriminate | done].
    + intros uri -> Hne. exfalso.
      assert (YouTube.truthy (Some uri) = true)
        by (apply OAuthFacts.truthy_spec; by eexists).
      congruence.
    + by intros _ ->.
Qed.

End OAuthClaims.

(** ** The claims on the small corpus *)

Lemma C2_witness :
  let st := initial_state two_images_dir in
  let img := img_regions 1 in
  (train_images_dir, train_labels_dir) ∈ out_dirs /\
  fs st !! Py.path_join image_dir "b.png" = Some (ImageFile img) /\
  mat_empty img = false /\
  (forall r, r ∈ filter_contours (cv := toy_cv) (find_contours img) [] ->
             inside (mat_width img) (mat_height img) r) /\
  mat_width img < 2 ^ 52 /\ mat_height img < 2 ^ 52 /\
  line_in_unit {| class_id := 0; x_center := 15 # 32; y_center := 15 # 32;
                  box_width := 15 # 16; box_height := 15 # 16 |}.
Proof.
  intros st img.
  assert (H1 : (train_images_dir, train_labels_dir) ∈ out_dirs)
    by apply list_elem_of_here.
  assert (H2 : fs st !! Py.path_join image_dir "b.png" = Some (ImageFile img))
    by (vm_compute; reflexivity).
  assert (H3 : mat_empty img = false) by reflexivity.
  assert (H4 : forall r,
             r ∈ filter_contours (cv := toy_cv) (find_contours img) [] ->
             inside (mat_width img) (mat_height img) r).
  { intros r Hr. vm_compute in Hr.
    apply list_elem_of_singleton in Hr as ->. vm_compute.
    repeat split; discriminate. }
  assert (H5 : mat_width img < 2 ^ 52) by reflexivity.
  assert (H6 : mat_height img < 2 ^ 52) by reflexivity.
  split_and!; try assumption.
  apply (C2_normalized_coordinates_in_unit_interval (cv := toy_cv)
           train_images_dir train_labels_dir "b.png" st img
           H1 H2 H3 H4 H5 H6 "/content/dataset/labels/train/b.txt").
  vm_compute. apply list_elem_of_here.
Defined.

Lemma C5_witness :
  let st := initial_state odd_dir in
  fst (detect_objects (cv := toy_cv) (Py.path_join image_dir "s.png") st)
  = Ok [] /\
  process_image (cv := toy_cv) val_images_dir val_labels_dir "s.png" st
  = (Ok tt, st).
Proof.
  intros st.
  assert (H : fst (detect_objects (cv := toy_cv)
                     (Py.path_join image_dir "s.png") st) = Ok [])
    by (vm_compute; reflexivity).
  split; [exact H |].
  apply (C5_zero_regions_skipped (cv := toy_cv)
           val_images_dir val_labels_dir "s.png" st H).
Defined.

Lemma C6_witness :
  let listing := ["a.png"; "b.png"; "c.png"; "d.png"; "e.png"] in
  Z.of_nat (length (image_files listing)) < 2 ^ 50 /\
  split_index (image_files listing) = Qfloor ((8 # 10) * inject_Z 5) /\
  train_files (image_files listing) = ["a.png"; "b.png"; "c.png"; "d.png"] /\
  val_files (image_files listing) = ["e.png"].
Proof.
  intros listing.
  assert (H : Z.of_nat (length (id (image_files listing))) < 2 ^ 50)
    by reflexivity.
  pose proof (C6_split_at_floor_eight_tenths (cv := toy_cv) listing id H)
    as (E1 & E2 & E3 & _).
  refine (conj H (conj E1 (conj _ _))).
  - etransitivity; [exact E2 | vm_compute; reflexivity].
  - etransitivity; [exact E3 | vm_compute; reflexivity].
Defined.

Lemma C7_witness :
  let st := initial_state odd_dir in
  let image_path := Py.path_join image_dir "t.png" in
  fst (imread image_path st) = Ok None /\
  detect_objects (cv := toy_cv) image_path st = (Raise Cv2Error, st).
Proof.
  intros st image_path.
  assert (H : fst (imread image_path st) = Ok None)
    by (vm_compute; reflexivity).
  split; [exact H |].
  apply (C7_undecodable_image_raises (cv := toy_cv) image_path st H).
Defined.

Lemma C8_witness :
  let st := initial_state odd_dir in
  let image_path := Py.path_join image_dir "s.png" in
  let st2 := initial_state two_images_dir in
  let path2 := Py.path_join image_dir "a.png" in
  fs st !! image_path = Some (ImageFile img_small) /\
  mat_empty img_small = false /\
  find_contours (Cv2 := toy_cv) img_small = [(0, 0, 15, 15)] /\
  boundingRect (Cv2 := toy_cv) (0, 0, 15, 15) = (0, 0, 15, 15) /\
  (15 <= 20 \/ 15 <= 20) /\
  detect_objects (cv := toy_cv) image_path st = (Ok [], st) /\
  fs st2 !! path2 = Some (ImageFile (img_regions 2)) /\
  mat_empty (img_regions 2) = false /\
  detect_objects (cv := toy_cv) path2 st2
  = (Ok [(0, 0, 30, 30); (0, 0, 30, 30)], st2).
Proof.
  intros st image_path st2 path2.
  assert (H1 : fs st !! image_path = Some (ImageFile img_small))
    by (vm_compute; reflexivity).
  assert (H2 : mat_empty img_small = false) by reflexivity.
  assert (H3 : find_contours (Cv2 := toy_cv) img_small = [(0, 0, 15, 15)])
    by reflexivity.
  assert (H4 : boundingRect (Cv2 := toy_cv) (0, 0, 15, 15) = (0, 0, 15, 15))
    by reflexivity.
  assert (H5 : 15 <= 20 \/ 15 <= 20) by (left; discriminate).
  assert (H6 : fs st2 !! path2 = Some (ImageFile (img_regions 2)))
    by (vm_compute; reflexivity).
  assert (H7 : mat_empty (img_regions 2) = false) by reflexivity.
  pose proof (C8_size_filter (cv := toy_cv)) as (Hkeep & _ & Hdrop).
  refine (conj H1 (conj H2 (conj H3 (conj H4 (conj H5 (conj _ (conj H6
            (conj H7 _)))))))).
  - exact (Hdrop image_path st img_small (0, 0, 15, 15) 0 0 15 15
                 H1 H2 H3 H4 H5).
  - destruct (Hkeep path2 st2 (img_regions 2) H6 H7) as (regions & E & -> & _).
    exact E.
Defined.

Lemma C9_witness :
  let l := ["a.png"; "b.png"] in
  let st0 := initial_state two_images_dir in
  let run1 := process_images (cv := toy_cv) (train_files l)
                             train_images_dir train_labels_dir st0 in
  let run2 := process_images (cv := toy_cv) (val_files l)
                             val_images_dir val_labels_dir (snd run1) in
  run1 = (Ok tt, snd run1) /\
  1 ∈ ids_of (new_events st0 (snd run1)) /\
  2 ∈ ids_of (new_events (snd run1) (snd run2)) /\
  1 < 2.
Proof.
  intros l st0 run1 run2.
  assert (H1 : run1 = (Ok tt, snd run1)).
  { assert (E : fst run1 = Ok tt) by (vm_compute; reflexivity).
    rewrite <- E. apply surjective_pairing. }
  assert (H2 : run2 = (fst run2, snd run2)) by apply surjective_pairing.
  assert (Ha : 1 ∈ ids_of (new_events st0 (snd run1))).
  { assert (E : ids_of (new_events st0 (snd run1)) = [0; 1])
      by (vm_compute; reflexivity).
    rewrite E. apply list_elem_of_further, list_elem_of_here. }
  assert (Hb : 2 ∈ ids_of (new_events (snd run1) (snd run2))).
  { assert (E : ids_of (new_events (snd run1) (snd run2)) = [2])
      by (vm_compute; reflexivity).
    rewrite E. apply list_elem_of_here. }
  split_and!; try assumption.
  apply (C9_train_ids_below_val_ids (cv := toy_cv) l st0 (snd run1)
           (fst run2) (snd run2) H1 H2 1 2 Ha Hb).
Defined.

Lemma C10_witness :
  let st := initial_state two_images_dir in
  let image_path := Py.path_join image_dir "a.png" in
  let objs := [(0, 0, 30, 30); (0, 0, 30, 30)] in
  fs st !! image_path = Some (ImageFile (img_regions 2)) /\
  mat_empty (img_regions 2) = false /\
  fst (save_cropped_objects (cv := toy_cv) image_path objs "a" st)
  = Ok ["a_object_1.png"; "a_object_2.png"].
Proof.
  intros st image_path objs.
  assert (H1 : fs st !! image_path = Some (ImageFile (img_regions 2)))
    by (vm_compute; reflexivity).
  assert (H2 : mat_empty (img_regions 2) = false) by reflexivity.
  split_and!; try assumption.
  apply (proj1 (C10_crop_names_and_directory (cv := toy_cv))
               image_path objs "a" st (img_regions 2) H1 H2).
Defined.

Lemma X4_witness :
  let listing := ["a.png"; "notes.txt"; "b.png"] in
  NoDup (map (fun f => fst (Py.splitext f)) (id (image_files listing))) /\
  size (class_map (snd (main (cv := toy_cv) listing id
                             (initial_state two_images_dir)))) = 3%nat.
Proof.
  intros listing.
  assert (H : NoDup (map (fun f => fst (Py.splitext f))
                         (id (image_files listing)))).
  { vm_compute. apply NoDup_cons. split.
    - intros Hin. apply list_elem_of_singleton in Hin. discriminate.
    - apply NoDup_singleton. }
  split; [exact H |].
  destruct (X4_label_map_one_entry_per_id (cv := toy_cv) listing id
              two_images_dir H) as [_ E].
  rewrite E. vm_compute. reflexivity.
Defined.



Lemma X11_witness :
  Z.of_nat (length ["only.png"]) < 2 ^ 50 /\
  (train_files ["only.png"] = [] <-> (length ["only.png"] <= 1)%nat).
Proof.
  assert (H : Z.of_nat (length ["only.png"]) < 2 ^ 50) by reflexivity.
  split; [exact H |].
  exact (proj1 (proj2 (X11_split_sizes ["only.png"] H))).
Defined.




Lemma X16_witness :
  let listing := ["a.png"; "a.jpg"; "notes.txt"] in
  "a.png" ∈ image_files listing /\ "a.jpg" ∈ image_files listing /\
  occurs "/" "a.png" = false /\ occurs "/" "a.jpg" = false /\
  exists p ext,
    ext ∈ extensions /\ "a.png" = p +:+ ext /\
    fst (Py.splitext "a.png") = if Py.all_dots p then "a.png" else p.
Proof.
  intros listing.
  assert (H1 : "a.png" ∈ image_files listing) by apply list_elem_of_here.
  assert (H2 : "a.jpg" ∈ image_files listing)
    by apply list_elem_of_further, list_elem_of_here.
  assert (H3 : occurs "/" "a.png" = false) by reflexivity.
  assert (H4 : occurs "/" "a.jpg" = false) by reflexivity.
  refine (conj H1 (conj H2 (conj H3 (conj H4 _)))).
  exact (proj1 (X16_image_ids listing "a.png" "a.jpg" H1 H2 H3 H4)).
Defined.

Lemma X17_witness :
  let image := img_regions 2 in
  rectangular image /\
  inside (mat_width image) (mat_height image) (1, 2, 30, 30) /\
  0 < 30 /\
  mat_height (crop_of_rect image (1, 2, 30, 30)) = 30 /\
  mat_width (crop_of_rect image (1, 2, 30, 30)) = 30.
Proof.
  intros image.
  assert (H1 : rectangular image) by (repeat constructor).
  assert (H2 : inside (mat_width image) (mat_height image) (1, 2, 30, 30))
    by (vm_compute; intuition discriminate).
  assert (H3 : 0 < 30) by reflexivity.
  refine (conj H1 (conj H2 (conj H3 _))).
  destruct (X17_crop_has_region_size image 1 2 30 30 H1 H2 H3 H3)
    as (E1 & E2 & _).
  exact (conj E1 E2).
Defined.

Lemma X18_witness :
  inside 100 50 (10, 5, 30, 21) /\ 0 < 30 /\ 0 < 21 /\
  100 < 2 ^ 52 /\ 50 < 2 ^ 52 /\
  exists xc yc bw bh,
    yolo_box 100 50 (10, 5, 30, 21) = Ok (xc, yc, bw, bh) /\
    (Qabs (xc - (1 # 4)) <= 1 # 9007199254740992)%Q.
Proof.
  assert (H1 : inside 100 50 (10, 5, 30, 21))
    by (vm_compute; intuition discriminate).
  assert (H2 : 0 < 30) by reflexivity.
  assert (H3 : 0 < 21) by reflexivity.
  assert (H4 : 100 < 2 ^ 52) by reflexivity.
  assert (H5 : 50 < 2 ^ 52) by reflexivity.
  refine (conj H1 (conj H2 (conj H3 (conj H4 (conj H5 _))))).
  destruct (X18_encoding_accuracy 100 50 10 5 30 21 H1 H2 H3 H4 H5)
    as (xc & yc & bw & bh & E & Bx & _).
  exists xc, yc, bw, bh. split; [exact E |].
  assert (Q : ((inject_Z 10 + inject_Z 30 / 2) / inject_Z 100 == 1 # 4)%Q)
    by reflexivity.
  by rewrite <- Q.
Defined.

Lemma X19_witness :
  let listing := ["a.png"; "b.png"] in
  let st := initial_state two_images_dir in
  let st' := snd (main (cv := toy_cv) listing id st) in
  NoDup (map (fun f => fst (Py.splitext f)) (id (image_files listing))) /\
  Forall (fun f => occurs "/" f = false) (id (image_files listing)) /\
  "a.png" ∈ id (image_files listing) /\
  "a.png" ∈ train_files (id (image_files listing)) /\
  fs st' !! Py.path_join val_images_dir "a.png" = None.
Proof.
  intros listing st st'.
  assert (H1 : NoDup (map (fun f => fst (Py.splitext f))
                          (id (image_files listing)))).
  { vm_compute. apply NoDup_cons. split.
    - intros Hin. apply list_elem_of_singleton in Hin. discriminate.
    - apply NoDup_singleton. }
  assert (H2 : Forall (fun f => occurs "/" f = false)
                      (id (image_files listing)))
    by (repeat constructor).
  assert (H3 : "a.png" ∈ id (image_files listing)) by apply list_elem_of_here.
  assert (H4 : "a.png" ∈ train_files (id (image_files listing)))
    by (vm_compute; apply list_elem_of_here).
  refine (conj H1 (conj H2 (conj H3 (conj H4 _)))).
  destruct (X19_what_a_run_does_not_write (cv := toy_cv) listing id st
              H1 H2 "a.png" H3) as (E & _).
  etransitivity; [exact (E H4) | vm_compute; reflexivity].
Defined.


Lemma X21_witness :
  let listing := ["a.png"; "notes.txt"; "C.JPG"; "b.png"] in
  Detect.candidates listing = ["a.png"] ++ "C.JPG" :: ["b.png"] /\
  forallb (Detect.misses (yolo := toy_yolo)) ["a.png"] = true /\
  Detect.misses (yolo := toy_yolo) "C.JPG" = false /\
  Detect.calls (Detect.detect (yolo := toy_yolo) listing)
  = ["/content/sample_data/images/a.png"; "/content/sample_data/images/C.JPG"].
Proof.
  intros listing.
  assert (H1 : Detect.candidates listing = ["a.png"] ++ "C.JPG" :: ["b.png"])
    by reflexivity.
  assert (H2 : forallb (Detect.misses (yolo := toy_yolo)) ["a.png"] = true)
    by reflexivity.
  assert (H3 : Detect.misses (yolo := toy_yolo) "C.JPG" = false)
    by reflexivity.
  refine (conj H1 (conj H2 (conj H3 _))).
  rewrite (X21_detection_ends_the_loop (yolo := toy_yolo) listing
             ["a.png"] "C.JPG" ["b.png"] H1 H2 H3).
  reflexivity.
Defined.

Lemma X22_witness :
  let listing := ["a.png"; "notes.txt"; "d.gif"] in
  forallb (Detect.misses (yolo := toy_yolo)) (Detect.candidates listing)
  = true /\
  Detect.printed (Detect.detect (yolo := toy_yolo) listing)
  = [Detect.Text "No icons detected in any of the images."].
Proof.
  intros listing.
  assert (H : forallb (Detect.misses (yolo := toy_yolo))
                      (Detect.candidates listing) = true) by reflexivity.
  split; [exact H |].
  by rewrite (X22_no_detection_message (yolo := toy_yolo) listing H).
Defined.

Lemma X24_witness :
  cooking_channel !! "snippet" = Some (YouTube.JObj cooking_snippet) /\
  cooking_snippet !! "title" = Some (YouTube.JStr "Game Recipes: COOKING") /\
  cooking_snippet !! "description" = None /\
  YouTube.determine_channel_category (H := ascii_unicode)
    (YouTube.JObj cooking_channel)
  = YouTube.Return YouTube.FOOD.
Proof.
  assert (H1 : cooking_channel !! "snippet"
               = Some (YouTube.JObj cooking_snippet)) by reflexivity.
  assert (H2 : cooking_snippet !! "title"
               = Some (YouTube.JStr "Game Recipes: COOKING")) by reflexivity.
  assert (H3 : cooking_snippet !! "description" = None) by reflexivity.
  refine (conj H1 (conj H2 (conj H3 _))).
  destruct (X24_channel_category (unicode := ascii_unicode) cooking_channel
              cooking_snippet "Game Recipes: COOKING" EmptyString H1 H2
              (or_intror (conj H3 eq_refl)))
    as (c & Hc & [[-> Hnone] | (pre & kws & post & E & _)]).
  - specialize (Hnone YouTube.FOOD _
                  ltac:(do 3 apply list_elem_of_further;
                        apply list_elem_of_here)).
    vm_compute in Hnone. discriminate Hnone.
  - rewrite Hc. vm_compute in Hc. exact (eq_sym Hc).
Defined.

Lemma X25_witness :
  YouTube.account_status connected_account = YouTube.CONNECTED /\
  YouTube.platform_data connected_account = YouTube.JObj ∅ /\
  YouTube.counts_bounded three_videos /\
  exists a,
    YouTube.get_channel_analytics (Some connected_account)
                                  (YouTube.Return three_videos)
    = YouTube.Return a /\
    map YouTube.video_id (YouTube.top_videos_by_views a) = ["v2"; "v1"; "v3"] /\
    map YouTube.video_id (YouTube.top_videos_by_engagement a)
    = ["v3"; "v1"; "v2"].
Proof.
  assert (H1 : YouTube.account_status connected_account = YouTube.CONNECTED)
    by reflexivity.
  assert (H2 : YouTube.platform_data connected_account = YouTube.JObj ∅)
    by reflexivity.
  assert (H3 : YouTube.counts_bounded three_videos)
    by (vm_compute; reflexivity).
  refine (conj H1 (conj H2 (conj H3 _))).
  destruct (proj1 (X25_top_videos connected_account three_videos H1) ∅ H2 H3)
    as (a & Hrun).
  exists a. split; [exact Hrun |].
  vm_compute in Hrun. injection Hrun as <-. split; reflexivity.
Defined.

Lemma X27_witness :
  YouTube.subscript service_config "client_config"
  = YouTube.Return (YouTube.JObj client_config) /\
  YouTube.subscript (YouTube.JObj client_config) "redirect_uris"
  = YouTube.Return
      (YouTube.JList [YouTube.JStr "https://app.example/callback";
                      YouTube.JStr "https://app.example/alt"]) /\
  YouTube.get_authorization_url (H := toy_oauth) service_config
    (Some "https://evil.example/")
  = YouTube.Raises YouTube.ValueError.
Proof.
  assert (H1 : YouTube.subscript service_config "client_config"
               = YouTube.Return (YouTube.JObj client_config))
    by reflexivity.
  assert (H2 : YouTube.subscript (YouTube.JObj client_config) "redirect_uris"
               = YouTube.Return
                   (YouTube.JList [YouTube.JStr "https://app.example/callback";
                                   YouTube.JStr "https://app.example/alt"]))
    by reflexivity.
  refine (conj H1 (conj H2 _)).
  destruct (X27_redirect_uri_is_configured (oauth := toy_oauth)
              service_config (Some "https://evil.example/") _ _ H1 H2)
    as (_ & Hgiven & _).
  apply (Hgiven "https://evil.example/" eq_refl); [discriminate |].
  intros Hin. repeat (apply elem_of_cons in Hin as [Hin | Hin]);
    try discriminate Hin. by apply elem_of_nil in Hin.
Defined.
